(** * NodeStat: data model, aggregation and ranking

    A shallow embedding of the Go sources of NodeStat:
    - [internal/models]   (Node, Job, ClusterStats and their accessors),
    - [internal/ui]       (App.fetchData, App.calculateStats, App.Update,
                           App.userHasJobsOnNode),
    - [internal/scheduler] (the SLURM and Torque adapters).

    Go's [int] is modelled as a 64-bit two's complement integer: a value
    of type [Z] together with the wrap-around [wrap] applied after every
    addition, subtraction and multiplication.  Go strings are modelled as
    [string] (sequences of bytes). *)

From Stdlib Require Import ZArith Lia Bool List Ascii String DecimalString.
From stdpp Require Import base decidable option list sorting gmap strings.

Local Open Scope string_scope.
Local Open Scope Z_scope.
Local Open Scope list_scope.

(** ** Machine integers *)

Module GoInt.

Definition minInt : Z := - 2 ^ 63.
Definition maxInt : Z := 2 ^ 63 - 1.

(** Two's complement wrap-around of a mathematical integer to 64 bits. *)
Definition wrap (z : Z) : Z := (z + 2 ^ 63) mod 2 ^ 64 - 2 ^ 63.

Definition in_range (z : Z) : Prop := minInt <= z <= maxInt.

Definition add (a b : Z) : Z := wrap (a + b).
Definition sub (a b : Z) : Z := wrap (a - b).
Definition mul (a b : Z) : Z := wrap (a * b).
(** Go's [/] truncates toward zero. *)
Definition quot (a b : Z) : Z := wrap (Z.quot a b).

End GoInt.

(** ** internal/models *)

(** [type NodeState string] with its six named constants. *)
Definition NodeState : Type := string.

Definition StateIdle    : NodeState := "Idle".
Definition StateRunning : NodeState := "Running".
Definition StateDown    : NodeState := "Down".
Definition StateOffline : NodeState := "Offline".
Definition StateBusy    : NodeState := "Busy".
Definition StateDrained : NodeState := "Drained".

Record Node : Type := mkNode {
  ID         : string;
  State      : NodeState;
  TotalCores : Z;
  UsedCores  : Z;
  TotalMemMB : Z;
  UsedMemMB  : Z;
  Partitions : list string;
  Jobs       : list string
}.

(** The zero value [models.Node{}]. *)
Definition Node_zero : Node := mkNode "" "" 0 0 0 0 [] [].

Global Instance Node_eq_dec : EqDecision Node.
Proof. solve_decision. Defined.

Definition GetAvailCores (n : Node) : Z :=
  GoInt.sub (TotalCores n) (UsedCores n).

Definition GetAvailMemGB (n : Node) : Z :=
  GoInt.quot (GoInt.sub (TotalMemMB n) (UsedMemMB n)) 1000.

Definition GetTotalMemGB (n : Node) : Z := GoInt.quot (TotalMemMB n) 1000.

Definition GetUsedMemGB (n : Node) : Z := GoInt.quot (UsedMemMB n) 1000.

Definition IsAvailable (n : Node) : bool :=
  (String.eqb (State n) StateIdle || String.eqb (State n) StateRunning)
  && (0 <? GetAvailCores n) && (0 <? GetAvailMemGB n).

(** [type JobState string]. *)
Definition JobState : Type := string.

Definition JobRunning   : JobState := "R".
Definition JobPending   : JobState := "PD".
Definition JobCompleted : JobState := "C".
Definition JobCancelled : JobState := "CA".
Definition JobFailed    : JobState := "F".

(** A [time.Duration] is an [int64] count of nanoseconds.  [SubmitTime]
    is never assigned by any adapter and is left out. *)
Module Job.
Record Job : Type := mk {
ID        : string;
User      : string;
Name      : string;
State     : JobState;
NodeList  : list string;
Partition : string;
ReqNodes  : Z;
ReqCPUs   : Z;
ReqMemMB  : Z;
TimeLimit : Z;
Elapsed   : Z;
CPUTime   : Z
}.
(** The zero value [models.Job{}]. *)
Definition zero : Job := mk "" "" "" "" [] "" 0 0 0 0 0 0.
End Job.

Module Stats.
Record ClusterStats : Type := mk {
TotalNodes    : Z;
AvailNodes    : Z;
TotalCores    : Z;
UsedCores     : Z;
AvailCores    : Z;
TotalMemoryGB : Z;
UsedMemoryGB  : Z;
AvailMemoryGB : Z
}.

(** The zero value [models.ClusterStats{}]. *)
Definition zero : ClusterStats := mk 0 0 0 0 0 0 0 0.
End Stats.

(** ** internal/ui: calculateStats *)

(** One iteration of the [for _, node := range nodes] loop. *)
Definition calculateStats_step (stats : Stats.ClusterStats) (node : Node)
  : Stats.ClusterStats :=
  {| Stats.TotalNodes    := GoInt.add (Stats.TotalNodes stats) 1;
     Stats.AvailNodes    := if IsAvailable node
                            then GoInt.add (Stats.AvailNodes stats) 1
                            else Stats.AvailNodes stats;
     Stats.TotalCores    := GoInt.add (Stats.TotalCores stats) (TotalCores node);
     Stats.UsedCores     := GoInt.add (Stats.UsedCores stats) (UsedCores node);
     Stats.AvailCores    := Stats.AvailCores stats;
     Stats.TotalMemoryGB :=
       GoInt.add (Stats.TotalMemoryGB stats) (GetTotalMemGB node);
     Stats.UsedMemoryGB  :=
       GoInt.add (Stats.UsedMemoryGB stats) (GetUsedMemGB node);
     Stats.AvailMemoryGB := Stats.AvailMemoryGB stats |}.

Definition calculateStats (nodes : list Node) : Stats.ClusterStats :=
  let stats := fold_left calculateStats_step nodes Stats.zero in
  {| Stats.TotalNodes    := Stats.TotalNodes stats;
     Stats.AvailNodes    := Stats.AvailNodes stats;
     Stats.TotalCores    := Stats.TotalCores stats;
     Stats.UsedCores     := Stats.UsedCores stats;
     Stats.AvailCores    :=
       GoInt.sub (Stats.TotalCores stats) (Stats.UsedCores stats);
     Stats.TotalMemoryGB := Stats.TotalMemoryGB stats;
     Stats.UsedMemoryGB  := Stats.UsedMemoryGB stats;
     Stats.AvailMemoryGB :=
       GoInt.sub (Stats.TotalMemoryGB stats) (Stats.UsedMemoryGB stats) |}.

(** ** The standard library's [sort.Slice]

    [sort.Slice] belongs to the Go standard library, not to this
    repository.  It is modelled by its documented contract: it reorders
    the slice in place so that it is sorted for [less], and "the sort is
    not guaranteed to be stable: equal elements may be reversed from their
    original order".  A result of [sort.Slice] is therefore any
    permutation of the input for which [sort.SliceIsSorted] holds. *)

(** [sort.SliceIsSorted]: no element is [less] than its predecessor. *)
Fixpoint SliceIsSorted {A} (less : A → A → bool) (x : list A) : bool :=
  match x with
  | a :: tl =>
      match tl with
      | b :: _ => negb (less b a) && SliceIsSorted less tl
      | [] => true
      end
  | [] => true
  end.

Definition sort_Slice {A} (less : A → A → bool) (x out : list A) : Prop :=
  x ≡ₚ out ∧ SliceIsSorted less out = true.

(** A sorting function that meets the contract (straight insertion); it
    shows that the contract can always be met. *)
Fixpoint insert_sorted {A} (less : A → A → bool) (a : A) (l : list A)
  : list A :=
  match l with
  | [] => [a]
  | b :: tl => if less a b then a :: b :: tl
               else b :: insert_sorted less a tl
  end.

Definition insertion_sort {A} (less : A → A → bool) (l : list A) : list A :=
  fold_left (λ acc a, insert_sorted less a acc) l [].

(** ** internal/ui: the ordering used by fetchData *)

(** The map literal [stateOrder] of the comparison closure. *)
Definition stateOrder : gmap string Z :=
  <[StateRunning := 0]> (<[StateBusy := 1]> (<[StateDrained := 2]>
  (<[StateDown := 3]> (<[StateOffline := 4]> ∅)))).

(** [stateOrder[s]]: indexing a Go map yields the zero value of the
    element type for a key that is absent. *)
Definition stateOrder_at (s : NodeState) : Z := default 0 (stateOrder !! s).

(** [ni.GetAvailCores()*1000 + ni.GetAvailMemGB()]. *)
Definition power (n : Node) : Z :=
  GoInt.add (GoInt.mul (GetAvailCores n) 1000) (GetAvailMemGB n).

(** The closure passed to [sort.Slice], on the two elements
    [nodes[i]] and [nodes[j]]. *)
Definition less (ni nj : Node) : bool :=
  if negb (Bool.eqb (IsAvailable ni) (IsAvailable nj)) then IsAvailable ni
  else if IsAvailable ni && IsAvailable nj then
    let iPower := power ni in
    let jPower := power nj in
    jPower <? iPower
  else stateOrder_at (State ni) <? stateOrder_at (State nj).

(** The outcomes of [sort.Slice(nodes, less)] in fetchData. *)
Definition RankNodes (nodes out : list Node) : Prop :=
  sort_Slice less nodes out.

(** ** internal/ui: the refresh cycle *)

(** A Go [error] is represented by its message. *)
Definition error : Type := string.

(** The [scheduler.Scheduler] interface.  A method returns a value and an
    error, the error being [None] for [nil]; the record stands for the
    answers of the backend at the instant of one refresh attempt. *)
Record Scheduler : Type := {
  GetNodes    : string → list Node * option error;
  GetJobs     : string → list Job.Job * option error;
  GetUserJobs : string → list Job.Job * option error
}.

(** The fields of [App] other than the table widget, the key map and the
    scheduler handle. *)
Record App : Type := mkApp {
  currentPartition : string;
  nodes            : list Node;
  jobs             : list Job.Job;
  userJobs         : list Job.Job;
  currentUser      : string;
  stats            : Stats.ClusterStats;
  width            : Z;
  height           : Z;
  lastUpdate       : Z;
  err              : option error
}.

Inductive Key : Type :=
  | KeyQuit | KeyRefresh | KeyBatch | KeyHighMem | KeyGPU | KeyOther.

Inductive Msg : Type :=
  | WindowSizeMsg (w h : Z)
  | KeyMsg (k : Key)
  | tickMsg
  | dataMsg (nodes : list Node) (jobs userJobs : list Job.Job)
            (stats : Stats.ClusterStats)
  | errorMsg (e : error).

(** The commands [Update] hands back to the runtime. *)
Inductive Cmd : Type := CmdQuit | CmdFetchData | CmdTick.

(** The message computed by the command [a.fetchData()] when the runtime
    executes it.  The closure reads [a.currentPartition] and
    [a.currentUser] when it runs. *)
Definition fetchData (s : Scheduler) (a : App) (m : Msg) : Prop :=
  let '(nodes, err) := GetNodes s (currentPartition a) in
  match err with
  | Some e => m = errorMsg e
  | None =>
    let '(jobs, err) := GetJobs s (currentPartition a) in
    match err with
    | Some e => m = errorMsg e
    | None =>
      let '(userJobs, err) := GetUserJobs s (currentUser a) in
      let userJobs := match err with Some _ => [] | None => userJobs end in
      ∃ sorted, RankNodes nodes sorted ∧
                m = dataMsg sorted jobs userJobs (calculateStats sorted)
    end
  end.

(** [App.Update]; [now] is the value of [time.Now()]. *)
Definition Update (now : Z) (a : App) (msg : Msg) : App * list Cmd :=
  match msg with
  | WindowSizeMsg w h =>
      (mkApp (currentPartition a) (nodes a) (jobs a) (userJobs a)
             (currentUser a) (stats a) w h (lastUpdate a) (err a), [])
  | KeyMsg KeyQuit => (a, [CmdQuit])
  | KeyMsg KeyRefresh => (a, [CmdFetchData])
  | KeyMsg KeyBatch =>
      (mkApp "batch" (nodes a) (jobs a) (userJobs a) (currentUser a)
             (stats a) (width a) (height a) (lastUpdate a) (err a),
       [CmdFetchData])
  | KeyMsg KeyHighMem =>
      (mkApp "highmem_q" (nodes a) (jobs a) (userJobs a) (currentUser a)
             (stats a) (width a) (height a) (lastUpdate a) (err a),
       [CmdFetchData])
  | KeyMsg KeyGPU =>
      (mkApp "gpu_q" (nodes a) (jobs a) (userJobs a) (currentUser a)
             (stats a) (width a) (height a) (lastUpdate a) (err a),
       [CmdFetchData])
  | KeyMsg KeyOther => (a, [])
  | tickMsg => (a, [CmdTick; CmdFetchData])
  | dataMsg nodes' jobs' userJobs' stats' =>
      (mkApp (currentPartition a) nodes' jobs' userJobs' (currentUser a)
             stats' (width a) (height a) now None, [])
  | errorMsg e =>
      (mkApp (currentPartition a) (nodes a) (jobs a) (userJobs a)
             (currentUser a) (stats a) (width a) (height a) (lastUpdate a)
             (Some e), [])
  end.

(** One refresh attempt: the command runs, its message is delivered. *)
Definition refresh (s : Scheduler) (now : Z) (a a' : App) : Prop :=
  ∃ m, fetchData s a m ∧ a' = fst (Update now a m).

(** [App.userHasJobsOnNode]. *)
Definition userHasJobsOnNode (a : App) (nodeID : string) : bool :=
  existsb (λ job,
    String.eqb (Job.State job) JobRunning &&
    existsb (λ jobNode, String.eqb jobNode nodeID) (Job.NodeList job))
    (userJobs a).

(** ** The [strings] and [strconv] functions the adapters call

    Strings are byte sequences.  [strings.Fields] and
    [strings.TrimSpace] decode UTF-8 and ask [unicode.IsSpace]; the
    white-space runes are found here by their encodings, which is exact
    for every byte sequence because no encoding of a white-space rune
    begins inside another rune.  [strings.ToLower] is exact on ASCII
    text; outside ASCII its result depends on the Unicode tables of the
    Go release, and a byte from 128 up is left as it is. *)

Module GoStrings.

(** [strings.Contains]. *)
Fixpoint Contains (s substr : string) : bool :=
  String.prefix substr s ||
  match s with
  | EmptyString => false
  | String _ s' => Contains s' substr
  end.

(** [strings.Repeat]. *)
Fixpoint Repeat (s : string) (count : nat) : string :=
  match count with
  | O => EmptyString
  | S k => String.append s (Repeat s k)
  end.

(** [strings.ReplaceAll] for a non-empty [old]: the occurrences are
    taken from left to right and do not overlap.  [skip] counts the
    bytes of the occurrence just replaced that are still to pass. *)
Fixpoint ReplaceAll_from (skip : nat) (s old new : string) : string :=
  match s with
  | EmptyString => EmptyString
  | String c s' =>
      match skip with
      | S k => ReplaceAll_from k s' old new
      | O =>
          if String.prefix old s
          then String.append new
                 (ReplaceAll_from (Nat.pred (String.length old)) s' old new)
          else String c (ReplaceAll_from O s' old new)
      end
  end.

Definition ReplaceAll (s old new : string) : string :=
  ReplaceAll_from O s old new.

(** [strings.Split] for a non-empty separator: the part before the
    first separator, and the parts after it. *)
Fixpoint Split_from (skip : nat) (s sep : string) : string * list string :=
  match s with
  | EmptyString => (EmptyString, [])
  | String c s' =>
      match skip with
      | S k => Split_from k s' sep
      | O =>
          if String.prefix sep s
          then (EmptyString,
                let '(p, ps) :=
                  Split_from (Nat.pred (String.length sep)) s' sep in
                p :: ps)
          else let '(p, ps) := Split_from O s' sep in (String c p, ps)
      end
  end.

Definition Split (s sep : string) : list string :=
  let '(p, ps) := Split_from O s sep in p :: ps.

(** The ASCII white space of [unicode.IsSpace]:
    tab, line feed, vertical tab, form feed, carriage return, space. *)
Definition isSpace (c : ascii) : bool :=
  let n := nat_of_ascii c in
  ((9 <=? n)%nat && (n <=? 13)%nat) || (n =? 32)%nat.

(** The number of bytes of the white-space rune at the head of [s], 0
    when [s] starts with none.  The runes of [unicode.IsSpace] outside
    ASCII are U+0085 and U+00A0 (two bytes, after 194), U+1680 (225 154
    128), U+2000 to U+200A, U+2028, U+2029 and U+202F (after 226 128),
    U+205F (226 129 159) and U+3000 (227 128 128). *)
Definition spaceWidth (s : string) : nat :=
  match s with
  | EmptyString => 0
  | String c0 s1 =>
      if isSpace c0 then 1
      else
        match s1 with
        | EmptyString => 0
        | String c1 s2 =>
            let b0 := nat_of_ascii c0 in
            let b1 := nat_of_ascii c1 in
            if (b0 =? 194)%nat && ((b1 =? 133)%nat || (b1 =? 160)%nat)
            then 2
            else
              match s2 with
              | EmptyString => 0
              | String c2 _ =>
                  let b2 := nat_of_ascii c2 in
                  if (b0 =? 225)%nat && (b1 =? 154)%nat && (b2 =? 128)%nat
                  then 3
                  else if (b0 =? 226)%nat && (b1 =? 128)%nat
                          && (((128 <=? b2)%nat && (b2 <=? 138)%nat)
                              || (b2 =? 168)%nat || (b2 =? 169)%nat
                              || (b2 =? 175)%nat)
                  then 3
                  else if (b0 =? 226)%nat && (b1 =? 129)%nat
                          && (b2 =? 159)%nat
                  then 3
                  else if (b0 =? 227)%nat && (b1 =? 128)%nat
                          && (b2 =? 128)%nat
                  then 3
                  else 0
              end
        end
  end.

(** [strings.Fields]: the maximal runs of bytes between white-space
    runes.  [skip] counts the bytes of the white-space rune being passed
    that are still to come; the first component is the field that starts
    at the head of the text, if one does. *)
Fixpoint Fields_from (skip : nat) (s : string)
  : option string * list string :=
  match s with
  | EmptyString => (None, [])
  | String c s' =>
      match skip with
      | S k => Fields_from k s'
      | O =>
          match spaceWidth s with
          | S w =>
              let '(cur, fs) := Fields_from w s' in
              (None, match cur with Some f => f :: fs | None => fs end)
          | O =>
              let '(cur, fs) := Fields_from O s' in
              (Some (String c (default EmptyString cur)), fs)
          end
      end
  end.

Definition Fields (s : string) : list string :=
  let '(cur, fs) := Fields_from O s in
  match cur with Some f => f :: fs | None => fs end.

Definition toLower (c : ascii) : ascii :=
  let n := nat_of_ascii c in
  if (65 <=? n)%nat && (n <=? 90)%nat then ascii_of_nat (n + 32) else c.

(** [strings.ToLower] on ASCII text: [A] to [Z] are lowered, every
    other byte is kept. *)
Fixpoint ToLower (s : string) : string :=
  match s with
  | EmptyString => EmptyString
  | String c s' => String (toLower c) (ToLower s')
  end.

Definition isDigit (c : ascii) : bool :=
  let n := nat_of_ascii c in (48 <=? n)%nat && (n <=? 57)%nat.

Definition digit (c : ascii) : Z := Z.of_nat (nat_of_ascii c) - 48.

(** The value of a run of decimal digits read after [acc]; [None] when
    a byte is not a digit. *)
Fixpoint digits_from (acc : Z) (s : string) : option Z :=
  match s with
  | EmptyString => Some acc
  | String c s' =>
      if isDigit c then digits_from (10 * acc + digit c) s' else None
  end.

(** A leading [+] or [-]: whether the sign is [-], and the rest. *)
Definition split_sign (s : string) : bool * string :=
  match s with
  | String c s' =>
      if Ascii.eqb c "+"%char then (false, s')
      else if Ascii.eqb c "-"%char then (true, s')
      else (false, s)
  | EmptyString => (false, s)
  end.

(** [strconv.Atoi]: an optional sign and at least one decimal digit.
    The result pairs the value with the error flag: a syntax error
    yields 0, a value outside [int] yields the nearest bound and an
    error. *)
Definition Atoi (s : string) : Z * bool :=
  let '(neg, body) := split_sign s in
  match body with
  | EmptyString => (0, true)
  | _ =>
      match digits_from 0 body with
      | None => (0, true)
      | Some v =>
          let v := if neg then - v else v in
          if v <? GoInt.minInt then (GoInt.minInt, true)
          else if GoInt.maxInt <? v then (GoInt.maxInt, true)
          else (v, false)
      end
  end.

End GoStrings.

(** What an external command hands to the adapter: the lines that
    [bufio.Scanner] yields from its output, and the error of
    [cmd.Output()]. *)
Definition CmdOutput : Type := (list string * option error)%type.

(** ** internal/scheduler: the Torque adapter *)

Module Torque.

(** [TorqueScheduler.parseNodeState]. *)
Definition parseNodeState (state : string) : NodeState :=
  let s := GoStrings.ToLower state in
  if String.eqb s "free" then StateIdle
  else if String.eqb s "busy" then StateBusy
  else if String.eqb s "down" then StateDown
  else if String.eqb s "offline" then StateOffline
  else StateBusy.

(** The loop [for i := 30; i > 1; i--] that collapses runs of spaces. *)
Definition collapseSpaces (line : string) : string :=
  fold_left
    (λ line i, GoStrings.ReplaceAll line (GoStrings.Repeat " " i) " ")
    (rev (seq 2 29)) line.

(** [TorqueScheduler.parseNodeInfo]. *)
Definition parseNodeInfo (line : string) : Node * option error :=
  let node := Node_zero in
  let line := collapseSpaces line in
  let fields := GoStrings.Split line " " in
  if (length fields <? 4)%nat
  then (node, Some "insufficient fields in node info")
  else
    let node := mkNode (nth 0 fields "") (parseNodeState (nth 1 fields ""))
                  (TotalCores node) (UsedCores node)
                  (TotalMemMB node) (UsedMemMB node)
                  (Partitions node) (Jobs node) in
    (* CPU info "available:total" *)
    let node :=
      match GoStrings.Split (nth 2 fields "") ":" with
      | [avail_s; total_s] =>
          let node :=
            match GoStrings.Atoi total_s with
            | (total, false) =>
                mkNode (ID node) (State node) total (UsedCores node)
                  (TotalMemMB node) (UsedMemMB node)
                  (Partitions node) (Jobs node)
            | _ => node
            end in
          match GoStrings.Atoi avail_s with
          | (avail, false) =>
              mkNode (ID node) (State node) (TotalCores node)
                (GoInt.sub (TotalCores node) avail)
                (TotalMemMB node) (UsedMemMB node)
                (Partitions node) (Jobs node)
          | _ => node
          end
      | _ => node
      end in
    (* memory info "available:total", in KB *)
    let node :=
      match GoStrings.Split (nth 3 fields "") ":" with
      | [avail_s; total_s] =>
          let node :=
            match GoStrings.Atoi total_s with
            | (total, false) =>
                mkNode (ID node) (State node) (TotalCores node)
                  (UsedCores node) (GoInt.quot total 1000) (UsedMemMB node)
                  (Partitions node) (Jobs node)
            | _ => node
            end in
          match GoStrings.Atoi avail_s with
          | (avail, false) =>
              mkNode (ID node) (State node) (TotalCores node)
                (UsedCores node) (TotalMemMB node)
                (GoInt.sub (TotalMemMB node) (GoInt.quot avail 1000))
                (Partitions node) (Jobs node)
          | _ => node
          end
      | _ => node
      end in
    (node, None).

(** The test that selects the lines of a partition in [GetNodes]. *)
Definition lineInPartition (partition line : string) : bool :=
  GoStrings.Contains line (String.append "[" (String.append partition "]"))
  && negb (GoStrings.Contains line
             (String.append "[" (String.append partition "][")))%string.

(** One iteration of the scanner loop of [GetNodes]. *)
Definition GetNodes_step (partition : string) (nodes : list Node)
    (line : string) : list Node :=
  if lineInPartition partition line then
    match parseNodeInfo line with
    | (node, None) => nodes ++ [node]
    | (_, Some _) => nodes
    end
  else nodes.

(** [TorqueScheduler.GetNodes]; [mdiag] is the result of
    [mdiag -n -v]. *)
Definition GetNodes (mdiag : CmdOutput) (partition : string)
  : list Node * option error :=
  match mdiag with
  | (_, Some e) => ([], Some (String.append "failed to run mdiag: " e))
  | (output, None) =>
      let nodes := fold_left (GetNodes_step partition) output [] in
      if (length nodes =? 0)%nat
      then ([], Some (String.append "no nodes found in partition: "
                                    partition))
      else (nodes, None)
  end.

(** [TorqueScheduler.GetUserJobs]; [qstat user] is the result of
    [qstat -u user].  The loop body is [_ = line]. *)
Definition GetUserJobs (qstat : string → CmdOutput) (user : string)
  : list Job.Job * option error :=
  match qstat user with
  | (_, Some e) =>
      ([], Some (String.append "failed to run qstat for user "
                   (String.append user (String.append ": " e))))
  | (output, None) =>
      let jobs : list Job.Job := [] in
      let jobs := fold_left (λ jobs line, jobs) output jobs in
      (jobs, None)
  end.

End Torque.

(** ** [strconv.ParseFloat] and the conversion to [int]

    [ParseFloat] returns the float64 nearest to the literal, ties going
    to the even mantissa.  A finite float64 is kept as a sign, a mantissa
    and a binary exponent. *)

Module GoFloat.

Record float64 : Type := mkFloat { neg : bool; mant : Z; expo : Z }.

(** [(num / den) / 2^p] as a fraction. *)
Definition scale (num den p : Z) : Z * Z :=
  if 0 <=? p then (num, den * 2 ^ p) else (num * 2 ^ (- p), den).

(** The float64 nearest to [num / den] for [0 <= num] and [0 < den], as
    a mantissa and an exponent; [None] when the value rounds beyond the
    largest finite float64. *)
Definition round_nearest_even (num den : Z) : option (Z * Z) :=
  if num =? 0 then Some (0, 0) else
  let e0 := Z.log2 num - Z.log2 den in
  let '(na, da) := scale num den e0 in
  let e := if na <? da then e0 - 1 else e0 in
  let p := Z.max e (- 1022) - 52 in
  let '(nb, db) := scale num den p in
  let fl := nb / db in
  let rem := nb mod db in
  let r := if 2 * rem <? db then fl
           else if db <? 2 * rem then fl + 1
           else if Z.even fl then fl else fl + 1 in
  if (0 <=? p) && (2 ^ 1024 <=? r * 2 ^ p) then None else Some (r, p).

Inductive ParseFloat_result : Type :=
  | PF_ok (f : float64)
  (** A syntax error, or a value beyond the largest float64. *)
  | PF_err
  (** An infinity or NaN, which [ParseFloat] returns without error. *)
  | PF_nonfinite.

Definition plainByte (c : ascii) : bool :=
  GoStrings.isDigit c || Ascii.eqb c "."%char
  || Ascii.eqb c "+"%char || Ascii.eqb c "-"%char.

Fixpoint forallb_string (p : ascii → bool) (s : string) : bool :=
  match s with
  | EmptyString => true
  | String c s' => p c && forallb_string p s'
  end.

(** Reads [digits] or [digits.digits] with at least one digit in all:
    the digits as one number and the count of those after the point. *)
Fixpoint decimal_from (seen_point : bool) (acc : Z) (frac ndig : nat)
    (s : string) : option (Z * nat) :=
  match s with
  | EmptyString => if (ndig =? 0)%nat then None else Some (acc, frac)
  | String c s' =>
      if GoStrings.isDigit c then
        decimal_from seen_point (10 * acc + GoStrings.digit c)
          (if seen_point then S frac else frac) (S ndig) s'
      else if Ascii.eqb c "."%char && negb seen_point then
        decimal_from true acc frac ndig s'
      else None
  end.

(** [commonPrefixLenIgnoreCase] compares after lowering [A] to [Z]. *)
Fixpoint foldCase (s : string) : string :=
  match s with
  | EmptyString => EmptyString
  | String c s' => String (GoStrings.toLower c) (foldCase s')
  end.

(** [special] accepts the whole text: [inf] or [infinity] with an
    optional sign, or [nan] without one, in any case of the letters. *)
Definition special (s : string) : bool :=
  let '(_, body) := GoStrings.split_sign s in
  String.eqb (foldCase body) "inf" || String.eqb (foldCase body) "infinity"
  || String.eqb (foldCase s) "nan".

(** [lower(c) == 'x'], ['e'], ['p'], ['b'], ['o'] for [lower(c) = c | 0x20]. *)
Definition is_x (c : ascii) : bool := Ascii.eqb c "x"%char || Ascii.eqb c "X"%char.
Definition is_e (c : ascii) : bool := Ascii.eqb c "e"%char || Ascii.eqb c "E"%char.
Definition is_p (c : ascii) : bool := Ascii.eqb c "p"%char || Ascii.eqb c "P"%char.
Definition is_b (c : ascii) : bool := Ascii.eqb c "b"%char || Ascii.eqb c "B"%char.
Definition is_o (c : ascii) : bool := Ascii.eqb c "o"%char || Ascii.eqb c "O"%char.

(** The value of a hexadecimal digit [a] to [f] or [A] to [F]. *)
Definition hexLetter (c : ascii) : option Z :=
  let n := nat_of_ascii c in
  if (65 <=? n)%nat && (n <=? 70)%nat then Some (Z.of_nat n - 55)
  else if (97 <=? n)%nat && (n <=? 102)%nat then Some (Z.of_nat n - 87)
  else None.

(** The digit loop of [readFloat]: underscores are passed over, one point
    is taken, the loop stops at any other byte.  The result is the
    number the digits spell in the base, the count of digits after the
    point, whether a digit was seen, and the text from the byte at which
    the loop stopped. *)
Fixpoint readDigits (hex sawdot sawdigits : bool) (acc : Z) (frac : nat)
    (s : string) : Z * nat * bool * string :=
  match s with
  | EmptyString => (acc, frac, sawdigits, s)
  | String c s' =>
      if Ascii.eqb c "_"%char then readDigits hex sawdot sawdigits acc frac s'
      else if Ascii.eqb c "."%char then
        if sawdot then (acc, frac, sawdigits, s)
        else readDigits hex true sawdigits acc frac s'
      else if GoStrings.isDigit c then
        readDigits hex sawdot true
          ((if hex then 16 else 10) * acc + GoStrings.digit c)
          (if sawdot then S frac else frac) s'
      else if hex then
        match hexLetter c with
        | Some d =>
            readDigits hex sawdot true (16 * acc + d)
              (if sawdot then S frac else frac) s'
        | None => (acc, frac, sawdigits, s)
        end
      else (acc, frac, sawdigits, s)
  end.

(** The digits of the exponent: underscores are passed over, and once
    [e] has reached 10000 further digits are dropped, as in [readFloat].
    [None] when a byte is neither a digit nor an underscore. *)
Fixpoint readExp (e : Z) (s : string) : option Z :=
  match s with
  | EmptyString => Some e
  | String c s' =>
      if Ascii.eqb c "_"%char then readExp e s'
      else if GoStrings.isDigit c then
        readExp (if e <? 10000 then e * 10 + GoStrings.digit c else e) s'
      else None
  end.

(** The text after the exponent letter: an optional sign, then a digit,
    then digits and underscores to the end. *)
Definition readExponent (s : string) : option Z :=
  let '(eneg, s) := GoStrings.split_sign s in
  match s with
  | String c _ =>
      if GoStrings.isDigit c
      then match readExp 0 s with
           | Some e => Some (if eneg then - e else e)
           | None => None
           end
      else None
  | EmptyString => None
  end.

(** What [underscoreOK] has last seen: the start of the number, a digit
    or base prefix, an underscore, or another byte. *)
Inductive saw : Type := sawStart | sawDigit | sawUnderscore | sawOther.

Fixpoint underscoreOK_from (hex : bool) (last : saw) (s : string) : bool :=
  match s with
  | EmptyString => match last with sawUnderscore => false | _ => true end
  | String c s' =>
      if GoStrings.isDigit c || (hex && bool_decide (is_Some (hexLetter c)))
      then underscoreOK_from hex sawDigit s'
      else if Ascii.eqb c "_"%char then
        match last with
        | sawDigit => underscoreOK_from hex sawUnderscore s'
        | _ => false
        end
      else
        match last with
        | sawUnderscore => false
        | _ => underscoreOK_from hex sawOther s'
        end
  end.

(** [underscoreOK]: an underscore stands only between digits, or between
    a base prefix and a digit. *)
Definition underscoreOK (s : string) : bool :=
  let '(_, s) := GoStrings.split_sign s in
  match s with
  | String z (String c rest) =>
      if Ascii.eqb z "0"%char && (is_b c || is_o c || is_x c)
      then underscoreOK_from (is_x c) sawDigit rest
      else underscoreOK_from false sawStart s
  | _ => underscoreOK_from false sawStart s
  end.

(** The base prefix [0x] or [0X] of [readFloat], taken when a byte
    follows it: whether the literal is hexadecimal, and its digits. *)
Definition hexPrefix (body : string) : bool * string :=
  match body with
  | String z (String x (String c rest)) =>
      if Ascii.eqb z "0"%char && is_x x then (true, String c rest)
      else (false, body)
  | _ => (false, body)
  end.

(** [readFloat] on a text it reads to the end: the sign and the exact
    value [num / den] of a decimal literal [digits.digits e exp] or of
    a hexadecimal one [0x digits.digits p exp], whose exponent is
    required.  [None] when the text is not such a literal. *)
Definition readFloat (s : string) : option (bool * Z * Z) :=
  let '(neg, body) := GoStrings.split_sign s in
  let '(hex, digits) := hexPrefix body in
  let '(m, frac, sawdigits, rest) := readDigits hex false false 0 0 digits in
  if negb sawdigits then None
  else
    let exp :=
      match rest with
      | EmptyString => if hex then None else Some 0
      | String c rest' =>
          if (if hex then is_p c else is_e c) then readExponent rest'
          else None
      end in
    match exp with
    | None => None
    | Some e =>
        if GoStrings.Contains s "_" && negb (underscoreOK s) then None
        else
          let den := (if hex then 16 else 10) ^ Z.of_nat frac in
          let x := if hex then 2 else 10 in
          Some (if 0 <=? e then (neg, m * x ^ e, den)
                else (neg, m, den * x ^ (- e)))
    end.

(** [strconv.ParseFloat(s, 64)].  A text of digits, points and signs is
    a decimal literal without exponent or an error; any other text is an
    infinity or NaN, a literal with an exponent, a hexadecimal literal,
    a literal with digit separators, or an error. *)
Definition ParseFloat (s : string) : ParseFloat_result :=
  if forallb_string plainByte s then
    let '(sign, body) := GoStrings.split_sign s in
    match decimal_from false 0 0 0 body with
    | None => PF_err
    | Some (m, k) =>
        match round_nearest_even m (10 ^ Z.of_nat k) with
        | Some (r, p) => PF_ok (mkFloat sign r p)
        | None => PF_err
        end
    end
  else if special s then PF_nonfinite
  else
    match readFloat s with
    | None => PF_err
    | Some (sign, num, den) =>
        match round_nearest_even num den with
        | Some (r, p) => PF_ok (mkFloat sign r p)
        | None => PF_err
        end
    end.

(** The conversion [int(f)] discards the fraction; when the value does
    not fit, the Go specification leaves the result to the
    implementation, which is [None] here. *)
Definition to_int (f : float64) : option Z :=
  let a := if 0 <=? expo f then mant f * 2 ^ expo f
           else mant f / 2 ^ (- expo f) in
  let v := if neg f then - a else a in
  if (GoInt.minInt <=? v) && (v <=? GoInt.maxInt) then Some v else None.

End GoFloat.

(** ** internal/scheduler: the SLURM adapter *)

(** How a call ends: it returns, it panics (an index or a slice bound out
    of range), or it reaches a conversion whose result the Go
    specification leaves to the implementation. *)
Inductive outcome (A : Type) : Type :=
  | Returns (a : A)
  | Panics
  | Unspecified.
Arguments Returns {A} a.
Arguments Panics {A}.
Arguments Unspecified {A}.

Module Slurm.

(** [SlurmScheduler.parseNodeState]. *)
Definition parseNodeState (state : string) : NodeState :=
  let baseState := nth 0 (GoStrings.Split state "+") "" in
  let s := GoStrings.ToLower baseState in
  if String.eqb s "idle" then StateIdle
  else if String.eqb s "allocated" || String.eqb s "mixed" then StateRunning
  else if String.eqb s "down" then StateDown
  else if String.eqb s "offline" then StateOffline
  else if String.eqb s "drained" || String.eqb s "drain" then StateDrained
  else StateBusy.

(** The body of the loop over [fields] in [parseNodeInfo]. *)
Definition parseNodeInfo_step (node : Node) (field : string) : Node :=
  match GoStrings.Split field "=" with
  | [key; value] =>
      if String.eqb key "NodeName" then
        mkNode value (State node) (TotalCores node) (UsedCores node)
          (TotalMemMB node) (UsedMemMB node) (Partitions node) (Jobs node)
      else if String.eqb key "State" then
        mkNode (ID node) (parseNodeState value) (TotalCores node)
          (UsedCores node) (TotalMemMB node) (UsedMemMB node)
          (Partitions node) (Jobs node)
      else if String.eqb key "CPUAlloc" then
        match GoStrings.Atoi value with
        | (val, false) =>
            mkNode (ID node) (State node) (TotalCores node) val
              (TotalMemMB node) (UsedMemMB node)
              (Partitions node) (Jobs node)
        | _ => node
        end
      else if String.eqb key "CPUTot" then
        match GoStrings.Atoi value with
        | (val, false) =>
            mkNode (ID node) (State node) val (UsedCores node)
              (TotalMemMB node) (UsedMemMB node)
              (Partitions node) (Jobs node)
        | _ => node
        end
      else if String.eqb key "AllocMem" then
        match GoStrings.Atoi value with
        | (val, false) =>
            mkNode (ID node) (State node) (TotalCores node) (UsedCores node)
              (TotalMemMB node) val (Partitions node) (Jobs node)
        | _ => node
        end
      else if String.eqb key "RealMemory" then
        match GoStrings.Atoi value with
        | (val, false) =>
            mkNode (ID node) (State node) (TotalCores node) (UsedCores node)
              val (UsedMemMB node) (Partitions node) (Jobs node)
        | _ => node
        end
      else if String.eqb key "Partitions" then
        mkNode (ID node) (State node) (TotalCores node) (UsedCores node)
          (TotalMemMB node) (UsedMemMB node)
          (GoStrings.Split value ",") (Jobs node)
      else node
  | _ => node
  end.

(** [SlurmScheduler.parseNodeInfo]: its error is always [nil]. *)
Definition parseNodeInfo (nodeInfo : string) : Node * option error :=
  (fold_left parseNodeInfo_step (GoStrings.Fields nodeInfo) Node_zero,
   None).

(** [SlurmScheduler.nodeInPartition]. *)
Definition nodeInPartition (node : Node) (partition : string) : bool :=
  existsb (λ p, String.eqb p partition) (Partitions node).

(** The block shared by the loop and the final record of [GetNodes]:
    parse [nodeInfo] and append the node when it is in the partition. *)
Definition GetNodes_flush (partition : string) (nodes : list Node)
    (nodeInfo : string) : list Node :=
  match parseNodeInfo nodeInfo with
  | (node, None) =>
      if nodeInPartition node partition then nodes ++ [node] else nodes
  | (_, Some _) => nodes
  end.

(** One iteration of the scanner loop of [GetNodes] on the pair
    [(nodes, nodeInfo)]. *)
Definition GetNodes_step (partition : string)
    (st : list Node * string) (line : string) : list Node * string :=
  let '(nodes, nodeInfo) := st in
  let '(nodes, nodeInfo) :=
    if GoStrings.Contains line "NodeName=" then
      if negb (String.eqb nodeInfo "")
      then (GetNodes_flush partition nodes nodeInfo, "")
      else (nodes, nodeInfo)
    else (nodes, nodeInfo) in
  (nodes, String.append nodeInfo (String.append line " ")).

(** [SlurmScheduler.GetNodes]; [scontrol] is the result of
    [scontrol show nodes]. *)
Definition GetNodes (scontrol : CmdOutput) (partition : string)
  : list Node * option error :=
  match scontrol with
  | (_, Some e) => ([], Some (String.append "failed to run scontrol: " e))
  | (output, None) =>
      let '(nodes, nodeInfo) :=
        fold_left (GetNodes_step partition) output ([], "") in
      let nodes :=
        if negb (String.eqb nodeInfo "")
        then GetNodes_flush partition nodes nodeInfo
        else nodes in
      if (length nodes =? 0)%nat
      then ([], Some (String.append "no nodes found in partition: "
                                    partition))
      else (nodes, None)
  end.

(** [SlurmScheduler.parseTimeString], in nanoseconds; its error is
    always [nil].  The errors of [Atoi] are dropped, its values kept. *)
Definition parseTimeString (timeStr : string) : Z * option error :=
  if String.eqb timeStr "" then (0, None) else
  let '(days, timeStr) :=
    if GoStrings.Contains timeStr "-" then
      match GoStrings.Split timeStr "-" with
      | [d; t] => (fst (GoStrings.Atoi d), t)
      | _ => (0, timeStr)
      end
    else (0, timeStr) in
  let '(hours, minutes, seconds) :=
    match GoStrings.Split timeStr ":" with
    | [h; m; s] =>
        (fst (GoStrings.Atoi h), fst (GoStrings.Atoi m),
         fst (GoStrings.Atoi s))
    | _ => (0, 0, 0)
    end in
  let totalSeconds :=
    GoInt.add (GoInt.add (GoInt.add
      (GoInt.mul (GoInt.mul days 24) 3600)
      (GoInt.mul hours 3600))
      (GoInt.mul minutes 60))
      seconds in
  (GoInt.mul totalSeconds 1000000000, None).

(** The memory text of [parseJobInfo] after its five replacements. *)
Definition cleanMemStr (memStr : string) : string :=
  let memStr := GoStrings.ReplaceAll memStr "Mc" "" in
  let memStr := GoStrings.ReplaceAll memStr "Mn" "" in
  let memStr := GoStrings.ReplaceAll memStr "n" "" in
  let memStr := GoStrings.ReplaceAll memStr "c" "" in
  GoStrings.ReplaceAll memStr "G" "000".

(** The memory step of [parseJobInfo]: the new value of [job.ReqMemMB]
    given the old one.  An error of [ParseFloat] keeps the old value; an
    infinity, a NaN or a value outside [int] is converted with a result
    that depends on the implementation. *)
Definition parseReqMem (old : Z) (field : string) : outcome Z :=
  match GoFloat.ParseFloat (cleanMemStr field) with
  | GoFloat.PF_ok memVal =>
      match GoFloat.to_int memVal with
      | Some v => Returns v
      | None => Unspecified
      end
  | GoFloat.PF_err => Returns old
  | GoFloat.PF_nonfinite => Unspecified
  end.

(** [fields[5][:1]]. *)
Definition firstByte (s : string) : outcome string :=
  match s with
  | EmptyString => Panics
  | String c _ => Returns (String c EmptyString)
  end.

(** [SlurmScheduler.parseJobInfo]. *)
Definition parseJobInfo (fields : list string)
  : outcome (Job.Job * option error) :=
  if (length fields <? 12)%nat
  then Returns (Job.zero, Some "insufficient fields")
  else
    let f i := nth i fields "" in
    match firstByte (f 5%nat) with
    | Panics => Panics
    | Unspecified => Unspecified
    | Returns state =>
        let reqNodes :=
          match GoStrings.Atoi (f 6%nat) with
          | (val, false) => val
          | _ => 0
          end in
        let reqCPUs :=
          match GoStrings.Atoi (f 7%nat) with
          | (val, false) => val
          | _ => 0
          end in
        match parseReqMem 0 (f 8%nat) with
        | Panics => Panics
        | Unspecified => Unspecified
        | Returns reqMem =>
            Returns
              (Job.mk (f 2%nat) (f 3%nat) (f 4%nat) state
                 (GoStrings.Split (f 1%nat) ",") (f 0%nat)
                 reqNodes reqCPUs reqMem
                 (fst (parseTimeString (f 9%nat)))
                 (fst (parseTimeString (f 10%nat)))
                 (fst (parseTimeString (f 11%nat))),
               None)
        end
    end.

End Slurm.

(** ** Well-formed nodes and the inputs of the examples *)

(** A node as a Go program can hold it: every [int] field is an [int]. *)
Definition Node_wf (n : Node) : Prop :=
  GoInt.in_range (TotalCores n) ∧ GoInt.in_range (UsedCores n) ∧
  GoInt.in_range (TotalMemMB n) ∧ GoInt.in_range (UsedMemMB n).

(** A node a parser really produces: the Torque line below has an
    unreadable core total, which leaves [TotalCores] at 0 and makes
    [UsedCores] negative. *)
Definition idle_no_cores : Node :=
  mkNode "n1" StateIdle 0 (-5) 4000 2000 [] [].

(** The scenario of the specification, with the memory figures stored as
    they stand (megabytes). *)
Definition scenario_nodes : list Node :=
  [ mkNode "a" StateIdle 10 0 100 0 ["batch"] [];
    mkNode "b" StateRunning 10 2 100 10 ["batch"] [] ].

(** The same scenario with 100 GB and 10 GB of memory. *)
Definition scenario_nodes_GB : list Node :=
  [ mkNode "a" StateIdle 10 0 100000 0 ["batch"] [];
    mkNode "b" StateRunning 10 2 100000 10000 ["batch"] [] ].

(** ** Notions used to state the ranking properties *)

(** [before l x y]: an occurrence of [x] precedes an occurrence of [y]. *)
Definition before {A} (l : list A) (x y : A) : Prop :=
  ∃ l1 l2 l3, l = l1 ++ x :: l2 ++ y :: l3.

(** Two nodes tie when the comparison puts neither before the other. *)
Definition tie (a b : Node) : Prop := less a b = false ∧ less b a = false.

(** The score of an available node is the mathematical one when
    [cores * 1000 + memory] fits an [int]. *)
Definition power_exact (n : Node) : Prop :=
  GoInt.in_range (GetAvailCores n * 1000 + GetAvailMemGB n).

(** A single integer that orders nodes the way [less] does: available
    nodes lie below zero, by descending score; the others carry their
    state priority. *)
Definition rank_key (n : Node) : Z :=
  if IsAvailable n then - power n - 2 ^ 64 else stateOrder_at (State n).

(** Two available nodes with the same free cores; [big_B] has more free
    memory, and its score [cores * 1000 + memory] passes [maxInt]. *)
Definition big_A : Node :=
  mkNode "A" StateIdle 9223372036854775 0 800000 0 ["batch"] [].
Definition big_B : Node :=
  mkNode "B" StateIdle 9223372036854775 0 900000 0 ["batch"] [].

(** An available node, an Idle node with no core left, and nodes that
    are unavailable by their state. *)
Definition free_node : Node := mkNode "f" StateIdle 8 0 64000 0 [] [].
Definition idle_full : Node := mkNode "i" StateIdle 8 8 64000 0 [] [].
Definition busy_node : Node := mkNode "b" StateBusy 8 8 64000 0 [] [].
Definition down_node : Node := mkNode "d" StateDown 8 0 64000 0 [] [].

(** Running nodes with no core left: they all tie. *)
Definition full (id : string) : Node :=
  mkNode id StateRunning 8 8 64000 0 [] [].

Definition thirteen : list Node :=
  [ full "r0"; full "r1"; full "r2"; full "r3"; full "r4"; full "r5";
    full "r6"; full "r7"; full "r8"; full "r9"; full "r10";
    busy_node; full "r12" ].

(** A sorted rearrangement of [thirteen] in which the tied nodes [r0]
    and [r6] have changed places. *)
Definition thirteen_ranked : list Node :=
  [ full "r6"; full "r1"; full "r2"; full "r3"; full "r4"; full "r5";
    full "r0"; full "r7"; full "r8"; full "r9"; full "r10";
    full "r12"; busy_node ].

(** ** Schedulers and a snapshot for the examples *)

Definition job_of (user : string) : Job.Job :=
  Job.mk "42" user "sim" JobRunning ["f"] "batch" 1 8 4000 0 0 0.

(** A snapshot published by an earlier refresh. *)
Definition old_app : App :=
  mkApp "batch" [free_node] [job_of "ann"] [job_of "bob"] "bob"
        (calculateStats [free_node]) 80 24 100 None.

(** Nodes and jobs arrive, the user-job query fails. *)
Definition sched_user_fails : Scheduler :=
  {| GetNodes _ := ([down_node; free_node], None);
     GetJobs _ := ([job_of "ann"], None);
     GetUserJobs _ := ([], Some "failed to run sacct") |}.

(** The node query fails. *)
Definition sched_nodes_fail : Scheduler :=
  {| GetNodes _ := ([], Some "failed to run scontrol");
     GetJobs _ := ([job_of "ann"], None);
     GetUserJobs _ := ([job_of "bob"], None) |}.

(** The job query fails. *)
Definition sched_jobs_fail : Scheduler :=
  {| GetNodes _ := ([down_node; free_node], None);
     GetJobs _ := ([], Some "failed to run sacct");
     GetUserJobs _ := ([job_of "bob"], None) |}.

(** [qstat -u user] prints two job lines. *)
Definition qstat_two_jobs (user : string) : CmdOutput :=
  (["101.srv " ++ user ++ " batch sim 1 8 R";
    "102.srv " ++ user ++ " batch fit 1 4 R"]%string, None).

(** A scheduler whose user jobs come from the Torque adapter. *)
Definition sched_torque_user : Scheduler :=
  {| GetNodes _ := ([down_node; free_node], None);
     GetJobs _ := ([job_of "ann"], None);
     GetUserJobs := Torque.GetUserJobs qstat_two_jobs |}.

(** ** Scheduler reports for the examples *)

(** [scontrol show nodes] with one sound record and one whose counts are
    not numbers and whose state has no value. *)
Definition scontrol_report : CmdOutput :=
  ([ "NodeName=n1 CPUAlloc=2 CPUTot=8 RealMemory=64000 AllocMem=1000 "
       ++ "State=IDLE Partitions=batch";
     "NodeName=n2 CPUAlloc=two CPUTot=?? RealMemory= State Partitions=batch"
   ]%string, None).

(** The same sound record followed by a line that lacks the [NodeName=]
    marker. *)
Definition scontrol_report_unmarked : CmdOutput :=
  ([ "NodeName=n1 CPUAlloc=2 CPUTot=8 RealMemory=64000 AllocMem=1000 "
       ++ "State=IDLE Partitions=batch";
     "Nodename=n2 CPUAlloc=0 CPUTot=4 State=DOWN Partitions=batch"
   ]%string, None).

(** [mdiag -n -v] lines of partition [batch]: two sound ones and one cut
    short. *)
Definition mdiag_line1 : string :=
  "n1    free   6:8     2000000:4000000  1.00  [batch]".
Definition mdiag_line2 : string :=
  "n2    busy   0:8     1000000:4000000  8.00  [batch]".
Definition mdiag_short : string := "n3    [batch]".

(** A line of [sacct -p] split at the bars, with the given [ReqMem]. *)
Definition sacct_fields (reqMem : string) : list string :=
  ["batch"; "n1"; "123"; "bob"; "sim"; "RUNNING"; "1"; "8"; reqMem;
   "1-00:00:00"; "00:10:00"; "01:20:00"].

(** [job.ReqMemMB] after [parseJobInfo], when it returns. *)
Definition ReqMemMB_of (r : outcome (Job.Job * option error)) : option Z :=
  match r with
  | Returns (job, _) => Some (Job.ReqMemMB job)
  | _ => None
  end.

(** No occurrence of [old] starts at a decimal digit; this holds of the
    patterns replaced in [cleanMemStr], which begin with a letter. *)
Definition starts_with_letter (old : string) : Prop :=
  ∀ c s, GoStrings.isDigit c = true → String.prefix old (String c s) = false.

(** * Further parts of the program *)

(** ** internal/ui: NewApp and the runs of the event loop *)

(** The fields [NewApp] sets; [userEnv] is the value of
    [os.Getenv("USER")].  The remaining fields keep their zero value. *)
Definition NewApp (partition userEnv : string) : App :=
  let currentUser := if String.eqb userEnv "" then "unknown" else userEnv in
  mkApp partition [] [] [] currentUser Stats.zero 0 0 0 None.

(** The partitions the hot keys select, [app.partitions]. *)
Definition partitions : list string := ["batch"; "highmem_q"; "gpu_q"].

(** The states the event loop reaches from [init].  A message is a
    window, key or timer event, or the result of a fetch command that
    started in some earlier state [a0]: commands run on their own and
    their results arrive in any order.  [backend s] says that [s] is a
    possible set of answers of the backend at the instant of a fetch;
    the answers may differ from one fetch to the next. *)
Inductive reachable (backend : Scheduler → Prop) (init : App)
  : App → Prop :=
  | reach_init : reachable backend init init
  | reach_event a now m :
      reachable backend init a →
      (∀ ns js us st, m ≠ dataMsg ns js us st) → (∀ e, m ≠ errorMsg e) →
      reachable backend init (fst (Update now a m))
  | reach_fetched a a0 s now m :
      reachable backend init a → reachable backend init a0 →
      backend s → fetchData s a0 m →
      reachable backend init (fst (Update now a m)).

(** The published statistics belong to the published nodes. *)
Definition snapshot_consistent (a : App) : Prop :=
  stats a = calculateStats (nodes a).

(** ** Sums and counts over node lists *)

Definition sumZ (f : Node → Z) (l : list Node) : Z :=
  foldr (λ n acc, f n + acc) 0 l.

(** The number of nodes that [IsAvailable] accepts. *)
Definition availCount (l : list Node) : Z :=
  Z.of_nat (length (List.filter IsAvailable l)).

(** ** Notions used to state the properties of the adapters *)

(** The byte [c] does not occur in [s]. *)
Definition lacks (c : ascii) (s : string) : Prop :=
  GoFloat.forallb_string (λ x, negb (Ascii.eqb x c)) s = true.

(** [s] is ASCII text: every byte is below 128.  On such text
    [GoStrings.ToLower] is [strings.ToLower]. *)
Definition is_ascii (s : string) : Prop :=
  GoFloat.forallb_string (λ c, (nat_of_ascii c <? 128)%nat) s = true.

(** The six states of the data model. *)
Definition all_states : list NodeState :=
  [StateIdle; StateRunning; StateDown; StateOffline; StateBusy; StateDrained].

(** ** The memory column of a job record *)

(** The memory column is converted with a result that the Go
    specification leaves to the implementation: after the replacements
    it is read without error as an infinity, a NaN, or a number whose
    integer part is outside [int]. *)
Definition mem_open (field : string) : bool :=
  match GoFloat.ParseFloat (Slurm.cleanMemStr field) with
  | GoFloat.PF_ok f =>
      match GoFloat.to_int f with Some _ => false | None => true end
  | GoFloat.PF_err => false
  | GoFloat.PF_nonfinite => true
  end.

(** A byte that ends a decimal number and starts no exponent: not a
    digit, point, sign or underscore, and not [e], [E], [x] or [X]. *)
Definition unitByte (c : ascii) : bool :=
  negb (GoFloat.plainByte c) && negb (Ascii.eqb c "_"%char)
  && negb (GoFloat.is_e c) && negb (GoFloat.is_x c).

(** ** internal/scheduler: the SLURM job listings *)

Module SlurmJobs.

(** The body of the scanner loop of [SlurmScheduler.GetJobs], after the
    header line.  A panic or an open step of [parseJobInfo] ends the
    call. *)
Definition GetJobs_step (partition : string)
    (acc : outcome (list Job.Job)) (line : string)
  : outcome (list Job.Job) :=
  match acc with
  | Returns jobs =>
      if GoStrings.Contains line ".extern" then Returns jobs
      else
        let fields := GoStrings.Split line "|" in
        if (length fields <? 12)%nat then Returns jobs
        else if String.eqb (nth 0 fields "") partition then
          match Slurm.parseJobInfo fields with
          | Returns (job, None) =>
              if String.eqb (Job.State job) JobRunning
              then Returns (jobs ++ [job])
              else Returns jobs
          | Returns (_, Some _) => Returns jobs
          | Panics => Panics
          | Unspecified => Unspecified
          end
        else Returns jobs
  | Panics => Panics
  | Unspecified => Unspecified
  end.

(** [SlurmScheduler.GetJobs]; [sacct] is the result of
    [sacct -a --format ... -p].  The first line is the header. *)
Definition GetJobs (sacct : CmdOutput) (partition : string)
  : outcome (list Job.Job * option error) :=
  match sacct with
  | (_, Some e) =>
      Returns ([], Some (String.append "failed to run sacct: " e))
  | (output, None) =>
      match fold_left (GetJobs_step partition) (tail output) (Returns [])
      with
      | Returns jobs => Returns (jobs, None)
      | Panics => Panics
      | Unspecified => Unspecified
      end
  end.

(** The body of the scanner loop of [SlurmScheduler.GetUserJobs]. *)
Definition GetUserJobs_step (acc : outcome (list Job.Job)) (line : string)
  : outcome (list Job.Job) :=
  match acc with
  | Returns jobs =>
      if GoStrings.Contains line ".extern" then Returns jobs
      else
        let fields := GoStrings.Split line "|" in
        if (12 <=? length fields)%nat then
          match Slurm.parseJobInfo fields with
          | Returns (job, None) => Returns (jobs ++ [job])
          | Returns (_, Some _) => Returns jobs
          | Panics => Panics
          | Unspecified => Unspecified
          end
        else Returns jobs
  | Panics => Panics
  | Unspecified => Unspecified
  end.

(** [SlurmScheduler.GetUserJobs]; [sacct user] is the result of
    [sacct -u user --format ... -p]. *)
Definition GetUserJobs (sacct : string → CmdOutput) (user : string)
  : outcome (list Job.Job * option error) :=
  match sacct user with
  | (_, Some e) =>
      Returns ([], Some (String.append "failed to run sacct for user "
                           (String.append user (String.append ": " e))))
  | (output, None) =>
      match fold_left GetUserJobs_step (tail output) (Returns []) with
      | Returns jobs => Returns (jobs, None)
      | Panics => Panics
      | Unspecified => Unspecified
      end
  end.

End SlurmJobs.

(** A record that the job listings parse: it is neither a step record
    ([.extern]) nor shorter than twelve columns. *)
Definition parsed_record (line : string) : Prop :=
  GoStrings.Contains line ".extern" = false ∧
  (12 <= length (GoStrings.Split line "|"))%nat.

(** A [sacct -p] report: the header, a running job of [batch], a step
    of it, a job of another partition and a pending job. *)
Definition sacct_report : CmdOutput :=
  ([ "Partition|NodeList|JobID|User|JobName|State|ReqNodes|ReqCPUS|ReqMem|Timelimit|Elapsed|CPUTime|";
     "batch|n1|101|bob|sim|RUNNING|1|8|4Gn|1-00:00:00|00:10:00|01:20:00|";
     "batch|n1|101.extern|bob|extern|RUNNING|1|8|4Gn||00:10:00|01:20:00|";
     "gpu_q|g1|102|ann|fit|RUNNING|1|4|8Gn|02:00:00|00:05:00|00:20:00|";
     "batch|None assigned|103|bob|wait|PENDING|1|8|4Gn|1-00:00:00|00:00:00|00:00:00|"
   ], None).

(** A record of [batch] whose state column is empty. *)
Definition sacct_no_state : string :=
  "batch|n1|104|bob|sim||1|8|4Gn|1-00:00:00|00:10:00|01:20:00|".

(** ** internal/scheduler: the Torque job listing *)

Module GoStrings2.

(** The text after its leading white-space runes.  [skip] counts the
    bytes of the rune being passed that are still to come. *)
Fixpoint trimLeft_from (skip : nat) (s : string) : string :=
  match s with
  | EmptyString => EmptyString
  | String c s' =>
      match skip with
      | S k => trimLeft_from k s'
      | O =>
          match GoStrings.spaceWidth s with
          | S w => trimLeft_from w s'
          | O => s
          end
      end
  end.

Definition trimLeft (s : string) : string := trimLeft_from 0 s.

(** [s] is a sequence of white-space runes. *)
Definition allSpace (s : string) : bool := String.eqb (trimLeft s) "".

(** The text before its trailing white-space runes: it ends where the
    rest is a sequence of white-space runes. *)
Fixpoint trimRight (s : string) : string :=
  match s with
  | EmptyString => EmptyString
  | String c s' =>
      if allSpace s then EmptyString else String c (trimRight s')
  end.

(** [strings.TrimSpace]. *)
Definition TrimSpace (s : string) : string := trimRight (trimLeft s).

(** [strings.Index]: the position of the first occurrence of [substr],
    or -1. *)
Fixpoint Index (s substr : string) : Z :=
  if String.prefix substr s then 0
  else match s with
       | EmptyString => -1
       | String _ s' =>
           let i := Index s' substr in if i <? 0 then -1 else i + 1
       end.

(** The slice [s[i:]] for [0 <= i <= len(s)]. *)
Fixpoint from (i : nat) (s : string) : string :=
  match i, s with
  | O, _ => s
  | S k, String _ s' => from k s'
  | S _, EmptyString => EmptyString
  end.

(** The slice [s[:i]] for [0 <= i <= len(s)]. *)
Fixpoint upto (i : nat) (s : string) : string :=
  match i, s with
  | O, _ => EmptyString
  | S k, String c s' => String c (upto k s')
  | S _, EmptyString => EmptyString
  end.

End GoStrings2.

Module TorqueJobs.

(** [line[strings.Index(line, sep)+1:]], trimmed; used where [line]
    contains [sep]. *)
Definition after (line sep : string) : string :=
  GoStrings2.TrimSpace
    (GoStrings2.from (Z.to_nat (GoStrings2.Index line sep + 1)) line).

(** The body of the loop over [lines] in [parseJobInfo]. *)
Definition parseJobInfo_step (job : Job.Job) (line : string) : Job.Job :=
  let line := GoStrings2.TrimSpace line in
  if GoStrings.Contains line "Job Id:" then
    Job.mk (after line ":") (Job.User job) (Job.Name job) (Job.State job)
      (Job.NodeList job) (Job.Partition job) (Job.ReqNodes job)
      (Job.ReqCPUs job) (Job.ReqMemMB job) (Job.TimeLimit job)
      (Job.Elapsed job) (Job.CPUTime job)
  else if GoStrings.Contains line "Job_Name =" then
    Job.mk (Job.ID job) (Job.User job) (after line "=") (Job.State job)
      (Job.NodeList job) (Job.Partition job) (Job.ReqNodes job)
      (Job.ReqCPUs job) (Job.ReqMemMB job) (Job.TimeLimit job)
      (Job.Elapsed job) (Job.CPUTime job)
  else if GoStrings.Contains line "Job_Owner =" then
    let owner := after line "=" in
    let atIndex := GoStrings2.Index owner "@" in
    if atIndex =? -1 then job
    else
      Job.mk (Job.ID job) (GoStrings2.upto (Z.to_nat atIndex) owner)
        (Job.Name job) (Job.State job)
        (Job.NodeList job) (Job.Partition job) (Job.ReqNodes job)
        (Job.ReqCPUs job) (Job.ReqMemMB job) (Job.TimeLimit job)
        (Job.Elapsed job) (Job.CPUTime job)
  else if GoStrings.Contains line "job_state =" then
    Job.mk (Job.ID job) (Job.User job) (Job.Name job) (after line "=")
      (Job.NodeList job) (Job.Partition job) (Job.ReqNodes job)
      (Job.ReqCPUs job) (Job.ReqMemMB job) (Job.TimeLimit job)
      (Job.Elapsed job) (Job.CPUTime job)
  else if GoStrings.Contains line "exec_host =" then
    let hostLine := after line "=" in
    let slashIndex := GoStrings2.Index hostLine "/" in
    if slashIndex =? -1 then job
    else
      Job.mk (Job.ID job) (Job.User job) (Job.Name job) (Job.State job)
        [GoStrings2.upto (Z.to_nat slashIndex) hostLine]
        (Job.Partition job) (Job.ReqNodes job)
        (Job.ReqCPUs job) (Job.ReqMemMB job) (Job.TimeLimit job)
        (Job.Elapsed job) (Job.CPUTime job)
  else job.

(** The line feed, the separator of [strings.Split(jobInfo, "\n")]. *)
Definition newline : string := String (ascii_of_nat 10) EmptyString.

(** [TorqueScheduler.parseJobInfo]: its error is always [nil]. *)
Definition parseJobInfo (jobInfo : string) : Job.Job * option error :=
  (fold_left parseJobInfo_step (GoStrings.Split jobInfo newline) Job.zero,
   None).

(** The block shared by the loop and the final job of [GetJobs]. *)
Definition GetJobs_flush (jobs : list Job.Job) (jobInfo : string)
  : list Job.Job :=
  if negb (String.eqb jobInfo "") then
    match parseJobInfo jobInfo with
    | (job, None) =>
        if String.eqb (Job.State job) JobRunning then jobs ++ [job]
        else jobs
    | (_, Some _) => jobs
    end
  else jobs.

(** One iteration of the scanner loop of [GetJobs] on the pair
    [(jobs, jobInfo)]. *)
Definition GetJobs_step (st : list Job.Job * string) (line : string)
  : list Job.Job * string :=
  let '(jobs, jobInfo) := st in
  if GoStrings.Contains line "Job Id:"
  then (GetJobs_flush jobs jobInfo, line)
  else (jobs, String.append jobInfo line).

(** [TorqueScheduler.GetJobs]; [qstat] is the result of
    [qstat -f partition]. *)
Definition GetJobs (qstat : CmdOutput) : list Job.Job * option error :=
  match qstat with
  | (_, Some e) => ([], Some (String.append "failed to run qstat: " e))
  | (output, None) =>
      let '(jobs, jobInfo) := fold_left GetJobs_step output ([], "") in
      (GetJobs_flush jobs jobInfo, None)
  end.

(** [TorqueScheduler.GetPartitions]. *)
Definition GetPartitions : list string * option error :=
  (["batch"; "highmem_q"; "gpu_q"; "s_interq"], None).

End TorqueJobs.

(** The start of a [qstat -f] report of one running job. *)
Definition qstat_f_report : CmdOutput :=
  ([ "Job Id: 4711.server";
     "    Job_Name = sim";
     "    Job_Owner = bob@login1";
     "    job_state = R";
     "    queue = batch";
     "    exec_host = n1/0+n1/1" ], None).

(** A byte that occurs in the encoding of a white-space rune: ASCII
    white space, or a byte from 128 up. *)
Definition spaceByte (c : ascii) : bool :=
  GoStrings.isSpace c || (128 <=? nat_of_ascii c)%nat.

(** [s] is not empty and its last byte is in no white-space rune. *)
Fixpoint ends_nonspace (s : string) : Prop :=
  match s with
  | EmptyString => False
  | String c EmptyString => spaceByte c = false
  | String _ s' => ends_nonspace s'
  end.

(** [s] is not empty and its first byte is in no white-space rune. *)
Definition starts_nonspace (s : string) : Prop :=
  match s with
  | EmptyString => False
  | String c _ => spaceByte c = false
  end.

(** The first [n] bytes of [s] exist and occur in white-space runes. *)
Fixpoint headSpace (n : nat) (s : string) : Prop :=
  match n with
  | O => True
  | S k =>
      match s with
      | EmptyString => False
      | String c s' => spaceByte c = true ∧ headSpace k s'
      end
  end.

(** ** internal/scheduler: the mock scheduler

    The generator [math/rand] is an oracle: [rnd k] is the raw value of
    the [k]-th draw of a call and [rand.Intn(n)] reduces it to the range
    [0 <= r < n].  Every value of the range can occur, and nothing is
    assumed about the oracle.  Each method seeds the generator anew, so
    each call starts at draw 0. *)

Module Mock.

(** [fmt.Sprintf("%d", z)]. *)
Definition Sprintf_d (z : Z) : string := NilZero.string_of_int (Z.to_int z).

(** [fmt.Sprintf("%03d", z)] for [0 <= z]. *)
Definition Sprintf_03d (z : Z) : string :=
  let s := Sprintf_d z in
  String.append (GoStrings.Repeat "0" (3 - String.length s)) s.

Definition states : list NodeState :=
  [StateIdle; StateRunning; StateRunning; StateDown; StateBusy].

Definition users : list string :=
  ["alice"; "bob"; "carol"; "dave"; "eve"; "frank"; "grace"; "henry"].

Section Generator.
Variable rnd : nat → Z.

(** [rand.Intn(n)] at draw [k], for [0 < n]: the value and the next
    draw. *)
Definition Intn (n : Z) (k : nat) : Z * nat := (rnd k mod n, S k).

(** The switch that sets [TotalCores] and [TotalMemMB]. *)
Definition specs (partition : string) (k : nat) : Z * Z * nat :=
  if String.eqb partition "batch" then
    let '(c, k) := Intn 32 k in
    let '(m, k) := Intn 256 k in
    (GoInt.add 32 c, GoInt.mul (GoInt.add 128 m) 1000, k)
  else if String.eqb partition "highmem_q" then
    let '(c, k) := Intn 16 k in
    let '(m, k) := Intn 1024 k in
    (GoInt.add 48 c, GoInt.mul (GoInt.add 512 m) 1000, k)
  else if String.eqb partition "gpu_q" then
    let '(c, k) := Intn 20 k in
    let '(m, k) := Intn 256 k in
    (GoInt.add 40 c, GoInt.mul (GoInt.add 256 m) 1000, k)
  else (0, 0, k).

(** The resource usage by state: used cores and used memory. *)
Definition usage (state : NodeState) (totalCores totalMemMB : Z) (k : nat)
  : Z * Z * nat :=
  if String.eqb state StateIdle then
    let '(u, k) := Intn (GoInt.quot totalMemMB 10) k in (0, u, k)
  else if String.eqb state StateRunning then
    let '(c, k) := Intn totalCores k in
    let '(u, k) := Intn totalMemMB k in (c, u, k)
  else if String.eqb state StateBusy then
    let '(r, k) := Intn (GoInt.quot totalMemMB 4) k in
    (totalCores, GoInt.sub totalMemMB r, k)
  else (0, 0, k).

(** The loop that appends [count] job identifiers. *)
Fixpoint jobIDs (count : nat) (k : nat) : list string * nat :=
  match count with
  | O => ([], k)
  | S c =>
      let '(r, k) := Intn 999999 k in
      let '(l, k) := jobIDs c k in
      (Sprintf_d (GoInt.add 100000 r) :: l, k)
  end.

(** One iteration of the loop of [GetNodes]: node number [i]. *)
Definition node (partition nodePrefix : string) (i : Z) (k : nat)
  : Node * nat :=
  let id := String.append nodePrefix (Sprintf_03d (GoInt.add i 1)) in
  let '(totalCores, totalMemMB, k) := specs partition k in
  let '(s, k) := Intn 5 k in
  let state := nth (Z.to_nat s) states "" in
  let '(usedCores, usedMemMB, k) := usage state totalCores totalMemMB k in
  let '(jobs, k) :=
    if String.eqb state StateRunning && (0 <? usedCores) then
      let '(j, k) := Intn 3 k in
      jobIDs (Z.to_nat (GoInt.add 1 j)) k
    else ([], k) in
  (mkNode id state totalCores usedCores totalMemMB usedMemMB [partition] jobs,
   k).

(** The loop [for i := 0; i < nodeCount; i++], with [count] iterations
    left. *)
Fixpoint nodes_from (partition nodePrefix : string) (count : nat) (i : Z)
    (k : nat) : list Node :=
  match count with
  | O => []
  | S c =>
      let '(n, k) := node partition nodePrefix i k in
      n :: nodes_from partition nodePrefix c (GoInt.add i 1) k
  end.

(** [MockScheduler.GetNodes]. *)
Definition GetNodes (partition : string) : list Node * option error :=
  if String.eqb partition "batch"
  then (nodes_from partition "batch" 25 0 0, None)
  else if String.eqb partition "highmem_q"
  then (nodes_from partition "highmem" 8 0 0, None)
  else if String.eqb partition "gpu_q"
  then (nodes_from partition "gpu" 6 0 0, None)
  else ([], Some (String.append "unknown partition: " partition)).

(** One iteration of the loop of [GetJobs]: job number [i]. *)
Definition job (partition : string) (i : Z) (k : nat) : Job.Job * nat :=
  let '(id, k) := Intn 999999 k in
  let '(u, k) := Intn 8 k in
  let '(rn, k) := Intn 4 k in
  let '(rc, k) := Intn 32 k in
  let '(rm, k) := Intn 128 k in
  let '(el, k) := Intn 86400 k in
  let '(nodeNum, k) := Intn 20 k in
  (Job.mk (Sprintf_d (GoInt.add 100000 id)) (nth (Z.to_nat u) users "")
     (String.append "job_" (Sprintf_d (GoInt.add i 1))) JobRunning
     [String.append partition (Sprintf_03d (GoInt.add nodeNum 1))]
     partition (GoInt.add 1 rn) (GoInt.add 8 rc)
     (GoInt.mul (GoInt.add 16 rm) 1000) 0 (GoInt.mul el 1000000000) 0,
   k).

Fixpoint jobs_from (partition : string) (count : nat) (i : Z) (k : nat)
  : list Job.Job :=
  match count with
  | O => []
  | S c =>
      let '(j, k) := job partition i k in
      j :: jobs_from partition c (GoInt.add i 1) k
  end.

(** [MockScheduler.GetJobs]. *)
Definition GetJobs (partition : string) : list Job.Job * option error :=
  let '(c, k) := Intn 20 0 in
  (jobs_from partition (Z.to_nat (GoInt.add 10 c)) 0 k, None).

(** One iteration of the loop of [GetUserJobs]. *)
Definition userJob (user : string) (i : Z) (k : nat) : Job.Job * nat :=
  let '(id, k) := Intn 999999 k in
  let '(rc, k) := Intn 16 k in
  let '(rm, k) := Intn 64 k in
  let '(el, k) := Intn 43200 k in
  let '(nodeNum, k) := Intn 10 k in
  (Job.mk (Sprintf_d (GoInt.add 200000 id)) user
     (String.append "my_job_" (Sprintf_d (GoInt.add i 1))) JobRunning
     [String.append "batch" (Sprintf_03d (GoInt.add nodeNum 1))]
     "batch" 1 (GoInt.add 4 rc)
     (GoInt.mul (GoInt.add 8 rm) 1000) 0 (GoInt.mul el 1000000000) 0,
   k).

Fixpoint userJobs_from (user : string) (count : nat) (i : Z) (k : nat)
  : list Job.Job :=
  match count with
  | O => []
  | S c =>
      let '(j, k) := userJob user i k in
      j :: userJobs_from user c (GoInt.add i 1) k
  end.

(** [MockScheduler.GetUserJobs]. *)
Definition GetUserJobs (user : string) : list Job.Job * option error :=
  let '(c, k) := Intn 4 0 in
  (userJobs_from user (Z.to_nat c) 0 k, None).

(** [MockScheduler.GetPartitions]. *)
Definition GetPartitions : list string * option error :=
  (["batch"; "highmem_q"; "gpu_q"; "debug_q"], None).

End Generator.
End Mock.

(** A sample oracle for the examples. *)
Definition sample_rnd (k : nat) : Z := Z.of_nat k * 7919 + 13.

(** The number of nodes the mock scheduler makes for a partition. *)
Definition mock_count (partition : string) : nat :=
  if String.eqb partition "batch" then 25
  else if String.eqb partition "highmem_q" then 8
  else if String.eqb partition "gpu_q" then 6
  else 0.

(** What holds of every node of the mock scheduler. *)
Definition mock_node_ok (partition : string) (n : Node) : Prop :=
  Partitions n = [partition] ∧ Node_wf n ∧
  32 <= TotalCores n <= 63 ∧ 128000 <= TotalMemMB n <= 1535000 ∧
  0 <= UsedCores n <= TotalCores n ∧ 0 <= UsedMemMB n <= TotalMemMB n ∧
  State n ∈ [StateIdle; StateRunning; StateDown; StateBusy] ∧
  (State n = StateIdle → IsAvailable n = true) ∧
  (State n = StateBusy ∨ State n = StateDown → IsAvailable n = false).

(** The identifiers [prefix001], [prefix002], ... of [count] nodes. *)
Definition mock_ids (nodePrefix : string) (count : nat) : list string :=
  (λ n, String.append nodePrefix (Mock.Sprintf_03d (Z.of_nat n + 1)))
    <$> seq 0 count.

(** The mock scheduler behind the [Scheduler] interface, with one oracle
    per method. *)
Definition MockScheduler (rn rj ru : nat → Z) : Scheduler :=
  {| GetNodes := Mock.GetNodes rn;
     GetJobs := Mock.GetJobs rj;
     GetUserJobs := Mock.GetUserJobs ru |}.

(** The answers the mock scheduler can give. *)
Definition mock_backend (s : Scheduler) : Prop :=
  ∃ rn rj ru, s = MockScheduler rn rj ru.

(** The mock scheduler with the sample oracle. *)
Definition mock_example : Scheduler :=
  MockScheduler sample_rnd sample_rnd sample_rnd.

(** The message of a fetch from [mock_example] for partition [batch] and
    user [unknown], with the nodes ranked by straight insertion. *)
Definition mock_fetched_msg : Msg :=
  let sorted :=
    insertion_sort less (fst (Mock.GetNodes sample_rnd "batch")) in
  dataMsg sorted (fst (Mock.GetJobs sample_rnd "batch"))
          (fst (Mock.GetUserJobs sample_rnd "unknown"))
          (calculateStats sorted).

(** The partition a hot key selects. *)
Definition key_partition (k : Key) : option string :=
  match k with
  | KeyBatch => Some "batch"
  | KeyHighMem => Some "highmem_q"
  | KeyGPU => Some "gpu_q"
  | _ => None
  end.

(** The keys of a node record that [parseNodeInfo] reads. *)
Definition slurm_keys : list string :=
  ["NodeName"; "State"; "CPUAlloc"; "CPUTot"; "AllocMem"; "RealMemory";
   "Partitions"].

(** ** Records of a SLURM node report *)

(** A record: the line that carries [NodeName=] and the lines that
    follow it up to the next such line. *)
Definition record : Type := (string * list string)%type.

Definition record_lines (r : record) : list string := fst r :: snd r.

Definition record_ok (r : record) : Prop :=
  GoStrings.Contains (fst r) "NodeName=" = true ∧
  Forall (λ l, GoStrings.Contains l "NodeName=" = false) (snd r).

(** The text handed to [parseNodeInfo] for a record: its lines, each
    followed by a space. *)
Definition record_text (r : record) : string :=
  fold_left (λ acc l, String.append acc (String.append l " ")) (snd r)
            (String.append (fst r) " ").

(** A report of two records for the examples; the second record runs
    over two lines. *)
Definition two_records : list record :=
  [ ("NodeName=n1 CPUAlloc=2 CPUTot=8 State=IDLE Partitions=batch", []);
    ("NodeName=n2 CPUAlloc=8 CPUTot=8",
     ["   RealMemory=64000 AllocMem=32000";
      "   State=ALLOCATED Partitions=batch,gpu_q"]) ].

(** ** Lines of words separated by runs of spaces *)

(** The word [w] followed by runs of spaces and further words. *)
Fixpoint spaced (w : string) (rest : list (nat * string)) : string :=
  match rest with
  | [] => w
  | (n, w') :: rest' =>
      String.append w
        (String.append (GoStrings.Repeat " " n) (spaced w' rest'))
  end.

(** Every run has between 1 and [m] spaces, and the words after the
    first are not empty and contain no space. *)
Definition runs_ok (m : nat) (rest : list (nat * string)) : Prop :=
  Forall (λ r, (1 <= fst r <= m)%nat ∧ lacks " " (snd r) ∧ snd r ≠ "") rest.

(** The same words with single spaces between them. *)
Definition single_spaced (rest : list (nat * string))
  : list (nat * string) :=
  (λ r, (1%nat, snd r)) <$> rest.

(** ** The Torque adapter behind the interface *)

(** [TorqueScheduler] with the results of the commands it runs:
    [mdiag -n -v], [qstat -f partition] and [qstat -u user]. *)
Definition TorqueScheduler (mdiag : CmdOutput)
    (qstat_f qstat_u : string → CmdOutput) : Scheduler :=
  {| GetNodes := Torque.GetNodes mdiag;
     GetJobs partition := TorqueJobs.GetJobs (qstat_f partition);
     GetUserJobs := Torque.GetUserJobs qstat_u |}.

(** A report of [qstat -f] as the scanner yields it: no line holds a line
    feed, and a report that is not empty starts with a [Job Id:] line. *)
Definition qstat_f_ok (out : CmdOutput) : Prop :=
  match fst out with
  | [] => True
  | first :: rest =>
      Forall (lacks (ascii_of_nat 10)) (first :: rest) ∧
      GoStrings.Contains first "Job Id:" = true
  end.

(** The answers the Torque adapter can give. *)
Definition torque_backend (s : Scheduler) : Prop :=
  ∃ mdiag qstat_f qstat_u,
    (∀ partition, qstat_f_ok (qstat_f partition)) ∧
    s = TorqueScheduler mdiag qstat_f qstat_u.

(** A Torque installation with one node and one running job of [ann]. *)
Definition torque_example : Scheduler :=
  TorqueScheduler ([mdiag_line1], None) (λ _, qstat_f_report) qstat_two_jobs.

(** ** Inputs of further examples *)

(** The columns of a [sacct -p] line of a requeued job. *)
Definition requeued_fields : list string :=
  ["batch"; "n1"; "105"; "bob"; "sim"; "REQUEUED"; "1"; "8"; "4Gn";
   "1-00:00:00"; "00:10:00"; "01:20:00"].

(** The job [parseJobInfo] makes of them. *)
Definition requeued_job : Job.Job :=
  Job.mk "105" "bob" "sim" "R" ["n1"] "batch" 1 8 4000
         86400000000000 600000000000 4800000000000.

(** The node the Torque adapter makes of [mdiag_line1]. *)
Definition torque_node : Node :=
  mkNode "n1" StateIdle 8 2 4000 2000 [] [].

(** ** [sort.Slice]

    The results on the ranking rest on the contract of [sort.Slice]
    ([sort_Slice] above), which every release of Go meets.  What the
    call does to a slice that is already in order is not part of the
    contract; it follows from the algorithm.  Since Go 1.19 (the build
    script asks for 1.20 or later) [sort.Slice]
    runs the pattern-defeating quicksort [pdqsort_func] of the package
    [sort] with the limit [bits.Len(length)]; that code is embedded
    here.  The slice is a list, [Less] and [Swap] work by index, and a
    loop is a recursive function with a bound on its iterations.
    Indices are natural numbers: wherever the code subtracts, the left
    operand is never the smaller one.  The pseudo-random generator with which
    [breakPatterns] picks its positions differs between releases and is
    a parameter. *)

Module GoSort.

Section Slice.
Local Open Scope nat_scope.

Context {A : Type}.
Variable less : A → A → bool.

(** [xorshift.Next]: from the state of the generator to its next state,
    which is also the number returned. *)
Variable next : Z → Z.

(** [data.Less(i, j)] and [data.Swap(i, j)].  The algorithm keeps every
    index within the slice. *)
Definition Less (data : list A) (i j : nat) : bool :=
  match data !! i, data !! j with
  | Some x, Some y => less x y
  | _, _ => false
  end.

Definition Swap (data : list A) (i j : nat) : list A :=
  match data !! i, data !! j with
  | Some x, Some y => <[j := x]> (<[i := y]> data)
  | _, _ => data
  end.

(** [bits.Len]. *)
Definition bits_Len (n : nat) : nat :=
  match n with O => O | _ => S (Nat.log2 n) end.

(** The inner loop of [insertionSort_func]:
    [for j := i; j > a && data.Less(j, j-1); j--]. *)
Fixpoint insertionSort_inner (a j : nat) (data : list A) : list A :=
  match j with
  | O => data
  | S j' =>
      if (a <? j) && Less data j j'
      then insertionSort_inner a j' (Swap data j j')
      else data
  end.

(** [insertionSort_func]: [for i := a + 1; i < b; i++]. *)
Definition insertionSort (data : list A) (a b : nat) : list A :=
  fold_left (λ data i, insertionSort_inner a i data)
            (seq (a + 1) (b - (a + 1))) data.

(** [siftDown_func]; the root moves down at every turn of the loop. *)
Fixpoint siftDown_loop (fuel : nat) (data : list A) (root hi first : nat)
  : list A :=
  match fuel with
  | O => data
  | S fuel =>
      let child := 2 * root + 1 in
      if hi <=? child then data
      else
        let child :=
          if (child + 1 <? hi)
             && Less data (first + child) (first + child + 1)
          then child + 1 else child in
        if negb (Less data (first + root) (first + child)) then data
        else siftDown_loop fuel (Swap data (first + root) (first + child))
                           child hi first
  end.

Definition siftDown (data : list A) (lo hi first : nat) : list A :=
  siftDown_loop (S hi) data lo hi first.

(** [heapSort_func]: [for i := (hi - 1) / 2; i >= 0; i--], then
    [for i := hi - 1; i >= 0; i--]. *)
Definition heapSort (data : list A) (a b : nat) : list A :=
  let first := a in
  let lo := 0 in
  let hi := b - a in
  let data :=
    fold_left (λ data i, siftDown data i hi first)
              (rev (seq 0 ((hi - 1) / 2 + 1))) data in
  fold_left (λ data i, siftDown (Swap data first (first + i)) lo i first)
            (rev (seq 0 hi)) data.

(** The loops of [partialInsertionSort_func]:
    [for i < b && !data.Less(i, i-1) { i++ }]. *)
Fixpoint skip_ordered (fuel : nat) (data : list A) (b i : nat) : nat :=
  match fuel with
  | O => i
  | S fuel =>
      if (i <? b) && negb (Less data i (i - 1))
      then skip_ordered fuel data b (i + 1)
      else i
  end.

(** [for j := i - 1; j >= 1; j--]: the smaller element moves left. *)
Fixpoint shift_left (j : nat) (data : list A) : list A :=
  match j with
  | O => data
  | S j' =>
      if negb (Less data j j') then data
      else shift_left j' (Swap data j j')
  end.

(** [for j := i + 1; j < b; j++]: the greater element moves right. *)
Fixpoint shift_right (fuel : nat) (data : list A) (b j : nat) : list A :=
  match fuel with
  | O => data
  | S fuel =>
      if j <? b then
        if negb (Less data j (j - 1)) then data
        else shift_right fuel (Swap data j (j - 1)) b (j + 1)
      else data
  end.

(** The outer loop of [partialInsertionSort_func]; [steps] counts down
    from [maxSteps]. *)
Fixpoint partialInsertionSort_loop (steps : nat) (data : list A)
    (a b i : nat) : list A * bool :=
  match steps with
  | O => (data, false)
  | S steps =>
      let i := skip_ordered b data b i in
      if i =? b then (data, true)
      else if b - a <? 50 then (data, false)
      else
        let data := Swap data i (i - 1) in
        let data := if 2 <=? i - a then shift_left (i - 1) data else data in
        let data :=
          if 2 <=? b - i then shift_right b data b (i + 1) else data in
        partialInsertionSort_loop steps data a b i
  end.

Definition partialInsertionSort (data : list A) (a b : nat)
  : list A * bool :=
  partialInsertionSort_loop 5 data a b (a + 1).

(** [breakPatterns_func]. *)
Definition breakPatterns (data : list A) (a b : nat) : list A :=
  let length := b - a in
  if 8 <=? length then
    let modulus := (2 ^ Z.of_nat (bits_Len length))%Z in
    let idx := a + (length / 4) * 2 - 1 in
    fst (fold_left
           (λ '(data, random) i,
              let random := next random in
              let other := Z.to_nat (Z.land random (modulus - 1)) in
              let other :=
                if length <=? other then other - length else other in
              (Swap data (idx - 1 + i) (a + other), random))
           [0; 1; 2] (data, Z.of_nat length))
  else data.

Inductive sortedHint : Type :=
  | unknownHint
  | increasingHint
  | decreasingHint.

(** [order2_func], [median_func] and [medianAdjacent_func], with the
    counter [*swaps] passed along. *)
Definition order2 (data : list A) (a b swaps : nat) : nat * nat * nat :=
  if Less data b a then (b, a, swaps + 1) else (a, b, swaps).

Definition median (data : list A) (a b c swaps : nat) : nat * nat :=
  let '(a, b, swaps) := order2 data a b swaps in
  let '(b, c, swaps) := order2 data b c swaps in
  let '(a, b, swaps) := order2 data a b swaps in
  (b, swaps).

Definition medianAdjacent (data : list A) (a swaps : nat) : nat * nat :=
  median data (a - 1) a (a + 1) swaps.

(** [choosePivot_func]. *)
Definition choosePivot (data : list A) (a b : nat) : nat * sortedHint :=
  let l := b - a in
  let swaps := 0 in
  let i := a + l / 4 * 1 in
  let j := a + l / 4 * 2 in
  let k := a + l / 4 * 3 in
  let '(j, swaps) :=
    if 8 <=? l then
      let '(i, j, k, swaps) :=
        if 50 <=? l then
          let '(i, swaps) := medianAdjacent data i swaps in
          let '(j, swaps) := medianAdjacent data j swaps in
          let '(k, swaps) := medianAdjacent data k swaps in
          (i, j, k, swaps)
        else (i, j, k, swaps) in
      median data i j k swaps
    else (j, swaps) in
  if swaps =? 0 then (j, increasingHint)
  else if swaps =? 12 then (j, decreasingHint)
  else (j, unknownHint).

(** [reverseRange_func]. *)
Fixpoint reverseRange_loop (fuel : nat) (data : list A) (i j : nat)
  : list A :=
  match fuel with
  | O => data
  | S fuel =>
      if i <? j then reverseRange_loop fuel (Swap data i j) (i + 1) (j - 1)
      else data
  end.

Definition reverseRange (data : list A) (a b : nat) : list A :=
  reverseRange_loop (b - a) data a (b - 1).

(** The scans of the partitions: [for i <= j && p(i) { i++ }] and
    [for i <= j && p(j) { j-- }]. *)
Fixpoint scan_up (fuel : nat) (p : nat → bool) (i j : nat) : nat :=
  match fuel with
  | O => i
  | S fuel => if (i <=? j) && p i then scan_up fuel p (i + 1) j else i
  end.

Fixpoint scan_down (fuel : nat) (p : nat → bool) (i j : nat) : nat :=
  match fuel with
  | O => j
  | S fuel => if (i <=? j) && p j then scan_down fuel p i (j - 1) else j
  end.

(** [partitionEqual_func], after the pivot has moved to [a]. *)
Fixpoint partitionEqual_loop (fuel : nat) (data : list A) (a b i j : nat)
  : nat :=
  match fuel with
  | O => i
  | S fuel =>
      let i := scan_up b (λ i, negb (Less data a i)) i j in
      let j := scan_down b (λ j, Less data a j) i j in
      if j <? i then i
      else partitionEqual_loop fuel (Swap data i j) a b (i + 1) (j - 1)
  end.

Fixpoint partitionEqual_data (fuel : nat) (data : list A) (a b i j : nat)
  : list A :=
  match fuel with
  | O => data
  | S fuel =>
      let i := scan_up b (λ i, negb (Less data a i)) i j in
      let j := scan_down b (λ j, Less data a j) i j in
      if j <? i then data
      else partitionEqual_data fuel (Swap data i j) a b (i + 1) (j - 1)
  end.

Definition partitionEqual (data : list A) (a b pivot : nat)
  : list A * nat :=
  let data := Swap data a pivot in
  (partitionEqual_data b data a b (a + 1) (b - 1),
   partitionEqual_loop b data a b (a + 1) (b - 1)).

(** The [for] loop of [partition_func]. *)
Fixpoint partition_loop (fuel : nat) (data : list A) (a b i j : nat)
  : list A * nat :=
  match fuel with
  | O => (data, j)
  | S fuel =>
      let i := scan_up b (λ i, Less data i a) i j in
      let j := scan_down b (λ j, negb (Less data j a)) i j in
      if j <? i then (data, j)
      else partition_loop fuel (Swap data i j) a b (i + 1) (j - 1)
  end.

(** [partition_func]: the slice, the place of the pivot, and whether the
    slice was partitioned already. *)
Definition partition (data : list A) (a b pivot : nat)
  : list A * nat * bool :=
  let data := Swap data a pivot in
  let i := scan_up b (λ i, Less data i a) (a + 1) (b - 1) in
  let j := scan_down b (λ j, negb (Less data j a)) i (b - 1) in
  if j <? i then (Swap data j a, j, true)
  else
    let data := Swap data i j in
    let '(data, j) := partition_loop b data a b (i + 1) (j - 1) in
    (Swap data j a, j, false).

(** [pdqsort_func].  Every turn of its loop and every call of itself
    works on a shorter range; [fuel] bounds their number, and [None]
    says that it did not suffice. *)
Fixpoint pdqsort (fuel : nat) (data : list A) (a b limit : nat)
    (wasBalanced wasPartitioned : bool) : option (list A) :=
  match fuel with
  | O => None
  | S fuel =>
      let length := b - a in
      if length <=? 12 then Some (insertionSort data a b)
      else if limit =? 0 then Some (heapSort data a b)
      else
        let '(data, limit) :=
          if negb wasBalanced
          then (breakPatterns data a b, limit - 1)
          else (data, limit) in
        let '(pivot, hint) := choosePivot data a b in
        let '(data, pivot, hint) :=
          match hint with
          | decreasingHint =>
              (reverseRange data a b, (b - 1) - (pivot - a), increasingHint)
          | _ => (data, pivot, hint)
          end in
        let '(data, sorted) :=
          match hint with
          | increasingHint =>
              if wasBalanced && wasPartitioned
              then partialInsertionSort data a b
              else (data, false)
          | _ => (data, false)
          end in
        if sorted then Some data
        else if (0 <? a) && negb (Less data (a - 1) pivot) then
          let '(data, mid) := partitionEqual data a b pivot in
          pdqsort fuel data mid b limit wasBalanced wasPartitioned
        else
          let '(data, mid, alreadyPartitioned) :=
            partition data a b pivot in
          let wasPartitioned := alreadyPartitioned in
          let leftLen := mid - a in
          let rightLen := b - mid in
          let balanceThreshold := length / 8 in
          if leftLen <? rightLen then
            let wasBalanced := balanceThreshold <=? leftLen in
            match pdqsort fuel data a mid limit true true with
            | Some data =>
                pdqsort fuel data (mid + 1) b limit
                        wasBalanced wasPartitioned
            | None => None
            end
          else
            let wasBalanced := balanceThreshold <=? rightLen in
            match pdqsort fuel data (mid + 1) b limit true true with
            | Some data =>
                pdqsort fuel data a mid limit wasBalanced wasPartitioned
            | None => None
            end
  end.

(** [sort.Slice(x, less)]. *)
Definition Slice (x : list A) : option (list A) :=
  let length := List.length x in
  pdqsort (S length) x 0 length (bits_Len length) true true.

End Slice.

End GoSort.

(** No element of [data] is ordered before an earlier one: what
    [sort.Slice] leaves behind, and what [sort.SliceIsSorted] tests for
    a comparison under which ties are transitive. *)
Definition in_order {A} (less : A → A → bool) (data : list A) : Prop :=
  ∀ i j x y, (i < j)%nat →
    data !! i = Some x → data !! j = Some y → less y x = false.

(** * Properties *)

(** ** Machine integers *)

Lemma wrap_in_range z : GoInt.in_range (GoInt.wrap z).
Proof.
  unfold GoInt.in_range, GoInt.wrap, GoInt.minInt, GoInt.maxInt.
  pose proof (Z.mod_pos_bound (z + 2 ^ 63) (2 ^ 64)). lia.
Qed.

Lemma wrap_id z : GoInt.in_range z → GoInt.wrap z = z.
Proof.
  unfold GoInt.in_range, GoInt.wrap, GoInt.minInt, GoInt.maxInt. intros Hz.
  rewrite Z.mod_small by lia. lia.
Qed.

Lemma sub_exact a b : GoInt.in_range (a - b) → GoInt.sub a b = a - b.
Proof. apply wrap_id. Qed.

Lemma add_exact a b : GoInt.in_range (a + b) → GoInt.add a b = a + b.
Proof. apply wrap_id. Qed.

Lemma mul_exact a b : GoInt.in_range (a * b) → GoInt.mul a b = a * b.
Proof. apply wrap_id. Qed.

(** ** The availability predicate *)

Lemma IsAvailable_true n :
  IsAvailable n = true ↔
  (State n = StateIdle ∨ State n = StateRunning) ∧
  0 < GetAvailCores n ∧ 0 < GetAvailMemGB n.
Proof.
  unfold IsAvailable.
  rewrite !andb_true_iff, orb_true_iff, !String.eqb_eq, !Z.ltb_lt.
  tauto.
Qed.

Lemma idle_no_cores_parsed :
  Torque.parseNodeInfo "n1 free 5:x 2000000:4000000 [batch]"
  = (idle_no_cores, None).
Proof. vm_compute. reflexivity. Qed.

(** C1, the claim as stated fails: an Idle node with zero total cores
    is available when its used-core count is negative. *)
Lemma IsAvailable_idle_zero_cores_counterexample :
  Node_wf idle_no_cores ∧ State idle_no_cores = StateIdle ∧
  TotalCores idle_no_cores = 0 ∧ IsAvailable idle_no_cores = true.
Proof. vm_compute. intuition congruence. Qed.

(** C1, amended: [IsAvailable] holds exactly when the state is Idle or
    Running, the available cores (total minus used, in machine
    arithmetic) are positive and the available memory in whole GB,
    [GetAvailMemGB], is positive.  A Down node is never available, and an
    Idle node with zero total cores is never available provided its
    used-core count is not negative. *)
Theorem IsAvailable_spec (n : Node) :
  (IsAvailable n = true ↔
     (State n = StateIdle ∨ State n = StateRunning) ∧
     0 < GetAvailCores n ∧ 0 < GetAvailMemGB n) ∧
  (State n = StateDown → IsAvailable n = false) ∧
  (State n = StateIdle → TotalCores n = 0 →
   0 <= UsedCores n <= GoInt.maxInt → IsAvailable n = false).
Proof.
  split; [apply IsAvailable_true|]. split.
  - intros Hdown. apply not_true_is_false. rewrite IsAvailable_true.
    rewrite Hdown. unfold StateDown, StateIdle, StateRunning.
    intros [[?|?] _]; discriminate.
  - intros _ Htot Hused. apply not_true_is_false. rewrite IsAvailable_true.
    intros (_ & Hcores & _). revert Hcores.
    unfold GetAvailCores. rewrite Htot, sub_exact.
    + lia.
    + unfold GoInt.in_range, GoInt.minInt, GoInt.maxInt in *. lia.
Qed.

Lemma IsAvailable_spec_witness :
  IsAvailable (mkNode "d" StateDown 8 0 64000 0 [] []) = false ∧
  IsAvailable (mkNode "i" StateIdle 0 0 64000 0 [] []) = false.
Proof.
  split.
  - apply (proj1 (proj2
      (IsAvailable_spec (mkNode "d" StateDown 8 0 64000 0 [] [])))).
    reflexivity.
  - apply (proj2 (proj2
      (IsAvailable_spec (mkNode "i" StateIdle 0 0 64000 0 [] []))));
      [reflexivity | reflexivity | vm_compute; split; discriminate].
Defined.

(** ** Cluster statistics *)

(** C3: in the result of [calculateStats] the available cores are the
    total cores minus the used cores and the available memory is the total
    memory minus the used memory, both computed from the sums (Go's
    subtraction on [int]); whenever the difference fits an [int] it is the
    mathematical difference. *)
Theorem calculateStats_avail (nodes : list Node) :
  let s := calculateStats nodes in
  Stats.AvailCores s = GoInt.sub (Stats.TotalCores s) (Stats.UsedCores s) ∧
  Stats.AvailMemoryGB s
    = GoInt.sub (Stats.TotalMemoryGB s) (Stats.UsedMemoryGB s) ∧
  (GoInt.in_range (Stats.TotalCores s - Stats.UsedCores s) →
   Stats.AvailCores s = Stats.TotalCores s - Stats.UsedCores s) ∧
  (GoInt.in_range (Stats.TotalMemoryGB s - Stats.UsedMemoryGB s) →
   Stats.AvailMemoryGB s = Stats.TotalMemoryGB s - Stats.UsedMemoryGB s).
Proof.
  cbv zeta. unfold calculateStats. cbn [Stats.AvailCores Stats.TotalCores
    Stats.UsedCores Stats.AvailMemoryGB Stats.TotalMemoryGB
    Stats.UsedMemoryGB].
  repeat split; auto using sub_exact.
Qed.

Lemma calculateStats_avail_witness :
  Stats.AvailCores (calculateStats scenario_nodes) = 20 - 2.
Proof.
  apply (proj1 (proj2 (proj2 (calculateStats_avail scenario_nodes)))).
  vm_compute.
  split; discriminate.
Defined.

(** C4, the claim as stated fails: with 100 MB of memory per node no node
    has a whole GB free, and the available-node count is 0, not 2. *)
Lemma calculateStats_scenario_counterexample :
  Stats.AvailNodes (calculateStats scenario_nodes) ≠ 2.
Proof. vm_compute. discriminate. Qed.

(** C4, amended: on the two-node scenario [calculateStats] yields 2
    nodes in total, 20 cores in total, 2 used and 18 available; the
    count of available nodes is 0 when the memory figures 100/0 and
    100/10 are megabytes, and 2 when they are 100 GB and 10 GB. *)
Theorem calculateStats_scenario :
  let s := calculateStats scenario_nodes in
  let g := calculateStats scenario_nodes_GB in
  Stats.TotalNodes s = 2 ∧ Stats.AvailNodes s = 0 ∧
  Stats.TotalCores s = 20 ∧ Stats.UsedCores s = 2 ∧
  Stats.AvailCores s = 18 ∧
  Stats.TotalNodes g = 2 ∧ Stats.AvailNodes g = 2 ∧
  Stats.TotalCores g = 20 ∧ Stats.UsedCores g = 2 ∧
  Stats.AvailCores g = 18.
Proof. vm_compute. repeat split. Qed.

(** ** The ordering of fetchData *)

Lemma stateOrder_at_eq s :
  stateOrder_at s =
    if decide (s = StateRunning) then 0
    else if decide (s = StateBusy) then 1
    else if decide (s = StateDrained) then 2
    else if decide (s = StateDown) then 3
    else if decide (s = StateOffline) then 4
    else 0.
Proof.
  unfold stateOrder_at, stateOrder.
  rewrite !lookup_insert, lookup_empty.
  unfold StateRunning, StateBusy, StateDrained, StateDown, StateOffline.
  repeat case_decide; simplify_eq; reflexivity.
Qed.

Lemma stateOrder_at_range s : 0 <= stateOrder_at s <= 4.
Proof. rewrite stateOrder_at_eq. repeat case_decide; lia. Qed.

Lemma power_in_range n : GoInt.in_range (power n).
Proof. apply wrap_in_range. Qed.

Lemma less_rank_key a b : less a b = (rank_key a <? rank_key b).
Proof.
  unfold less, rank_key.
  pose proof (power_in_range a) as Ha. pose proof (power_in_range b) as Hb.
  pose proof (stateOrder_at_range (State a)).
  pose proof (stateOrder_at_range (State b)).
  unfold GoInt.in_range, GoInt.minInt, GoInt.maxInt in *.
  destruct (IsAvailable a), (IsAvailable b); cbn [Bool.eqb negb andb].
  - apply eq_true_iff_eq. rewrite !Z.ltb_lt. lia.
  - symmetry. apply Z.ltb_lt. lia.
  - symmetry. apply Z.ltb_ge. lia.
  - reflexivity.
Qed.

Lemma tie_rank_key a b : tie a b ↔ rank_key a = rank_key b.
Proof.
  unfold tie. rewrite !less_rank_key, !Z.ltb_ge. lia.
Qed.

Lemma SliceIsSorted_Sorted (l : list Node) :
  SliceIsSorted less l = true ↔ Sorted Z.le (rank_key <$> l).
Proof.
  induction l as [|a [|b l] IH].
  - split; [constructor | reflexivity].
  - split; [repeat constructor | reflexivity].
  - change (SliceIsSorted less (a :: b :: l))
      with (negb (less b a) && SliceIsSorted less (b :: l)).
    rewrite andb_true_iff, negb_true_iff, IH, less_rank_key, Z.ltb_ge.
    cbn [fmap list_fmap]. split.
    + intros [Hab Hs]. constructor; [exact Hs | constructor; exact Hab].
    + intros Hs. inversion Hs as [|? ? Hs' Hhd]; subst.
      inversion Hhd; subst. auto.
Qed.

Lemma RankNodes_StronglySorted nodes out :
  RankNodes nodes out → StronglySorted Z.le (rank_key <$> out).
Proof.
  intros [_ Hs]. apply Sorted_StronglySorted; [apply _|].
  by apply SliceIsSorted_Sorted.
Qed.

(** In a ranked list a node never precedes one with a smaller key. *)
Lemma RankNodes_before nodes out a b :
  RankNodes nodes out → before out a b → rank_key a <= rank_key b.
Proof.
  intros Hr (l1 & l2 & l3 & ->). apply RankNodes_StronglySorted in Hr.
  rewrite fmap_app, fmap_cons, fmap_app, fmap_cons in Hr.
  apply StronglySorted_app_1_r in Hr.
  apply StronglySorted_cons in Hr as [Hall _].
  rewrite Forall_forall in Hall. apply Hall.
  apply elem_of_app. right. left.
Qed.

Lemma before_or {A} (l : list A) x y :
  x ∈ l → y ∈ l → x ≠ y → before l x y ∨ before l y x.
Proof.
  intros Hx Hy Hne.
  apply list_elem_of_split in Hx as (l1 & l2 & ->).
  apply elem_of_app in Hy as [Hy|Hy].
  - apply list_elem_of_split in Hy as (k1 & k2 & ->). right.
    exists k1, k2, l2. by rewrite <- app_assoc.
  - apply elem_of_cons in Hy as [->|Hy]; [done|].
    apply list_elem_of_split in Hy as (k1 & k2 & ->). left.
    by exists l1, k1, k2.
Qed.

(** With distinct keys the order of two members of the slice is fixed. *)
Lemma RankNodes_strict nodes out a b :
  RankNodes nodes out → a ∈ nodes → b ∈ nodes →
  rank_key a < rank_key b → before out a b ∧ ¬ before out b a.
Proof.
  intros Hr Ha Hb Hlt.
  assert (¬ before out b a) as Hnot.
  { intros Hba. pose proof (RankNodes_before _ _ _ _ Hr Hba). lia. }
  split; [|exact Hnot].
  destruct Hr as [Hp Hs]. rewrite Hp in Ha, Hb.
  destruct (before_or out a b Ha Hb) as [?|?]; [|done|done].
  intros ->. lia.
Qed.

(** ** [sort.Slice] can always return *)

Lemma insert_sorted_perm {A} (less : A → A → bool) a l :
  insert_sorted less a l ≡ₚ a :: l.
Proof.
  induction l as [|b l IH]; cbn [insert_sorted]; [done|].
  destruct (less a b); [done|]. rewrite IH. apply perm_swap.
Qed.

Lemma insertion_sort_perm {A} (less : A → A → bool) l :
  l ≡ₚ insertion_sort less l.
Proof.
  unfold insertion_sort.
  enough (∀ acc, l ++ acc ≡ₚ
            fold_left (λ acc a, insert_sorted less a acc) l acc) as H.
  { specialize (H []). by rewrite app_nil_r in H. }
  induction l as [|a l IH]; intros acc; cbn [fold_left app]; [done|].
  rewrite <- IH, insert_sorted_perm. by rewrite Permutation_middle.
Qed.

Section insertion.
Context {A : Type} (lt : A → A → bool).
Hypothesis lt_asym : ∀ x y, lt x y = true → lt y x = false.

Lemma insert_sorted_sorted a l :
  SliceIsSorted lt l = true → SliceIsSorted lt (insert_sorted lt a l) = true.
Proof.
  induction l as [|b l IH]; [reflexivity|]. intros Hs.
  cbn [insert_sorted]. destruct (lt a b) eqn:Hab.
  - change (negb (lt b a) && SliceIsSorted lt (b :: l) = true).
    rewrite (lt_asym _ _ Hab). exact Hs.
  - destruct l as [|c l].
    + cbn. rewrite Hab. reflexivity.
    + change (negb (lt c b) && SliceIsSorted lt (c :: l) = true) in Hs.
      apply andb_true_iff in Hs as [Hcb Hs]. specialize (IH Hs).
      cbn [insert_sorted] in IH |- *. destruct (lt a c) eqn:Hac.
      * change (negb (lt a b) && (negb (lt c a) &&
                  SliceIsSorted lt (c :: l)) = true).
        rewrite Hab, (lt_asym _ _ Hac). exact Hs.
      * change (negb (lt c b) &&
                  SliceIsSorted lt (c :: insert_sorted lt a l) = true).
        rewrite Hcb. exact IH.
Qed.

Lemma insertion_sort_sorted l :
  SliceIsSorted lt (insertion_sort lt l) = true.
Proof.
  unfold insertion_sort.
  enough (∀ acc, SliceIsSorted lt acc = true →
            SliceIsSorted lt
              (fold_left (λ acc a, insert_sorted lt a acc) l acc) = true)
    as H by (by apply H).
  induction l as [|a l IH]; intros acc Hacc; cbn [fold_left]; [done|].
  apply IH, insert_sorted_sorted, Hacc.
Qed.

Lemma sort_Slice_total l : sort_Slice lt l (insertion_sort lt l).
Proof. split; [apply insertion_sort_perm | apply insertion_sort_sorted]. Qed.
End insertion.

Lemma less_asym a b : less a b = true → less b a = false.
Proof. rewrite !less_rank_key, Z.ltb_lt, Z.ltb_ge. lia. Qed.

Lemma RankNodes_total nodes : RankNodes nodes (insertion_sort less nodes).
Proof. apply sort_Slice_total, less_asym. Qed.

Lemma rank_key_available n : IsAvailable n = true → rank_key n < 0.
Proof.
  unfold rank_key. intros ->. pose proof (power_in_range n) as H.
  unfold GoInt.in_range, GoInt.minInt, GoInt.maxInt in H. lia.
Qed.

Lemma rank_key_unavailable n :
  IsAvailable n = false → rank_key n = stateOrder_at (State n).
Proof. unfold rank_key. by intros ->. Qed.

Lemma power_exact_eq n :
  IsAvailable n = true → power_exact n →
  power n = GetAvailCores n * 1000 + GetAvailMemGB n.
Proof.
  rewrite IsAvailable_true. intros (_ & Hc & Hm) Hex.
  unfold power_exact, GoInt.in_range, GoInt.minInt, GoInt.maxInt in Hex.
  unfold power. rewrite mul_exact, add_exact; [done|done|].
  unfold GoInt.in_range, GoInt.minInt, GoInt.maxInt. lia.
Qed.

(** ** The ranking *)

Lemma big_nodes_parsed :
  Slurm.parseNodeInfo
    ("NodeName=A State=IDLE CPUAlloc=0 CPUTot=9223372036854775 "
     ++ "RealMemory=800000 AllocMem=0 Partitions=batch")%string
  = (big_A, None) ∧
  Slurm.parseNodeInfo
    ("NodeName=B State=IDLE CPUAlloc=0 CPUTot=9223372036854775 "
     ++ "RealMemory=900000 AllocMem=0 Partitions=batch")%string
  = (big_B, None).
Proof. split; vm_compute; reflexivity. Qed.

(** C2, the claim as stated fails: [big_A] and [big_B] are available
    with equal free cores and [big_B] has more free memory, yet the score
    of [big_B] wraps around and every ranking puts [big_A] first. *)
Lemma RankNodes_memory_counterexample :
  Node_wf big_A ∧ Node_wf big_B ∧
  IsAvailable big_A = true ∧ IsAvailable big_B = true ∧
  GetAvailCores big_A = GetAvailCores big_B ∧
  GetAvailMemGB big_A < GetAvailMemGB big_B ∧
  RankNodes [big_B; big_A] [big_A; big_B] ∧
  ¬ RankNodes [big_B; big_A] [big_B; big_A].
Proof.
  split; [vm_compute; intuition congruence|].
  split; [vm_compute; intuition congruence|].
  split; [vm_compute; reflexivity|]. split; [vm_compute; reflexivity|].
  split; [vm_compute; reflexivity|]. split; [vm_compute; reflexivity|].
  split.
  - split; [apply perm_swap | vm_compute; reflexivity].
  - intros [_ Hs]. vm_compute in Hs. discriminate.
Qed.

(** C2, amended: in every ranking of a node list each available node
    comes before each unavailable node whatever their scores, and the
    available nodes are in descending order of the score
    [availableCores * 1000 + availableMemoryGB] computed in machine
    arithmetic; of two available nodes with equal available cores the
    one with more available memory in GB comes first provided neither
    score overflows. *)
Theorem RankNodes_available_by_power (nodes out : list Node) :
  RankNodes nodes out →
  (∀ a u, a ∈ nodes → u ∈ nodes →
     IsAvailable a = true → IsAvailable u = false →
     before out a u ∧ ¬ before out u a) ∧
  (∀ a b, IsAvailable a = true → IsAvailable b = true →
     before out a b → power b <= power a) ∧
  (∀ a b, a ∈ nodes → b ∈ nodes →
     IsAvailable a = true → IsAvailable b = true → power b < power a →
     before out a b ∧ ¬ before out b a) ∧
  (∀ a b, a ∈ nodes → b ∈ nodes →
     IsAvailable a = true → IsAvailable b = true →
     GetAvailCores a = GetAvailCores b →
     GetAvailMemGB b < GetAvailMemGB a →
     power_exact a → power_exact b →
     before out a b ∧ ¬ before out b a).
Proof.
  intros Hr.
  assert (∀ a b, a ∈ nodes → b ∈ nodes →
     IsAvailable a = true → IsAvailable b = true → power b < power a →
     before out a b ∧ ¬ before out b a) as Hstrict.
  { intros a b Ha Hb Haa Hab Hlt. apply (RankNodes_strict nodes); try done.
    unfold rank_key. rewrite Haa, Hab. lia. }
  split; [|split; [|split; [exact Hstrict|]]].
  - intros a u Ha Hu Haa Hua. apply (RankNodes_strict nodes); try done.
    pose proof (rank_key_available a Haa).
    pose proof (stateOrder_at_range (State u)).
    rewrite (rank_key_unavailable u) by done. lia.
  - intros a b Haa Hab Hbef.
    pose proof (RankNodes_before _ _ _ _ Hr Hbef) as Hle.
    unfold rank_key in Hle. rewrite Haa, Hab in Hle. lia.
  - intros a b Ha Hb Haa Hab Hc Hm Hea Heb.
    apply Hstrict; try done. rewrite !power_exact_eq by done. lia.
Qed.

Lemma RankNodes_available_by_power_witness :
  before [free_node; down_node] free_node down_node.
Proof.
  apply (proj1 (RankNodes_available_by_power
                  [down_node; free_node] [free_node; down_node]
                  (conj (perm_swap _ _ _) eq_refl))
           free_node down_node).
  - apply elem_of_cons. right. apply elem_of_cons. left. reflexivity.
  - apply elem_of_cons. left. reflexivity.
  - vm_compute. reflexivity.
  - vm_compute. reflexivity.
Defined.

(** C5, the claim as stated fails: an Idle node without free cores is
    unavailable and its state is not in the priority table, yet every
    ranking puts it before the Busy node. *)
Lemma RankNodes_unlisted_state_counterexample :
  IsAvailable idle_full = false ∧ IsAvailable busy_node = false ∧
  RankNodes [busy_node; idle_full] [idle_full; busy_node] ∧
  ¬ RankNodes [busy_node; idle_full] [busy_node; idle_full].
Proof.
  split; [vm_compute; reflexivity|]. split; [vm_compute; reflexivity|].
  split.
  - split; [apply perm_swap | vm_compute; reflexivity].
  - intros [_ Hs]. vm_compute in Hs. discriminate.
Qed.

(** C5, amended: among unavailable nodes every ranking follows the
    state priority Running 0, Busy 1, Drained 2, Down 3, Offline 4, a
    lower priority coming first; a state outside the table has priority
    0, so such a node ties with the Running nodes and comes before every
    unavailable Busy, Drained, Down or Offline node.  Nodes of equal
    priority may come in any order. *)
Theorem RankNodes_unavailable_by_state (nodes out : list Node) :
  RankNodes nodes out →
  (∀ a b, IsAvailable a = false → IsAvailable b = false →
     before out a b → stateOrder_at (State a) <= stateOrder_at (State b)) ∧
  (∀ a b, a ∈ nodes → b ∈ nodes →
     IsAvailable a = false → IsAvailable b = false →
     stateOrder_at (State a) < stateOrder_at (State b) →
     before out a b ∧ ¬ before out b a) ∧
  (stateOrder_at StateRunning = 0 ∧ stateOrder_at StateBusy = 1 ∧
   stateOrder_at StateDrained = 2 ∧ stateOrder_at StateDown = 3 ∧
   stateOrder_at StateOffline = 4) ∧
  (∀ s, s ≠ StateRunning → s ≠ StateBusy → s ≠ StateDrained →
     s ≠ StateDown → s ≠ StateOffline → stateOrder_at s = 0) ∧
  (∀ a b, a ∈ nodes → b ∈ nodes →
     IsAvailable a = false → IsAvailable b = false →
     stateOrder_at (State a) = 0 →
     State b ∈ [StateBusy; StateDrained; StateDown; StateOffline] →
     before out a b ∧ ¬ before out b a).
Proof.
  intros Hr.
  assert (∀ a b, a ∈ nodes → b ∈ nodes →
     IsAvailable a = false → IsAvailable b = false →
     stateOrder_at (State a) < stateOrder_at (State b) →
     before out a b ∧ ¬ before out b a) as Hstrict.
  { intros a b Ha Hb Haa Hab Hlt. apply (RankNodes_strict nodes); try done.
    by rewrite !rank_key_unavailable. }
  split; [|split; [exact Hstrict|split; [|split]]].
  - intros a b Haa Hab Hbef.
    pose proof (RankNodes_before _ _ _ _ Hr Hbef) as Hle.
    by rewrite !rank_key_unavailable in Hle.
  - vm_compute. repeat split.
  - intros s ? ? ? ? ?. rewrite stateOrder_at_eq.
    repeat case_decide; done.
  - intros a b Ha Hb Haa Hab Hzero Hst. apply Hstrict; try done.
    rewrite Hzero.
    repeat (apply elem_of_cons in Hst as [->|Hst]; [vm_compute; done|]).
    by apply elem_of_nil in Hst.
Qed.

Lemma RankNodes_unavailable_by_state_witness :
  before [idle_full; busy_node] idle_full busy_node.
Proof.
  apply (proj2 (proj2 (proj2 (proj2
           (RankNodes_unavailable_by_state
              [busy_node; idle_full] [idle_full; busy_node]
              (conj (perm_swap _ _ _) eq_refl)))))
           idle_full busy_node).
  - apply elem_of_cons. right. apply elem_of_cons. left. reflexivity.
  - apply elem_of_cons. left. reflexivity.
  - vm_compute. reflexivity.
  - vm_compute. reflexivity.
  - vm_compute. reflexivity.
  - apply elem_of_cons. left. reflexivity.
Defined.

(** ** Stability and re-ranking *)

Lemma fmap_eq_Forall2 {A B} (f : A → B) (l k : list A) :
  f <$> l = f <$> k → Forall2 (λ a b, f a = f b) l k.
Proof.
  revert k. induction l as [|a l IH]; intros [|b k] Heq;
    try discriminate; constructor.
  - by injection Heq.
  - apply IH. by injection Heq.
Qed.

Lemma RankNodes_unique_keys nodes out out' :
  RankNodes nodes out → RankNodes nodes out' →
  rank_key <$> out = rank_key <$> out'.
Proof.
  intros Hr Hr'. apply (StronglySorted_unique Z.le).
  - by eapply RankNodes_StronglySorted.
  - by eapply RankNodes_StronglySorted.
  - apply fmap_Permutation. destruct Hr as [Hp _], Hr' as [Hp' _].
    by rewrite <- Hp, <- Hp'.
Qed.

(** ** [sort.Slice] on a slice that is in order *)

Section GoSort_in_order.
Context {A : Type} (less : A → A → bool) (next : Z → Z).
Context (data : list A) (Hord : in_order less data).
Local Open Scope nat_scope.

Lemma Less_in_order i j : i < j → GoSort.Less less data j i = false.
Proof.
  intros Hij. unfold GoSort.Less.
  destruct (data !! j) as [y|] eqn:Hj; [|reflexivity].
  destruct (data !! i) as [x|] eqn:Hi; [|reflexivity].
  by eapply Hord.
Qed.

Lemma insertionSort_inner_in_order a j :
  GoSort.insertionSort_inner less a j data = data.
Proof.
  destruct j as [|j]; [reflexivity|]. cbn [GoSort.insertionSort_inner].
  rewrite Less_in_order by lia. by rewrite andb_false_r.
Qed.

Lemma insertionSort_in_order a b : GoSort.insertionSort less data a b = data.
Proof.
  unfold GoSort.insertionSort.
  induction (seq (a + 1) (b - (a + 1))) as [|i l IH]; [reflexivity|].
  cbn [fold_left]. by rewrite insertionSort_inner_in_order.
Qed.

Lemma order2_in_order a b swaps :
  a < b → GoSort.order2 less data a b swaps = (a, b, swaps).
Proof.
  intros Hab. unfold GoSort.order2. by rewrite Less_in_order.
Qed.

Lemma median_in_order a b c swaps :
  a < b → b < c → GoSort.median less data a b c swaps = (b, swaps).
Proof.
  intros Hab Hbc. unfold GoSort.median.
  rewrite (order2_in_order a b) by done.
  rewrite (order2_in_order b c) by done.
  by rewrite (order2_in_order a b).
Qed.

Lemma choosePivot_in_order a b :
  8 <= b - a →
  GoSort.choosePivot less data a b
  = (a + (b - a) / 4 * 2, GoSort.increasingHint).
Proof.
  intros Hl. unfold GoSort.choosePivot.
  assert (2 <= (b - a) / 4) as Hq
    by (apply Nat.div_le_lower_bound; lia).
  destruct (Nat.leb_spec 8 (b - a)); [|lia].
  generalize dependent ((b - a) / 4). intros q Hq.
  destruct (50 <=? b - a).
  - unfold GoSort.medianAdjacent.
    do 4 (rewrite median_in_order by lia; cbv beta iota zeta).
    reflexivity.
  - by rewrite median_in_order by lia.
Qed.

Lemma skip_ordered_in_order fuel b i :
  1 <= i → i <= b → b - i <= fuel →
  GoSort.skip_ordered less fuel data b i = b.
Proof.
  revert i. induction fuel as [|fuel IH]; intros i Hi Hib Hfuel.
  - cbn. lia.
  - cbn [GoSort.skip_ordered].
    destruct (Nat.ltb_spec i b) as [Hlt|Hge]; [|cbn; lia].
    rewrite Less_in_order by lia. cbn [negb andb]. apply IH; lia.
Qed.

Lemma partialInsertionSort_in_order a b :
  a + 1 <= b → GoSort.partialInsertionSort less data a b = (data, true).
Proof.
  intros Hab. unfold GoSort.partialInsertionSort.
  cbn [GoSort.partialInsertionSort_loop].
  rewrite skip_ordered_in_order by lia. by rewrite Nat.eqb_refl.
Qed.

(** [sort.Slice] returns a slice that is in order as it is: up to
    twelve elements by insertion sort, which finds nothing to move; above
    that the pivot is chosen without an exchange, which marks the slice
    as increasing, and the partial insertion sort reaches its end. *)
Lemma Slice_in_order : GoSort.Slice less next data = Some data.
Proof.
  unfold GoSort.Slice. cbn [GoSort.pdqsort].
  rewrite Nat.sub_0_r.
  destruct (Nat.leb_spec (length data) 12) as [Hle|Hgt].
  { by rewrite insertionSort_in_order. }
  assert ((GoSort.bits_Len (length data) =? 0) = false) as ->.
  { unfold GoSort.bits_Len. destruct (length data); [lia | reflexivity]. }
  cbn [negb]. rewrite choosePivot_in_order by lia.
  cbn [andb]. by rewrite partialInsertionSort_in_order by lia.
Qed.

End GoSort_in_order.

Lemma lookup_before {A} (l : list A) i j x y :
  (i < j)%nat → l !! i = Some x → l !! j = Some y → before l x y.
Proof.
  intros Hij Hi Hj.
  pose proof (take_drop_middle l i x Hi) as Hl.
  assert (drop (S i) l !! (j - S i)%nat = Some y) as Hj'.
  { rewrite lookup_drop. by replace (S i + (j - S i))%nat with j by lia. }
  pose proof (take_drop_middle _ _ _ Hj') as Hl'.
  exists (take i l), (take (j - S i) (drop (S i) l)),
         (drop (S (j - S i)) (drop (S i) l)).
  by rewrite Hl', Hl.
Qed.

Lemma RankNodes_in_order nodes out : RankNodes nodes out → in_order less out.
Proof.
  intros Hr i j x y Hij Hi Hj.
  rewrite less_rank_key. apply Z.ltb_ge.
  eapply RankNodes_before; [exact Hr|]. by eapply lookup_before.
Qed.

(** The embedded algorithm on the thirteen nodes: it returns the ranking
    [thirteen_ranked], whatever the generator of [breakPatterns]. *)
Lemma Slice_thirteen next :
  GoSort.Slice less next thirteen = Some thirteen_ranked.
Proof. vm_compute. reflexivity. Qed.

(** C6, the claim as stated fails: the ranking calls [sort.Slice], which
    does not keep tied elements in place.  [thirteen_ranked] is a ranking
    of [thirteen] in which the tied nodes at positions 0 and 6 have
    changed places. *)
Lemma RankNodes_stability_counterexample :
  RankNodes thirteen thirteen_ranked ∧
  tie (full "r0") (full "r6") ∧ full "r0" ≠ full "r6" ∧
  NoDup thirteen ∧
  thirteen !! 0%nat = Some (full "r0") ∧
  thirteen !! 6%nat = Some (full "r6") ∧
  thirteen_ranked !! 0%nat = Some (full "r6") ∧
  thirteen_ranked !! 6%nat = Some (full "r0").
Proof.
  split.
  - split; [|vm_compute; reflexivity].
    apply (bool_decide_unpack _). vm_compute. exact I.
  - split; [split; vm_compute; reflexivity|].
    split; [discriminate|].
    split; [apply (bool_decide_unpack _); vm_compute; exact I|].
    repeat split.
Qed.

(** C6, amended: the ranking always returns, and what it returns is a
    permutation of the node list in which no node is ordered before one
    that precedes it; tied nodes may change places.  The ranking is
    idempotent: [sort.Slice] returns a ranked list exactly as it is.
    Under the contract alone, a ranked list is a ranking of itself, and
    every ranking of a ranked list agrees with it position by position
    up to ties. *)
Theorem RankNodes_sorted_permutation (nodes : list Node) (next : Z → Z) :
  (∃ out, RankNodes nodes out) ∧
  (∀ out, RankNodes nodes out →
     nodes ≡ₚ out ∧
     (∀ a b, before out a b → less b a = false) ∧
     GoSort.Slice less next out = Some out ∧
     RankNodes out out ∧
     (∀ out', RankNodes out out' → Forall2 tie out out')).
Proof.
  split; [exists (insertion_sort less nodes); apply RankNodes_total|].
  intros out Hr. split; [by destruct Hr|]. split; [|split; [|split]].
  - intros a b Hbef. rewrite less_rank_key. apply Z.ltb_ge.
    by eapply RankNodes_before.
  - apply Slice_in_order. by eapply RankNodes_in_order.
  - split; [done | by destruct Hr].
  - intros out' Hr'.
    assert (RankNodes out out) as Hself by (split; [done | by destruct Hr]).
    pose proof (RankNodes_unique_keys _ _ _ Hself Hr') as Hk.
    apply fmap_eq_Forall2 in Hk.
    eapply Forall2_impl; [exact Hk|]. intros a b. by rewrite tie_rank_key.
Qed.

Lemma RankNodes_sorted_permutation_witness :
  GoSort.Slice less (λ r, r) thirteen_ranked = Some thirteen_ranked ∧
  Forall2 tie [free_node; down_node] [free_node; down_node].
Proof.
  split.
  - apply (proj2 (RankNodes_sorted_permutation thirteen (λ r, r))
             thirteen_ranked).
    split; [|vm_compute; reflexivity].
    apply (bool_decide_unpack _). vm_compute. exact I.
  - apply (proj2 (proj2 (proj2 (proj2
             (proj2 (RankNodes_sorted_permutation [down_node; free_node]
                       (λ r, r))
                [free_node; down_node]
                (conj (perm_swap _ _ _) eq_refl))))) [free_node; down_node]).
    split; [reflexivity | vm_compute; reflexivity].
Defined.

(** ** The refresh cycle *)

Lemma refresh_total s now a : ∃ a', refresh s now a a'.
Proof.
  unfold refresh, fetchData.
  destruct (GetNodes s (currentPartition a)) as [ns [e|]]; [by eauto|].
  destruct (GetJobs s (currentPartition a)) as [js [e|]]; [by eauto|].
  destruct (GetUserJobs s (currentUser a)) as [us e].
  eexists. eexists. split; [|reflexivity].
  exists (insertion_sort less ns). split; [apply RankNodes_total | reflexivity].
Qed.

(** C7: a refresh attempt always completes.  When only the user-job
    fetch fails, the attempt publishes an empty user-job list and leaves
    no error; when the node fetch fails, or the job fetch fails, the
    error is set and the published nodes, jobs, user jobs and statistics
    stay as they were. *)
Theorem refresh_failure_handling (s : Scheduler) (now : Z) (a : App) :
  (∃ a', refresh s now a a') ∧
  (∀ a', refresh s now a a' →
     (snd (GetNodes s (currentPartition a)) = None →
      snd (GetJobs s (currentPartition a)) = None →
      is_Some (snd (GetUserJobs s (currentUser a))) →
      userJobs a' = [] ∧ err a' = None) ∧
     (∀ e, snd (GetNodes s (currentPartition a)) = Some e ∨
           (snd (GetNodes s (currentPartition a)) = None ∧
            snd (GetJobs s (currentPartition a)) = Some e) →
      err a' = Some e ∧ nodes a' = nodes a ∧ jobs a' = jobs a ∧
      userJobs a' = userJobs a ∧ stats a' = stats a)).
Proof.
  split; [apply refresh_total|].
  intros a' (m & Hm & ->). unfold fetchData in Hm.
  destruct (GetNodes s (currentPartition a)) as [ns en].
  destruct (GetJobs s (currentPartition a)) as [js ej].
  destruct (GetUserJobs s (currentUser a)) as [us eu].
  cbn [snd]. split.
  - intros -> -> [e ->]. destruct Hm as (sorted & _ & ->). done.
  - intros e [->|[-> ->]]; subst m; done.
Qed.

Lemma refresh_failure_handling_witness :
  (∀ a', refresh sched_user_fails 200 old_app a' →
         userJobs a' = [] ∧ err a' = None) ∧
  (∀ a', refresh sched_nodes_fail 200 old_app a' →
         err a' = Some "failed to run scontrol" ∧
         nodes a' = nodes old_app) ∧
  (∀ a', refresh sched_jobs_fail 200 old_app a' →
         err a' = Some "failed to run sacct" ∧ jobs a' = jobs old_app).
Proof.
  split; [|split]; intros a' Hr.
  - apply (proj1 (proj2 (refresh_failure_handling sched_user_fails 200
                           old_app) a' Hr)).
    + reflexivity.
    + reflexivity.
    + exists "failed to run sacct". reflexivity.
  - destruct (proj2 (proj2 (refresh_failure_handling sched_nodes_fail 200
                              old_app) a' Hr) "failed to run scontrol")
      as (H1 & H2 & _).
    + left. reflexivity.
    + split; assumption.
  - destruct (proj2 (proj2 (refresh_failure_handling sched_jobs_fail 200
                              old_app) a' Hr) "failed to run sacct")
      as (H1 & _ & H3 & _).
    + right. split; reflexivity.
    + split; assumption.
Defined.

Lemma scan_keeps_jobs (output : list string) (jobs : list Job.Job) :
  fold_left (λ jobs line, jobs) output jobs = jobs.
Proof. induction output as [|line output IH]; [reflexivity | exact IH]. Qed.

(** C10: when [qstat] succeeds the Torque adapter returns no user job
    whatever the command printed; hence with Torque user jobs every
    snapshot a refresh publishes has an empty user-job list and marks no
    node as carrying a job of the user. *)
Theorem Torque_GetUserJobs_empty (qstat : string → CmdOutput)
    (s : Scheduler) (now : Z) (a : App) :
  GetUserJobs s = Torque.GetUserJobs qstat →
  (∀ user output, qstat user = (output, None) →
     Torque.GetUserJobs qstat user = ([], None)) ∧
  (∀ ns js us st, fetchData s a (dataMsg ns js us st) →
     us = [] ∧
     userJobs (fst (Update now a (dataMsg ns js us st))) = [] ∧
     ∀ nodeID,
       userHasJobsOnNode (fst (Update now a (dataMsg ns js us st))) nodeID
       = false).
Proof.
  intros Hs.
  assert (∀ user output, qstat user = (output, None) →
            Torque.GetUserJobs qstat user = ([], None)) as Hempty.
  { intros user output Hq. unfold Torque.GetUserJobs. rewrite Hq.
    by rewrite scan_keeps_jobs. }
  split; [exact Hempty|].
  intros ns js us st Hm.
  assert (us = []) as ->; [|done].
  unfold fetchData in Hm. rewrite Hs in Hm.
  destruct (GetNodes s (currentPartition a)) as [ns' [e|]]; [discriminate|].
  destruct (GetJobs s (currentPartition a)) as [js' [e|]]; [discriminate|].
  unfold Torque.GetUserJobs in Hm.
  destruct (qstat (currentUser a)) as [output [e|]] eqn:Hq.
  - destruct Hm as (sorted & _ & Heq). by injection Heq.
  - destruct Hm as (sorted & _ & Heq). injection Heq as _ _ -> _.
    apply scan_keeps_jobs.
Qed.

Lemma Torque_GetUserJobs_empty_witness :
  Torque.GetUserJobs qstat_two_jobs "bob" = ([], None) ∧
  (∀ ns js us st,
     fetchData sched_torque_user old_app (dataMsg ns js us st) → us = []).
Proof.
  split.
  - apply (proj1 (Torque_GetUserJobs_empty qstat_two_jobs sched_torque_user
                    200 old_app eq_refl) "bob" (fst (qstat_two_jobs "bob"))).
    reflexivity.
  - intros ns js us st Hm.
    apply (proj2 (Torque_GetUserJobs_empty qstat_two_jobs sched_torque_user
                    200 old_app eq_refl) ns js us st Hm).
Defined.

(** ** Malformed node records *)

Lemma Slurm_parseNodeInfo_no_error nodeInfo :
  snd (Slurm.parseNodeInfo nodeInfo) = None.
Proof. reflexivity. Qed.

Lemma Torque_parseNodeInfo_error line :
  snd (Torque.parseNodeInfo line) ≠ None ↔
  (length (GoStrings.Split (Torque.collapseSpaces line) " ") < 4)%nat.
Proof.
  unfold Torque.parseNodeInfo.
  destruct (Nat.ltb_spec
              (length (GoStrings.Split (Torque.collapseSpaces line) " ")) 4);
    cbn [snd]; split; intros; try done; lia.
Qed.

Lemma Torque_GetNodes_step_skip partition nodes line :
  snd (Torque.parseNodeInfo line) ≠ None →
  Torque.GetNodes_step partition nodes line = nodes.
Proof.
  intros Hbad. unfold Torque.GetNodes_step.
  destruct (Torque.lineInPartition partition line); [|done].
  by destruct (Torque.parseNodeInfo line) as [node [e|]].
Qed.

Lemma Torque_GetNodes_fold_good partition lines acc :
  Forall (λ l, Torque.lineInPartition partition l = true ∧
               snd (Torque.parseNodeInfo l) = None) lines →
  fold_left (Torque.GetNodes_step partition) lines acc
  = acc ++ map (λ l, fst (Torque.parseNodeInfo l)) lines.
Proof.
  revert acc. induction lines as [|l lines IH]; intros acc Hall.
  - by rewrite app_nil_r.
  - apply Forall_cons in Hall as [[Hin Hok] Hall].
    cbn [fold_left map]. rewrite IH by done.
    unfold Torque.GetNodes_step. rewrite Hin.
    destruct (Torque.parseNodeInfo l) as [node e]. cbn [snd fst] in *.
    subst e. by rewrite <- app_assoc.
Qed.

(** C8, the claim as stated fails for the SLURM backend, whose parser
    rejects no record: one sound record and one malformed record yield two
    nodes, and a line without the [NodeName=] marker is read as part of
    the record before it. *)
Lemma GetNodes_malformed_counterexample :
  Slurm.GetNodes scontrol_report "batch"
  = ([ mkNode "n1" StateIdle 8 2 64000 1000 ["batch"] [];
       mkNode "n2" "" 0 0 0 0 ["batch"] [] ], None) ∧
  Slurm.GetNodes scontrol_report_unmarked "batch"
  = ([ mkNode "n1" StateDown 4 0 64000 1000 ["batch"] [] ], None).
Proof. split; vm_compute; reflexivity. Qed.

(** C8, amended: in the Torque backend a node line with fewer than four
    space-separated fields is skipped and nothing else changes: the
    listing equals the listing without that line, and when the other N
    lines belong to the partition and have four fields or more, the
    nodes returned are exactly the N nodes parsed from them, one per line
    and in their order.  The SLURM parser never rejects a record. *)
Theorem Torque_GetNodes_skips_short_line
    (partition : string) (pre post : list string) (bad : string) :
  (length (GoStrings.Split (Torque.collapseSpaces bad) " ") < 4)%nat →
  Torque.GetNodes (pre ++ bad :: post, None) partition
  = Torque.GetNodes (pre ++ post, None) partition ∧
  (Forall (λ l, Torque.lineInPartition partition l = true ∧
                (4 <= length (GoStrings.Split (Torque.collapseSpaces l) " "))%nat)
          (pre ++ post) →
   fst (Torque.GetNodes (pre ++ bad :: post, None) partition)
   = map (λ l, fst (Torque.parseNodeInfo l)) (pre ++ post) ∧
   length (fst (Torque.GetNodes (pre ++ bad :: post, None) partition))
   = length (pre ++ post)) ∧
  (∀ nodeInfo, snd (Slurm.parseNodeInfo nodeInfo) = None).
Proof.
  intros Hbad. apply Torque_parseNodeInfo_error in Hbad.
  assert (Torque.GetNodes (pre ++ bad :: post, None) partition
          = Torque.GetNodes (pre ++ post, None) partition) as Heq.
  { unfold Torque.GetNodes. rewrite !fold_left_app. cbn [fold_left].
    by rewrite Torque_GetNodes_step_skip. }
  split; [exact Heq|]. split; [|apply Slurm_parseNodeInfo_no_error].
  intros Hall. rewrite Heq.
  assert (fst (Torque.GetNodes (pre ++ post, None) partition)
          = map (λ l, fst (Torque.parseNodeInfo l)) (pre ++ post)) as ->.
  { unfold Torque.GetNodes. rewrite Torque_GetNodes_fold_good.
    - cbn [app].
      destruct (map _ (pre ++ post)) as [|n ns]; reflexivity.
    - eapply Forall_impl; [exact Hall|]. intros l [Hin Hlen].
      split; [done|].
      destruct (snd (Torque.parseNodeInfo l)) eqn:He; [|done].
      assert (snd (Torque.parseNodeInfo l) ≠ None) as Hne by congruence.
      apply Torque_parseNodeInfo_error in Hne. lia. }
  split; [done | by rewrite length_map].
Qed.

Lemma Torque_GetNodes_skips_short_line_witness :
  Torque.GetNodes ([mdiag_line1; mdiag_short; mdiag_line2], None) "batch"
  = Torque.GetNodes ([mdiag_line1; mdiag_line2], None) "batch" ∧
  length (fst (Torque.GetNodes ([mdiag_line1; mdiag_short; mdiag_line2], None)
                 "batch")) = 2%nat.
Proof.
  assert ((length (GoStrings.Split (Torque.collapseSpaces mdiag_short) " ")
           < 4)%nat) as Hshort by (vm_compute; lia).
  split.
  - apply (proj1 (Torque_GetNodes_skips_short_line "batch" [mdiag_line1]
                    [mdiag_line2] mdiag_short Hshort)).
  - apply (proj1 (proj2 (Torque_GetNodes_skips_short_line "batch"
                           [mdiag_line1] [mdiag_line2] mdiag_short Hshort))).
    apply Forall_cons_2; [split; [vm_compute; reflexivity | vm_compute; lia]|].
    apply Forall_cons_2; [split; [vm_compute; reflexivity | vm_compute; lia]|].
    apply Forall_nil_2.
Defined.

(** ** Requested memory of SLURM jobs *)



Lemma isDigit_not_sign c :
  GoStrings.isDigit c = true →
  Ascii.eqb c "+"%char = false ∧ Ascii.eqb c "-"%char = false.
Proof.
  destruct c as [[] [] [] [] [] [] [] []]; vm_compute; intros H;
    first [discriminate H | split; reflexivity].
Qed.

Lemma isDigit_plainByte c :
  GoStrings.isDigit c = true → GoFloat.plainByte c = true.
Proof. unfold GoFloat.plainByte. by intros ->. Qed.

Lemma starts_with_letter_patterns :
  starts_with_letter "Mc" ∧ starts_with_letter "Mn" ∧
  starts_with_letter "n" ∧ starts_with_letter "c" ∧ starts_with_letter "G".
Proof.
  repeat split; intros c s;
    destruct c as [[] [] [] [] [] [] [] []]; vm_compute; intros H;
    first [discriminate H | reflexivity].
Qed.

Lemma append_cons c a b :
  (String c a ++ b)%string = String c (a ++ b)%string.
Proof. reflexivity. Qed.

Lemma forallb_string_app p a b :
  GoFloat.forallb_string p (a ++ b)%string
  = GoFloat.forallb_string p a && GoFloat.forallb_string p b.
Proof.
  induction a as [|c a IH]; [reflexivity|].
  change (p c && GoFloat.forallb_string p (a ++ b)%string
          = p c && GoFloat.forallb_string p a && GoFloat.forallb_string p b).
  by rewrite IH, andb_assoc.
Qed.

Lemma ReplaceAll_digits ds tail old new r :
  GoFloat.forallb_string GoStrings.isDigit ds = true →
  starts_with_letter old →
  GoStrings.ReplaceAll tail old new = r →
  GoStrings.ReplaceAll (ds ++ tail)%string old new = (ds ++ r)%string.
Proof.
  intros Hds Hold <-. unfold GoStrings.ReplaceAll.
  induction ds as [|c ds IH]; [reflexivity|].
  cbn [GoFloat.forallb_string] in Hds. apply andb_true_iff in Hds as [Hc Hds].
  rewrite !append_cons. cbn [GoStrings.ReplaceAll_from].
  rewrite (Hold c _ Hc), IH by done. reflexivity.
Qed.

Lemma cleanMemStr_whole_G ds tail :
  GoFloat.forallb_string GoStrings.isDigit ds = true →
  tail = "G" ∨ tail = "Gn" ∨ tail = "Gc" →
  Slurm.cleanMemStr (ds ++ tail)%string = (ds ++ "000")%string.
Proof.
  intros Hds Htail.
  destruct starts_with_letter_patterns as (H1 & H2 & H3 & H4 & H5).
  unfold Slurm.cleanMemStr.
  destruct Htail as [-> | [-> | ->]].
  - rewrite (ReplaceAll_digits ds _ "Mc" "" "G") by done.
    rewrite (ReplaceAll_digits ds _ "Mn" "" "G") by done.
    rewrite (ReplaceAll_digits ds _ "n" "" "G") by done.
    rewrite (ReplaceAll_digits ds _ "c" "" "G") by done.
    by rewrite (ReplaceAll_digits ds _ "G" "000" "000").
  - rewrite (ReplaceAll_digits ds _ "Mc" "" "Gn") by done.
    rewrite (ReplaceAll_digits ds _ "Mn" "" "Gn") by done.
    rewrite (ReplaceAll_digits ds _ "n" "" "G") by done.
    rewrite (ReplaceAll_digits ds _ "c" "" "G") by done.
    by rewrite (ReplaceAll_digits ds _ "G" "000" "000").
  - rewrite (ReplaceAll_digits ds _ "Mc" "" "Gc") by done.
    rewrite (ReplaceAll_digits ds _ "Mn" "" "Gc") by done.
    rewrite (ReplaceAll_digits ds _ "n" "" "Gc") by done.
    rewrite (ReplaceAll_digits ds _ "c" "" "G") by done.
    by rewrite (ReplaceAll_digits ds _ "G" "000" "000").
Qed.

Lemma digits_from_all_digits acc s v :
  GoStrings.digits_from acc s = Some v →
  GoFloat.forallb_string GoStrings.isDigit s = true.
Proof.
  revert acc. induction s as [|c s IH]; intros acc; [reflexivity|].
  cbn [GoStrings.digits_from GoFloat.forallb_string].
  destruct (GoStrings.isDigit c); [|discriminate]. apply IH.
Qed.

Lemma digits_from_app acc a b :
  GoStrings.digits_from acc (a ++ b)%string
  = match GoStrings.digits_from acc a with
    | Some v => GoStrings.digits_from v b
    | None => None
    end.
Proof.
  revert acc. induction a as [|c a IH]; intros acc; [reflexivity|].
  rewrite append_cons. cbn [GoStrings.digits_from].
  destruct (GoStrings.isDigit c); [apply IH | reflexivity].
Qed.

Lemma digits_from_nonneg acc s v :
  0 <= acc → GoStrings.digits_from acc s = Some v → 0 <= v.
Proof.
  revert acc. induction s as [|c s IH]; intros acc Hacc.
  - cbn. intros [= <-]. done.
  - cbn [GoStrings.digits_from].
    destruct (GoStrings.isDigit c) eqn:Hc; [|discriminate].
    apply IH. unfold GoStrings.digit.
    unfold GoStrings.isDigit in Hc. apply andb_true_iff in Hc as [Hc _].
    apply Nat.leb_le in Hc. lia.
Qed.

Lemma decimal_from_digits s acc nd v :
  GoStrings.digits_from acc s = Some v →
  GoFloat.decimal_from false acc 0 nd s
  = if (nd + String.length s =? 0)%nat then None else Some (v, 0%nat).
Proof.
  revert acc nd. induction s as [|c s IH]; intros acc nd.
  - cbn. intros [= <-]. by rewrite Nat.add_0_r.
  - cbn [GoStrings.digits_from GoFloat.decimal_from String.length].
    destruct (GoStrings.isDigit c); [|discriminate].
    intros Hv. rewrite (IH _ _ Hv).
    by replace (nd + S (String.length s))%nat
      with (S nd + String.length s)%nat by lia.
Qed.

(** A whole number below [2^53] is a float64 and converts back to itself. *)
Lemma round_nearest_even_whole m :
  0 <= m < 2 ^ 53 →
  ∃ r p, GoFloat.round_nearest_even m 1 = Some (r, p) ∧
         GoFloat.to_int (GoFloat.mkFloat false r p) = Some m.
Proof.
  intros Hm. unfold GoFloat.round_nearest_even.
  destruct (Z.eqb_spec m 0) as [->|Hne].
  { exists 0, 0. split; reflexivity. }
  assert (0 < m) as Hpos by lia.
  pose proof (Z.log2_nonneg m) as He0.
  pose proof (Z.log2_spec m Hpos) as [Hlo Hhi].
  assert (Z.log2 m < 53) as He53 by (apply Z.log2_lt_pow2; lia).
  change (Z.log2 1) with 0. rewrite Z.sub_0_r.
  set (e := Z.log2 m) in *.
  unfold GoFloat.scale at 1.
  destruct (Z.leb_spec 0 e) as [_|?]; [|lia].
  destruct (Z.ltb_spec m (1 * 2 ^ e)) as [?|_]; [lia|].
  rewrite Z.max_l by lia.
  assert (GoInt.minInt <= m <= GoInt.maxInt) as Hrange.
  { unfold GoInt.minInt, GoInt.maxInt. lia. }
  set (k := 52 - e).
  assert (0 < 2 ^ k) as Hk by (apply Z.pow_pos_nonneg; lia).
  assert (GoFloat.scale m 1 (e - 52) = (m * 2 ^ k, 1)) as ->.
  { unfold GoFloat.scale. destruct (Z.leb_spec 0 (e - 52)).
    - assert (e - 52 = 0) as -> by lia. assert (k = 0) as -> by lia.
      f_equal; lia.
    - f_equal. f_equal. f_equal. lia. }
  cbv beta iota zeta. rewrite Z.div_1_r, Z.mod_1_r.
  change (2 * 0 <? 1) with true. cbv iota.
  assert ((0 <=? e - 52) && (2 ^ 1024 <=? m * 2 ^ k * 2 ^ (e - 52)) = false)
    as ->.
  { destruct (Z.leb_spec 0 (e - 52)); [|reflexivity].
    assert (e - 52 = 0) as -> by lia. assert (k = 0) as -> by lia.
    apply Z.leb_gt.
    assert (2 ^ 53 < 2 ^ 1024) by (apply Z.pow_lt_mono_r; lia). lia. }
  exists (m * 2 ^ k), (e - 52). split; [reflexivity|].
  unfold GoFloat.to_int. cbn [GoFloat.expo GoFloat.mant GoFloat.neg].
  assert ((if 0 <=? e - 52 then m * 2 ^ k * 2 ^ (e - 52)
           else m * 2 ^ k / 2 ^ (- (e - 52))) = m) as ->.
  { destruct (Z.leb_spec 0 (e - 52)).
    - assert (e - 52 = 0) as -> by lia. assert (k = 0) as -> by lia. lia.
    - replace (- (e - 52)) with k by lia. apply Z.div_mul. lia. }
  destruct (Z.leb_spec GoInt.minInt m); [|lia].
  destruct (Z.leb_spec m GoInt.maxInt); [|lia]. reflexivity.
Qed.

(** Where the code does what C9 says: a whole number of gigabytes
    [v], written in decimal digits and followed by [G], [Gn] or [Gc], is
    read as [v * 1000] megabytes, as long as that is below [2^53]. *)
Lemma parseReqMem_whole_G (ds tail : string) (old v : Z) :
  ds ≠ "" → GoStrings.digits_from 0 ds = Some v →
  tail = "G" ∨ tail = "Gn" ∨ tail = "Gc" →
  v * 1000 < 2 ^ 53 →
  Slurm.parseReqMem old (ds ++ tail)%string = Returns (v * 1000).
Proof.
  intros Hne Hv Htail Hsmall.
  pose proof (digits_from_all_digits _ _ _ Hv) as Hds.
  pose proof (digits_from_nonneg 0 _ _ (Z.le_refl 0) Hv) as Hv0.
  unfold Slurm.parseReqMem. rewrite cleanMemStr_whole_G by done.
  unfold GoFloat.ParseFloat.
  rewrite forallb_string_app.
  assert (GoFloat.forallb_string GoFloat.plainByte ds = true) as ->.
  { clear -Hds. induction ds as [|c ds IH]; [reflexivity|].
    cbn [GoFloat.forallb_string] in *.
    apply andb_true_iff in Hds as [Hc Hds].
    by rewrite (isDigit_plainByte c Hc), IH. }
  change (GoFloat.forallb_string GoFloat.plainByte "000") with true.
  cbn [andb].
  assert (GoStrings.split_sign (ds ++ "000")%string
          = (false, (ds ++ "000")%string)) as ->.
  { destruct ds as [|c ds]; [done|].
    cbn [GoFloat.forallb_string] in Hds.
    apply andb_true_iff in Hds as [Hc _].
    destruct (isDigit_not_sign c Hc) as [Hplus Hminus].
    rewrite append_cons. cbn [GoStrings.split_sign].
    by rewrite Hplus, Hminus. }
  assert (GoStrings.digits_from 0 (ds ++ "000")%string = Some (v * 1000))
    as Hall.
  { rewrite digits_from_app, Hv. cbn. f_equal. unfold GoStrings.digit.
    change (Z.of_nat (nat_of_ascii "0")) with 48. lia. }
  rewrite (decimal_from_digits _ _ _ _ Hall).
  destruct (Nat.eqb_spec (0 + String.length (ds ++ "000")%string) 0)
    as [Hlen|_].
  { exfalso. destruct ds; [done|]. rewrite append_cons in Hlen.
    cbn [String.length] in Hlen. lia. }
  change (10 ^ Z.of_nat 0) with 1.
  destruct (round_nearest_even_whole (v * 1000) ltac:(lia))
    as (r & p & -> & ->).
  reflexivity.
Qed.

Lemma parseReqMem_whole_G_witness :
  Slurm.parseReqMem 0 "128Gn" = Returns (128 * 1000).
Proof.
  apply (parseReqMem_whole_G "128" "Gn" 0 128).
  - discriminate.
  - reflexivity.
  - right. left. reflexivity.
  - reflexivity.
Defined.


(** C9, evaluated on the code: the suffix [G] is replaced by the text
    [000] before the number is read, which scales a whole number by 1000
    ([4Gn] gives 4000 MB) but not a number with a fraction: [1.5Gn]
    becomes [1.5000] and gives 1 MB where 1500 MB are requested. *)
Theorem parseJobInfo_fractional_G :
  Slurm.cleanMemStr "1.5Gn" = "1.5000" ∧
  Slurm.parseReqMem 0 "1.5Gn" = Returns 1 ∧
  ReqMemMB_of (Slurm.parseJobInfo (sacct_fields "1.5Gn")) = Some 1 ∧
  ReqMemMB_of (Slurm.parseJobInfo (sacct_fields "62.50G")) = Some 62 ∧
  ReqMemMB_of (Slurm.parseJobInfo (sacct_fields "4Gn")) = Some 4000 ∧
  ReqMemMB_of (Slurm.parseJobInfo (sacct_fields "4000Mc")) = Some 4000.
Proof. repeat split; vm_compute; reflexivity. Qed.

(** * Properties of the further parts *)

(** ** The comparison of fetchData is an ordering *)

(** X1: the comparison passed to [sort.Slice] is a strict weak
    ordering, as [sort] requires of [Less]: no node is before itself,
    the comparison is transitive, and so is being tied. *)
Theorem less_strict_weak_order :
  (∀ a, less a a = false) ∧
  (∀ a b, less a b = true → less b a = false) ∧
  (∀ a b c, less a b = true → less b c = true → less a c = true) ∧
  (∀ a b c, less a b = false → less b c = false → less a c = false).
Proof.
  repeat split; intros *; rewrite !less_rank_key;
    rewrite ?Z.ltb_lt, ?Z.ltb_ge; lia.
Qed.

Lemma less_strict_weak_order_witness :
  less free_node down_node = true ∧ less free_node free_node = false.
Proof.
  split.
  - apply (proj1 (proj2 (proj2 less_strict_weak_order))
             free_node busy_node down_node); vm_compute; reflexivity.
  - apply (proj1 less_strict_weak_order).
Defined.

(** ** Statistics do not depend on the order of the nodes *)

Lemma wrap_add_l a b : GoInt.wrap (GoInt.wrap a + b) = GoInt.wrap (a + b).
Proof.
  unfold GoInt.wrap.
  replace ((a + 2 ^ 63) mod 2 ^ 64 - 2 ^ 63 + b + 2 ^ 63)
    with ((a + 2 ^ 63) mod 2 ^ 64 + b) by lia.
  rewrite Zplus_mod_idemp_l. f_equal. f_equal. lia.
Qed.

Lemma add_add_swap x a b :
  GoInt.add (GoInt.add x a) b = GoInt.add (GoInt.add x b) a.
Proof.
  unfold GoInt.add. rewrite !wrap_add_l. f_equal. lia.
Qed.

Lemma calculateStats_step_swap st a b :
  calculateStats_step (calculateStats_step st a) b
  = calculateStats_step (calculateStats_step st b) a.
Proof.
  unfold calculateStats_step. cbn.
  f_equal; try apply add_add_swap.
  destruct (IsAvailable a), (IsAvailable b);
    first [reflexivity | apply add_add_swap].
Qed.

Lemma fold_calculateStats_perm l l' st :
  l ≡ₚ l' →
  fold_left calculateStats_step l st = fold_left calculateStats_step l' st.
Proof.
  intros Hp. revert st.
  induction Hp as [|x l l' _ IH|x y l|l l' l'' _ IH1 _ IH2]; intros st.
  - reflexivity.
  - cbn. apply IH.
  - cbn. by rewrite calculateStats_step_swap.
  - by rewrite IH1, IH2.
Qed.

Lemma calculateStats_perm l l' :
  l ≡ₚ l' → calculateStats l = calculateStats l'.
Proof.
  intros Hp. unfold calculateStats. by rewrite (fold_calculateStats_perm l l').
Qed.

Lemma fetchData_result (s : Scheduler) (a : App)
    (ns : list Node) (js us : list Job.Job) (st : Stats.ClusterStats) :
  fetchData s a (dataMsg ns js us st) →
  fst (GetNodes s (currentPartition a)) ≡ₚ ns ∧
  SliceIsSorted less ns = true ∧
  js = fst (GetJobs s (currentPartition a)) ∧
  st = calculateStats ns ∧
  st = calculateStats (fst (GetNodes s (currentPartition a))).
Proof.
  unfold fetchData.
  destruct (GetNodes s (currentPartition a)) as [ns0 [e|]]; [discriminate|].
  destruct (GetJobs s (currentPartition a)) as [js0 [e|]]; [discriminate|].
  destruct (GetUserJobs s (currentUser a)) as [us0 eu].
  intros (sorted & [Hp Hs] & Heq). injection Heq as -> -> _ ->.
  cbn [fst]. split; [exact Hp|]. split; [exact Hs|].
  split; [reflexivity|]. split; [reflexivity|].
  symmetry. by apply calculateStats_perm.
Qed.

(** X2: a successful fetch publishes a rearrangement of the nodes the
    adapter returned, the jobs as the adapter returned them, and
    statistics that are those of the adapter's node list: they do not
    depend on how [sort.Slice] arranged the nodes. *)
Theorem fetchData_published (s : Scheduler) (a : App)
    (ns : list Node) (js us : list Job.Job) (st : Stats.ClusterStats) :
  fetchData s a (dataMsg ns js us st) →
  fst (GetNodes s (currentPartition a)) ≡ₚ ns ∧
  SliceIsSorted less ns = true ∧
  js = fst (GetJobs s (currentPartition a)) ∧
  st = calculateStats ns ∧
  st = calculateStats (fst (GetNodes s (currentPartition a))).
Proof. apply fetchData_result. Qed.

Lemma fetchData_published_witness :
  calculateStats [free_node; down_node]
  = calculateStats [down_node; free_node].
Proof.
  assert (fetchData sched_user_fails old_app
            (dataMsg [free_node; down_node] [job_of "ann"] []
               (calculateStats [free_node; down_node]))) as Hm.
  { exists [free_node; down_node].
    split; [split; [apply perm_swap | reflexivity] | reflexivity]. }
  apply (proj2 (proj2 (proj2 (proj2
           (fetchData_published sched_user_fails old_app _ _ _ _ Hm))))).
Defined.

(** ** What the statistics count *)

Lemma wrap_wrap z : GoInt.wrap (GoInt.wrap z) = GoInt.wrap z.
Proof. apply wrap_id, wrap_in_range. Qed.

Lemma fold_calculateStats_fields l st :
  let r := fold_left calculateStats_step l st in
  GoInt.wrap (Stats.TotalNodes r)
    = GoInt.wrap (Stats.TotalNodes st + Z.of_nat (length l)) ∧
  GoInt.wrap (Stats.AvailNodes r)
    = GoInt.wrap (Stats.AvailNodes st + availCount l) ∧
  GoInt.wrap (Stats.TotalCores r)
    = GoInt.wrap (Stats.TotalCores st + sumZ TotalCores l) ∧
  GoInt.wrap (Stats.UsedCores r)
    = GoInt.wrap (Stats.UsedCores st + sumZ UsedCores l) ∧
  GoInt.wrap (Stats.TotalMemoryGB r)
    = GoInt.wrap (Stats.TotalMemoryGB st + sumZ GetTotalMemGB l) ∧
  GoInt.wrap (Stats.UsedMemoryGB r)
    = GoInt.wrap (Stats.UsedMemoryGB st + sumZ GetUsedMemGB l).
Proof.
  cbv zeta. revert st. induction l as [|n l IH]; intros st.
  - unfold availCount, sumZ. cbn. rewrite !Z.add_0_r. done.
  - cbn [fold_left]. destruct (IH (calculateStats_step st n))
      as (H1 & H2 & H3 & H4 & H5 & H6).
    rewrite H1, H2, H3, H4, H5, H6. clear.
    unfold calculateStats_step, availCount, sumZ, GoInt.add.
    cbn [Stats.TotalNodes Stats.AvailNodes Stats.TotalCores Stats.UsedCores
         Stats.TotalMemoryGB Stats.UsedMemoryGB foldr length List.filter].
    repeat split; rewrite ?wrap_add_l; try (f_equal; lia).
    destruct (IsAvailable n); cbn [length];
      rewrite ?wrap_add_l; f_equal; lia.
Qed.

Lemma fold_calculateStats_wrapped l :
  let r := fold_left calculateStats_step l Stats.zero in
  GoInt.wrap (Stats.TotalNodes r) = Stats.TotalNodes r ∧
  GoInt.wrap (Stats.AvailNodes r) = Stats.AvailNodes r ∧
  GoInt.wrap (Stats.TotalCores r) = Stats.TotalCores r ∧
  GoInt.wrap (Stats.UsedCores r) = Stats.UsedCores r ∧
  GoInt.wrap (Stats.TotalMemoryGB r) = Stats.TotalMemoryGB r ∧
  GoInt.wrap (Stats.UsedMemoryGB r) = Stats.UsedMemoryGB r.
Proof.
  cbv zeta.
  enough (∀ st,
    (GoInt.wrap (Stats.TotalNodes st) = Stats.TotalNodes st ∧
     GoInt.wrap (Stats.AvailNodes st) = Stats.AvailNodes st ∧
     GoInt.wrap (Stats.TotalCores st) = Stats.TotalCores st ∧
     GoInt.wrap (Stats.UsedCores st) = Stats.UsedCores st ∧
     GoInt.wrap (Stats.TotalMemoryGB st) = Stats.TotalMemoryGB st ∧
     GoInt.wrap (Stats.UsedMemoryGB st) = Stats.UsedMemoryGB st) →
    let r := fold_left calculateStats_step l st in
     GoInt.wrap (Stats.TotalNodes r) = Stats.TotalNodes r ∧
     GoInt.wrap (Stats.AvailNodes r) = Stats.AvailNodes r ∧
     GoInt.wrap (Stats.TotalCores r) = Stats.TotalCores r ∧
     GoInt.wrap (Stats.UsedCores r) = Stats.UsedCores r ∧
     GoInt.wrap (Stats.TotalMemoryGB r) = Stats.TotalMemoryGB r ∧
     GoInt.wrap (Stats.UsedMemoryGB r) = Stats.UsedMemoryGB r) as H.
  { apply H. vm_compute. repeat split. }
  induction l as [|n l IH]; intros st Hst; [exact Hst|].
  cbn [fold_left]. apply IH. destruct Hst as (? & H2 & _).
  unfold calculateStats_step, GoInt.add.
  cbn [Stats.TotalNodes Stats.AvailNodes Stats.TotalCores Stats.UsedCores
       Stats.TotalMemoryGB Stats.UsedMemoryGB].
  repeat split; try apply wrap_wrap.
  destruct (IsAvailable n); [apply wrap_wrap | exact H2].
Qed.

(** X3: [calculateStats] counts and adds in machine arithmetic: the node
    count is the length of the list, the available count is the number
    of nodes that [IsAvailable] accepts, and each total is the sum of the
    nodes' figures, all wrapped to an [int].  For a list whose length fits
    an [int] both counts are exact and the available count lies between
    zero and the node count. *)
Theorem calculateStats_counts (nodes : list Node) :
  let s := calculateStats nodes in
  (Stats.TotalNodes s = GoInt.wrap (Z.of_nat (length nodes)) ∧
   Stats.AvailNodes s = GoInt.wrap (availCount nodes) ∧
   Stats.TotalCores s = GoInt.wrap (sumZ TotalCores nodes) ∧
   Stats.UsedCores s = GoInt.wrap (sumZ UsedCores nodes) ∧
   Stats.TotalMemoryGB s = GoInt.wrap (sumZ GetTotalMemGB nodes) ∧
   Stats.UsedMemoryGB s = GoInt.wrap (sumZ GetUsedMemGB nodes)) ∧
  (Z.of_nat (length nodes) <= GoInt.maxInt →
   Stats.TotalNodes s = Z.of_nat (length nodes) ∧
   Stats.AvailNodes s = availCount nodes ∧
   0 <= Stats.AvailNodes s <= Stats.TotalNodes s).
Proof.
  cbv zeta.
  destruct (fold_calculateStats_fields nodes Stats.zero)
    as (H1 & H2 & H3 & H4 & H5 & H6).
  destruct (fold_calculateStats_wrapped nodes)
    as (W1 & W2 & W3 & W4 & W5 & W6).
  cbv zeta in *. rewrite W1 in H1. rewrite W2 in H2. rewrite W3 in H3.
  rewrite W4 in H4. rewrite W5 in H5. rewrite W6 in H6.
  cbn [Stats.TotalNodes Stats.AvailNodes Stats.TotalCores Stats.UsedCores
       Stats.TotalMemoryGB Stats.UsedMemoryGB Stats.zero Z.add] in *.
  assert (0 <= availCount nodes <= Z.of_nat (length nodes)) as Hcount.
  { unfold availCount. pose proof (List.filter_length_le IsAvailable nodes).
    lia. }
  unfold calculateStats.
  cbn [Stats.TotalNodes Stats.AvailNodes Stats.TotalCores Stats.UsedCores
       Stats.TotalMemoryGB Stats.UsedMemoryGB].
  split; [done|]. intros Hlen. rewrite H1, H2.
  rewrite !wrap_id; [lia| |];
    unfold GoInt.in_range, GoInt.minInt, GoInt.maxInt in *; lia.
Qed.

Lemma calculateStats_counts_witness :
  Stats.TotalNodes (calculateStats thirteen) = 13 ∧
  Stats.AvailNodes (calculateStats thirteen) = availCount thirteen.
Proof.
  assert (Z.of_nat (length thirteen) <= GoInt.maxInt) as Hlen
    by (vm_compute; discriminate).
  destruct (proj2 (calculateStats_counts thirteen) Hlen) as (H1 & H2 & _).
  split; [exact H1 | exact H2].
Defined.

(** ** Invariants of the event loop *)

Lemma fetchData_consistent s a0 ns js us st :
  fetchData s a0 (dataMsg ns js us st) → st = calculateStats ns.
Proof. intros H. by apply fetchData_result in H as (_ & _ & _ & ? & _). Qed.

Lemma reachable_partition_stats (backend : Scheduler → Prop)
    (partition userEnv : string) (a : App) :
  reachable backend (NewApp partition userEnv) a →
  snapshot_consistent a ∧
  currentUser a = currentUser (NewApp partition userEnv) ∧
  (currentPartition a = partition ∨ currentPartition a ∈ partitions).
Proof.
  induction 1 as [|a now m Hr IH Hnd Hne|a a0 s now m Hr IH Hr0 _ Hs Hm].
  - split; [reflexivity|]. split; [reflexivity|]. by left.
  - destruct IH as (Hc & Hu & Hp).
    destruct m as [w h|k| |ns js us st|e];
      [| |  |by destruct (Hnd ns js us st)|by destruct (Hne e)].
    + done.
    + destruct k; cbn; (split; [exact Hc|]); (split; [exact Hu|]);
        first [exact Hp | right; unfold partitions; rewrite !elem_of_cons;
                         auto].
    + done.
  - destruct IH as (Hc & Hu & Hp).
    destruct m as [w h|k| |ns js us st|e].
    + done.
    + destruct k; cbn; (split; [exact Hc|]); (split; [exact Hu|]);
        first [exact Hp | right; unfold partitions; rewrite !elem_of_cons;
                         auto].
    + done.
    + cbn. split; [|done]. unfold snapshot_consistent. cbn.
      by eapply fetchData_consistent.
    + done.
Qed.

(** X4: in every state the event loop reaches from [NewApp], whatever
    the backend answers and whatever the order in which the results of
    the fetch commands arrive, the
    published statistics are those of the published node list, the user
    is the one found at start-up, and the partition is the one given at
    start-up or one selected by a hot key. *)
Theorem reachable_invariants (backend : Scheduler → Prop)
    (partition userEnv : string) (a : App) :
  reachable backend (NewApp partition userEnv) a →
  snapshot_consistent a ∧
  currentUser a = currentUser (NewApp partition userEnv) ∧
  (currentPartition a = partition ∨ currentPartition a ∈ partitions).
Proof. apply reachable_partition_stats. Qed.

Lemma reachable_invariants_witness :
  snapshot_consistent
    (fst (Update 5 (NewApp "batch" "bob") (KeyMsg KeyGPU))) ∧
  currentPartition (fst (Update 5 (NewApp "batch" "bob") (KeyMsg KeyGPU)))
  = "gpu_q".
Proof.
  split; [|reflexivity].
  apply (reachable_invariants (λ _, True) "batch" "bob").
  apply reach_event; [apply reach_init | discriminate | discriminate].
Defined.

(** ** Node listings *)

Lemma Slurm_GetNodes_flush_in partition ns info :
  Forall (λ n, partition ∈ Partitions n) ns →
  Forall (λ n, partition ∈ Partitions n)
         (Slurm.GetNodes_flush partition ns info).
Proof.
  intros Hns. unfold Slurm.GetNodes_flush.
  destruct (Slurm.parseNodeInfo info) as [node [e|]]; [exact Hns|].
  destruct (Slurm.nodeInPartition node partition) eqn:Hin; [|exact Hns].
  apply Forall_app. split; [exact Hns|].
  apply Forall_cons_2; [|apply Forall_nil_2].
  unfold Slurm.nodeInPartition in Hin. apply existsb_exists in Hin.
  destruct Hin as (p & Hp & Heq). apply String.eqb_eq in Heq. subst p.
  by apply list_elem_of_In.
Qed.

(** X6: a node listing never succeeds with nothing: for both adapters
    the error is [nil] exactly when at least one node is returned, and a
    failed command returns no node. *)
Theorem GetNodes_error_iff_empty (out : CmdOutput) (partition : string) :
  (snd (Slurm.GetNodes out partition) = None ↔
   fst (Slurm.GetNodes out partition) ≠ []) ∧
  (snd (Torque.GetNodes out partition) = None ↔
   fst (Torque.GetNodes out partition) ≠ []) ∧
  (snd out ≠ None →
   fst (Slurm.GetNodes out partition) = [] ∧
   fst (Torque.GetNodes out partition) = []).
Proof.
  destruct out as [lines [e|]]; cbn [snd].
  { repeat split; try done; cbn; intros H; by destruct H. }
  split; [|split; [|done]].
  - unfold Slurm.GetNodes.
    destruct (fold_left _ lines _) as [ns info].
    destruct (if negb (String.eqb info "") then _ else ns) as [|n l];
      cbn; split; done.
  - unfold Torque.GetNodes.
    destruct (fold_left _ lines _) as [|n l]; cbn; split; done.
Qed.

Lemma GetNodes_error_iff_empty_witness :
  fst (Slurm.GetNodes ([], Some "exit status 1") "batch") = [].
Proof.
  apply (proj2 (proj2 (GetNodes_error_iff_empty ([], Some "exit status 1")
                         "batch"))).
  discriminate.
Defined.

(** X7: every node the SLURM adapter returns lists the requested
    partition among its partitions. *)
Theorem Slurm_GetNodes_in_partition (out : CmdOutput) (partition : string)
    (n : Node) :
  n ∈ fst (Slurm.GetNodes out partition) → partition ∈ Partitions n.
Proof.
  revert n. apply Forall_forall.
  destruct out as [lines [e|]]; [constructor|].
  unfold Slurm.GetNodes.
  assert (∀ st, Forall (λ n, partition ∈ Partitions n) (fst st) →
            Forall (λ n, partition ∈ Partitions n)
              (fst (fold_left (Slurm.GetNodes_step partition) lines st)))
    as Hfold.
  { induction lines as [|l lines IH]; intros st Hst; [exact Hst|].
    cbn [fold_left]. apply IH. destruct st as [ns info].
    unfold Slurm.GetNodes_step.
    destruct (GoStrings.Contains l "NodeName="); [|exact Hst].
    destruct (negb (String.eqb info "")); [|exact Hst].
    cbn [fst]. apply Slurm_GetNodes_flush_in, Hst. }
  specialize (Hfold ([], "") (Forall_nil_2 _)).
  destruct (fold_left _ lines _) as [ns info]. cbn [fst] in Hfold.
  assert (Forall (λ n, partition ∈ Partitions n)
            (if negb (String.eqb info "")
             then Slurm.GetNodes_flush partition ns info else ns)) as Hns.
  { destruct (negb _); [by apply Slurm_GetNodes_flush_in | exact Hfold]. }
  destruct (length _ =? 0)%nat; [constructor | exact Hns].
Qed.

Lemma Slurm_GetNodes_in_partition_witness :
  "batch" ∈ Partitions (mkNode "n1" StateIdle 8 2 64000 1000 ["batch"] []).
Proof.
  apply (Slurm_GetNodes_in_partition scontrol_report "batch").
  vm_compute. apply elem_of_cons. left. reflexivity.
Defined.

(** ** Splitting at a byte *)

Lemma prefix_char c x s :
  String.prefix (String c EmptyString) (String x s) = Ascii.eqb x c.
Proof.
  cbn. destruct (ascii_dec c x) as [->|Hne].
  - rewrite Ascii.eqb_refl. by destruct s.
  - symmetry. apply Ascii.eqb_neq. congruence.
Qed.

Lemma lacks_cons c x s :
  lacks c (String x s) ↔ Ascii.eqb x c = false ∧ lacks c s.
Proof.
  unfold lacks. cbn [GoFloat.forallb_string].
  rewrite andb_true_iff, negb_true_iff. tauto.
Qed.

Lemma lacks_app c a b : lacks c (a ++ b)%string ↔ lacks c a ∧ lacks c b.
Proof.
  unfold lacks. rewrite forallb_string_app, andb_true_iff. tauto.
Qed.

Lemma Split_from_char_app a c rest :
  lacks c a →
  GoStrings.Split_from 0 (a ++ String c rest)%string (String c EmptyString)
  = (a, GoStrings.Split rest (String c EmptyString)).
Proof.
  induction a as [|x a IH]; intros Ha.
  - change (("" ++ String c rest)%string) with (String c rest).
    cbn [GoStrings.Split_from]. rewrite prefix_char, Ascii.eqb_refl.
    cbn [String.length Nat.pred]. unfold GoStrings.Split.
    by destruct (GoStrings.Split_from 0 rest _).
  - apply lacks_cons in Ha as [Hx Ha]. rewrite append_cons.
    cbn [GoStrings.Split_from]. rewrite prefix_char, Hx, IH by done.
    reflexivity.
Qed.

Lemma Split_char_app a c rest :
  lacks c a →
  GoStrings.Split (a ++ String c rest)%string (String c EmptyString)
  = a :: GoStrings.Split rest (String c EmptyString).
Proof.
  intros Ha. unfold GoStrings.Split at 1.
  by rewrite Split_from_char_app.
Qed.

Lemma Split_char_none a c :
  lacks c a → GoStrings.Split a (String c EmptyString) = [a].
Proof.
  intros Ha. unfold GoStrings.Split.
  enough (GoStrings.Split_from 0 a (String c EmptyString) = (a, [])) as ->
    by done.
  induction a as [|x a IH]; [reflexivity|].
  apply lacks_cons in Ha as [Hx Ha].
  cbn [GoStrings.Split_from]. by rewrite prefix_char, Hx, IH.
Qed.

Lemma Contains_char_lacks a c :
  lacks c a → GoStrings.Contains a (String c EmptyString) = false.
Proof.
  induction a as [|x a IH]; intros Ha; [reflexivity|].
  apply lacks_cons in Ha as [Hx Ha].
  cbn [GoStrings.Contains]. by rewrite prefix_char, Hx, IH.
Qed.

(** ** Node states *)

Lemma Slurm_parseNodeState_range state :
  Slurm.parseNodeState state ∈ all_states.
Proof.
  unfold Slurm.parseNodeState, all_states.
  repeat (match goal with
          | |- context [if ?b then _ else _] => destruct b
          end); rewrite !elem_of_cons; auto 10.
Qed.

Lemma Torque_parseNodeState_range state :
  Torque.parseNodeState state
    ∈ [StateIdle; StateBusy; StateDown; StateOffline].
Proof.
  unfold Torque.parseNodeState.
  repeat (match goal with
          | |- context [if ?b then _ else _] => destruct b
          end); rewrite !elem_of_cons; auto 10.
Qed.

(** X8: a SLURM state text in ASCII is classified by what stands
    before the first [+]: flags appended with [+] do not change the
    state.  The result is always one of the six states of the data
    model, a text that is not recognised giving Busy. *)
Theorem Slurm_parseNodeState_flags (base flags : string) :
  is_ascii base → lacks "+" base →
  Slurm.parseNodeState (base ++ "+" ++ flags)%string
  = Slurm.parseNodeState base ∧
  Slurm.parseNodeState base ∈ all_states ∧
  (GoStrings.ToLower base
     ∉ ["idle"; "allocated"; "mixed"; "down"; "offline"; "drained"; "drain"]
   → Slurm.parseNodeState base = StateBusy).
Proof.
  intros _ Hbase. split; [|split; [apply Slurm_parseNodeState_range|]].
  - unfold Slurm.parseNodeState.
    change ("+" ++ flags)%string with (String "+" flags).
    by rewrite Split_char_app, (Split_char_none base).
  - intros Hnot. unfold Slurm.parseNodeState.
    rewrite Split_char_none by done. cbn [nth].
    rewrite !not_elem_of_cons in Hnot.
    destruct Hnot as (H1 & H2 & H3 & H4 & H5 & H6 & H7 & _).
    apply String.eqb_neq in H1, H2, H3, H4, H5, H6, H7.
    by rewrite H1, H2, H3, H4, H5, H6, H7.
Qed.

Lemma Slurm_parseNodeState_flags_witness :
  Slurm.parseNodeState "MIXED+CLOUD+DRAIN" = Slurm.parseNodeState "MIXED" ∧
  Slurm.parseNodeState "RESERVED" = StateBusy.
Proof.
  split.
  - apply (Slurm_parseNodeState_flags "MIXED" "CLOUD+DRAIN");
      [vm_compute; reflexivity | reflexivity].
  - apply (Slurm_parseNodeState_flags "RESERVED" "");
      [vm_compute; reflexivity | reflexivity |].
    vm_compute. intros H.
    repeat (apply elem_of_cons in H as [H|H]; [discriminate H|]).
    by apply elem_of_nil in H.
Defined.

Lemma Torque_parseNodeInfo_state line :
  snd (Torque.parseNodeInfo line) = None →
  State (fst (Torque.parseNodeInfo line))
    ∈ [StateIdle; StateBusy; StateDown; StateOffline].
Proof.
  unfold Torque.parseNodeInfo.
  destruct (_ <? 4)%nat; [discriminate|]. intros _. cbn [fst].
  set (fields := GoStrings.Split (Torque.collapseSpaces line) " ").
  pose proof (Torque_parseNodeState_range (nth 1 fields "")) as Hst.
  repeat first
    [ match goal with
      | |- context [GoStrings.Atoi ?x] =>
          destruct (GoStrings.Atoi x) as [? []]
      end
    | match goal with
      | |- context [match GoStrings.Split ?a ?b with _ => _ end] =>
          destruct (GoStrings.Split a b) as [|? [|? [|? ?]]]
      end ];
    exact Hst.
Qed.

(** X9: the Torque adapter reports a node as Idle, Busy, Down or
    Offline and never as Running or Drained; a Torque node is therefore
    available only when the scheduler calls it free. *)
Theorem Torque_GetNodes_states (out : CmdOutput) (partition : string)
    (n : Node) :
  n ∈ fst (Torque.GetNodes out partition) →
  State n ∈ [StateIdle; StateBusy; StateDown; StateOffline] ∧
  (IsAvailable n = true → State n = StateIdle).
Proof.
  intros Hn.
  assert (State n ∈ [StateIdle; StateBusy; StateDown; StateOffline]) as Hst.
  { revert n Hn. apply Forall_forall.
    destruct out as [lines [e|]]; [constructor|]. unfold Torque.GetNodes.
    assert (∀ ns,
      Forall (λ n, State n ∈ [StateIdle; StateBusy; StateDown; StateOffline])
             ns →
      Forall (λ n, State n ∈ [StateIdle; StateBusy; StateDown; StateOffline])
             (fold_left (Torque.GetNodes_step partition) lines ns)) as Hfold.
    { induction lines as [|l lines IH]; intros ns Hns; [exact Hns|].
      cbn [fold_left]. apply IH. unfold Torque.GetNodes_step.
      destruct (Torque.lineInPartition partition l); [|exact Hns].
      pose proof (Torque_parseNodeInfo_state l) as Hl.
      destruct (Torque.parseNodeInfo l) as [node [e|]]; [exact Hns|].
      apply Forall_app. split; [exact Hns|].
      apply Forall_cons_2; [by apply Hl | apply Forall_nil_2]. }
    specialize (Hfold [] (Forall_nil_2 _)).
    destruct (length _ =? 0)%nat; [constructor | exact Hfold]. }
  split; [exact Hst|].
  intros Hav. apply IsAvailable_true in Hav as [[Hi|Hr] _]; [exact Hi|].
  rewrite Hr in Hst. exfalso.
  repeat (apply elem_of_cons in Hst as [Hst|Hst]; [discriminate Hst|]).
  by apply elem_of_nil in Hst.
Qed.

Lemma Torque_GetNodes_states_witness :
  State (fst (Torque.parseNodeInfo mdiag_line2))
    ∈ [StateIdle; StateBusy; StateDown; StateOffline].
Proof.
  apply (Torque_GetNodes_states ([mdiag_line1; mdiag_line2], None) "batch").
  vm_compute. apply elem_of_cons. right. apply elem_of_cons. left.
  reflexivity.
Defined.

(** ** Durations *)

Lemma digits_lack c s v acc :
  GoStrings.isDigit c = false →
  GoStrings.digits_from acc s = Some v → lacks c s.
Proof.
  intros Hc. revert acc. induction s as [|x s IH]; intros acc Hs;
    [reflexivity|].
  cbn [GoStrings.digits_from] in Hs.
  destruct (GoStrings.isDigit x) eqn:Hx; [|discriminate].
  apply lacks_cons. split; [|by eapply IH].
  apply Ascii.eqb_neq. congruence.
Qed.

Lemma Contains_char_app a c rest :
  GoStrings.Contains (a ++ String c rest)%string (String c EmptyString)
  = true.
Proof.
  induction a as [|x a IH].
  - change (("" ++ String c rest)%string) with (String c rest).
    cbn [GoStrings.Contains]. by rewrite prefix_char, Ascii.eqb_refl.
  - rewrite append_cons. cbn [GoStrings.Contains]. rewrite IH.
    apply orb_true_r.
Qed.

Lemma Atoi_digits s v :
  GoStrings.digits_from 0 s = Some v → v <= GoInt.maxInt →
  fst (GoStrings.Atoi s) = v.
Proof.
  intros Hs Hv. pose proof (digits_from_nonneg 0 s v (Z.le_refl 0) Hs) as H0.
  unfold GoStrings.Atoi. destruct s as [|c s].
  { cbn in Hs. by injection Hs as <-. }
  assert (GoStrings.isDigit c = true) as Hc.
  { cbn [GoStrings.digits_from] in Hs.
    destruct (GoStrings.isDigit c); [reflexivity | discriminate Hs]. }
  destruct (isDigit_not_sign c Hc) as [Hplus Hminus].
  cbn [GoStrings.split_sign]. rewrite Hplus, Hminus, Hs.
  destruct (Z.ltb_spec v GoInt.minInt).
  { unfold GoInt.minInt in *. lia. }
  destruct (Z.ltb_spec GoInt.maxInt v); [lia|]. reflexivity.
Qed.

Lemma parseTimeString_plain h m s vh vm vs :
  GoStrings.digits_from 0 h = Some vh →
  GoStrings.digits_from 0 m = Some vm →
  GoStrings.digits_from 0 s = Some vs →
  (vh * 3600 + vm * 60 + vs) * 1000000000 <= GoInt.maxInt →
  Slurm.parseTimeString (h ++ ":" ++ m ++ ":" ++ s)%string
  = ((vh * 3600 + vm * 60 + vs) * 1000000000, None).
Proof.
  intros Hh Hm Hs Hmax.
  pose proof (digits_from_nonneg 0 _ _ (Z.le_refl 0) Hh).
  pose proof (digits_from_nonneg 0 _ _ (Z.le_refl 0) Hm).
  pose proof (digits_from_nonneg 0 _ _ (Z.le_refl 0) Hs).
  assert (∀ c, GoStrings.isDigit c = false →
               lacks c h ∧ lacks c m ∧ lacks c s) as Hlack.
  { intros c Hc. split; [|split]; eapply digits_lack; eassumption. }
  destruct (Hlack ":"%char eq_refl) as (Lh & Lm & Ls).
  destruct (Hlack "-"%char eq_refl) as (Dh & Dm & Ds).
  unfold Slurm.parseTimeString.
  change (":" ++ m ++ ":" ++ s)%string with (String ":" (m ++ String ":" s)).
  destruct (String.eqb_spec (h ++ String ":" (m ++ String ":" s)) "")
    as [Hempty|_].
  { destruct h; discriminate Hempty. }
  rewrite Contains_char_lacks.
  2:{ apply lacks_app. split; [done|]. apply lacks_cons. split; [done|].
      apply lacks_app. split; [done|]. by apply lacks_cons. }
  rewrite Split_char_app, Split_char_app, Split_char_none by done.
  unfold GoInt.maxInt in Hmax.
  rewrite !Atoi_digits with (v := vh), !Atoi_digits with (v := vm),
    !Atoi_digits with (v := vs) by (unfold GoInt.maxInt; first [done | lia]).
  f_equal. unfold GoInt.add, GoInt.mul. change (0 * 24) with 0.
  change (GoInt.wrap 0) with 0. change (0 * 3600) with 0.
  change (GoInt.wrap 0) with 0.
  assert (∀ z, 0 <= z <= 2 ^ 63 - 1 → GoInt.wrap z = z) as Hw.
  { intros z Hz. apply wrap_id.
    unfold GoInt.in_range, GoInt.minInt, GoInt.maxInt. lia. }
  rewrite (Hw (vh * 3600)), (Hw (vm * 60)) by lia.
  rewrite (Hw (0 + vh * 3600)) by lia.
  rewrite (Hw (0 + vh * 3600 + vm * 60)) by lia.
  rewrite (Hw (0 + vh * 3600 + vm * 60 + vs)) by lia.
  rewrite Hw by lia. lia.
Qed.

Lemma parseTimeString_days d h m s vd vh vm vs :
  GoStrings.digits_from 0 d = Some vd →
  GoStrings.digits_from 0 h = Some vh →
  GoStrings.digits_from 0 m = Some vm →
  GoStrings.digits_from 0 s = Some vs →
  (vd * 86400 + vh * 3600 + vm * 60 + vs) * 1000000000 <= GoInt.maxInt →
  Slurm.parseTimeString (d ++ "-" ++ h ++ ":" ++ m ++ ":" ++ s)%string
  = ((vd * 86400 + vh * 3600 + vm * 60 + vs) * 1000000000, None).
Proof.
  intros Hd Hh Hm Hs Hmax.
  pose proof (digits_from_nonneg 0 _ _ (Z.le_refl 0) Hd).
  pose proof (digits_from_nonneg 0 _ _ (Z.le_refl 0) Hh).
  pose proof (digits_from_nonneg 0 _ _ (Z.le_refl 0) Hm).
  pose proof (digits_from_nonneg 0 _ _ (Z.le_refl 0) Hs).
  assert (∀ c, GoStrings.isDigit c = false →
               lacks c d ∧ lacks c h ∧ lacks c m ∧ lacks c s) as Hlack.
  { intros c Hc. split; [|split; [|split]]; eapply digits_lack; eassumption. }
  destruct (Hlack ":"%char eq_refl) as (Ld & Lh & Lm & Ls).
  destruct (Hlack "-"%char eq_refl) as (Dd & Dh & Dm & Ds).
  unfold Slurm.parseTimeString.
  change ("-" ++ h ++ ":" ++ m ++ ":" ++ s)%string
    with (String "-" (h ++ String ":" (m ++ String ":" s))).
  destruct (String.eqb_spec
              (d ++ String "-" (h ++ String ":" (m ++ String ":" s))) "")
    as [Hempty|_].
  { destruct d; discriminate Hempty. }
  rewrite Contains_char_app.
  rewrite (Split_char_app d) by done.
  rewrite (Split_char_none (h ++ String ":" (m ++ String ":" s))).
  2:{ apply lacks_app. split; [done|]. apply lacks_cons. split; [done|].
      apply lacks_app. split; [done|]. by apply lacks_cons. }
  rewrite Split_char_app, Split_char_app, Split_char_none by done.
  unfold GoInt.maxInt in Hmax.
  rewrite !Atoi_digits with (v := vd), !Atoi_digits with (v := vh),
    !Atoi_digits with (v := vm), !Atoi_digits with (v := vs)
    by (unfold GoInt.maxInt; first [done | lia]).
  f_equal. unfold GoInt.add, GoInt.mul.
  assert (∀ z, 0 <= z <= 2 ^ 63 - 1 → GoInt.wrap z = z) as Hw.
  { intros z Hz. apply wrap_id.
    unfold GoInt.in_range, GoInt.minInt, GoInt.maxInt. lia. }
  rewrite (Hw (vd * 24)) by lia. rewrite (Hw (vd * 24 * 3600)) by lia.
  rewrite (Hw (vh * 3600)), (Hw (vm * 60)) by lia.
  rewrite (Hw (vd * 24 * 3600 + vh * 3600)) by lia.
  rewrite (Hw (vd * 24 * 3600 + vh * 3600 + vm * 60)) by lia.
  rewrite (Hw (vd * 24 * 3600 + vh * 3600 + vm * 60 + vs)) by lia.
  rewrite Hw by lia. lia.
Qed.

Lemma parseTimeString_no_colon t :
  lacks ":" t → lacks "-" t → Slurm.parseTimeString t = (0, None).
Proof.
  intros Hc Hd. unfold Slurm.parseTimeString.
  destruct (String.eqb t ""); [reflexivity|].
  rewrite Contains_char_lacks, Split_char_none by done. reflexivity.
Qed.

(** X10: [parseTimeString] reads [HH:MM:SS] as
    [HH*3600 + MM*60 + SS] seconds and [D-HH:MM:SS] with [D*86400]
    seconds more, in nanoseconds, whenever that fits a duration; a
    missing day part counts as zero days.  A text without [:] and
    without [-], such as an empty field or [UNLIMITED], gives the zero
    duration, and no text gives an error. *)
Theorem parseTimeString_value (d h m s : string) (vd vh vm vs : Z) :
  GoStrings.digits_from 0 d = Some vd →
  GoStrings.digits_from 0 h = Some vh →
  GoStrings.digits_from 0 m = Some vm →
  GoStrings.digits_from 0 s = Some vs →
  (vd * 86400 + vh * 3600 + vm * 60 + vs) * 1000000000 <= GoInt.maxInt →
  Slurm.parseTimeString (d ++ "-" ++ h ++ ":" ++ m ++ ":" ++ s)%string
  = ((vd * 86400 + vh * 3600 + vm * 60 + vs) * 1000000000, None) ∧
  Slurm.parseTimeString (h ++ ":" ++ m ++ ":" ++ s)%string
  = ((vh * 3600 + vm * 60 + vs) * 1000000000, None) ∧
  (∀ t, lacks ":" t → lacks "-" t → Slurm.parseTimeString t = (0, None)) ∧
  (∀ t, snd (Slurm.parseTimeString t) = None).
Proof.
  intros Hd Hh Hm Hs Hmax.
  pose proof (digits_from_nonneg 0 _ _ (Z.le_refl 0) Hd).
  split; [by apply parseTimeString_days|].
  split; [apply parseTimeString_plain; try done; lia|].
  split; [apply parseTimeString_no_colon|].
  intros t. unfold Slurm.parseTimeString.
  destruct (String.eqb t ""); [reflexivity|].
  destruct (GoStrings.Contains t "-");
    [destruct (GoStrings.Split t "-") as [|? [|t' [|? ?]]]|];
    match goal with
    | |- context [GoStrings.Split ?x ":"] =>
        destruct (GoStrings.Split x ":") as [|? [|? [|? [|? ?]]]]
    end; reflexivity.
Qed.

Lemma parseTimeString_value_witness :
  Slurm.parseTimeString "2-12:30:45" = (217845 * 1000000000, None) ∧
  Slurm.parseTimeString "12:30:45" = (45045 * 1000000000, None) ∧
  Slurm.parseTimeString "UNLIMITED" = (0, None).
Proof.
  assert ((2 * 86400 + 12 * 3600 + 30 * 60 + 45) * 1000000000
          <= GoInt.maxInt) as Hmax by (vm_compute; discriminate).
  destruct (parseTimeString_value "2" "12" "30" "45" 2 12 30 45
              eq_refl eq_refl eq_refl eq_refl Hmax) as (H1 & H2 & H3 & _).
  split; [exact H1|]. split; [exact H2|]. apply H3; reflexivity.
Defined.

(** ** SLURM job listings *)

Lemma parseReqMem_cases old field :
  if mem_open field
  then Slurm.parseReqMem old field = Unspecified
  else ∃ v, Slurm.parseReqMem old field = Returns v.
Proof.
  unfold mem_open, Slurm.parseReqMem.
  destruct (GoFloat.ParseFloat _) as [f| |]; [|by eauto|done].
  destruct (GoFloat.to_int f); [by eauto | done].
Qed.

(** What [parseJobInfo] does to a record of twelve columns or more. *)
Lemma Slurm_parseJobInfo_cases (fields : list string) :
  (12 <= length fields)%nat →
  match Slurm.parseJobInfo fields with
  | Returns (job, e) =>
      e = None ∧ mem_open (nth 8 fields "") = false ∧
      (∃ c rest, nth 5 fields "" = String c rest ∧
                 Job.State job = String c EmptyString) ∧
      Job.Partition job = nth 0 fields ""
  | Panics => nth 5 fields "" = ""
  | Unspecified =>
      nth 5 fields "" ≠ "" ∧ mem_open (nth 8 fields "") = true
  end.
Proof.
  intros Hlen. unfold Slurm.parseJobInfo.
  destruct (Nat.ltb_spec (length fields) 12); [lia|].
  destruct (nth 5 fields "") as [|c rest] eqn:H5; [reflexivity|].
  cbn [Slurm.firstByte].
  pose proof (parseReqMem_cases 0 (nth 8 fields "")) as Hmem.
  destruct (mem_open (nth 8 fields "")).
  - rewrite Hmem. done.
  - destruct Hmem as [v ->]. cbn [Job.Partition Job.State]. by eauto 10.
Qed.

Lemma Slurm_parseJobInfo_fields fields job e :
  Slurm.parseJobInfo fields = Returns (job, e) →
  e = None →
  Job.Partition job = nth 0 fields "" ∧
  ∃ c rest, nth 5 fields "" = String c rest ∧
            Job.State job = String c EmptyString.
Proof.
  unfold Slurm.parseJobInfo.
  destruct (length fields <? 12)%nat.
  { intros [= <- <-]. discriminate. }
  destruct (nth 5 fields "") as [|c rest] eqn:H5; [discriminate|].
  cbn [Slurm.firstByte].
  destruct (Slurm.parseReqMem 0 (nth 8 fields "")); try discriminate.
  intros [= <- <-] _. cbn [Job.Partition Job.State]. eauto.
Qed.

Lemma Slurm_parseJobInfo_first_byte (fields : list string) (job : Job.Job) :
  Slurm.parseJobInfo fields = Returns (job, None) →
  (Job.State job = JobRunning ↔
   ∃ rest, nth 5 fields "" = String "R" rest) ∧
  Job.State job ≠ JobPending ∧ Job.State job ≠ JobCancelled ∧
  Job.Partition job = nth 0 fields "".
Proof.
  intros Hp.
  destruct (Slurm_parseJobInfo_fields _ _ _ Hp eq_refl)
    as (Hpart & c & rest & H5 & Hst).
  rewrite Hst, H5. unfold JobRunning, JobPending, JobCancelled.
  split; [|split; [|split]]; try done.
  split.
  - intros [= ->]. eauto.
  - intros (rest' & [= -> _]). reflexivity.
Qed.

(** X11: what the SLURM adapter makes of a record of twelve columns or
    more.  It panics exactly when the state column is empty.  Otherwise
    it returns the job without error, unless the memory column is
    converted with a result that Go leaves to the implementation.  The
    state of a returned job is the first byte of the state column: the
    job counts as running exactly when that column begins with [R]
    (RUNNING, and also REQUEUED or RESIZING), it is never in the
    two-letter states Pending ([PD]) or Cancelled ([CA]), and its
    partition is the first column. *)
Theorem Slurm_parseJobInfo_state (fields : list string) :
  (12 <= length fields)%nat →
  match Slurm.parseJobInfo fields with
  | Returns (job, e) =>
      e = None ∧
      nth 5 fields "" ≠ "" ∧ mem_open (nth 8 fields "") = false ∧
      (Job.State job = JobRunning ↔
       ∃ rest, nth 5 fields "" = String "R" rest) ∧
      Job.State job ≠ JobPending ∧ Job.State job ≠ JobCancelled ∧
      Job.Partition job = nth 0 fields ""
  | Panics => nth 5 fields "" = ""
  | Unspecified =>
      nth 5 fields "" ≠ "" ∧ mem_open (nth 8 fields "") = true
  end.
Proof.
  intros Hlen. pose proof (Slurm_parseJobInfo_cases fields Hlen) as H.
  destruct (Slurm.parseJobInfo fields) as [[job e]| |] eqn:Hp; [|done|done].
  destruct H as (-> & Hmem & (c & rest & H5 & Hst) & Hpart).
  split; [done|]. split; [by rewrite H5|]. split; [done|].
  by apply Slurm_parseJobInfo_first_byte.
Qed.

Lemma Slurm_parseJobInfo_state_witness :
  Slurm.parseJobInfo requeued_fields = Returns (requeued_job, None) ∧
  Job.State requeued_job = JobRunning.
Proof.
  assert ((12 <= length requeued_fields)%nat) as Hlen by (vm_compute; lia).
  pose proof (Slurm_parseJobInfo_state requeued_fields Hlen) as H.
  assert (Slurm.parseJobInfo requeued_fields = Returns (requeued_job, None))
    as Hp by (vm_compute; reflexivity).
  rewrite Hp in H. split; [reflexivity|].
  apply (proj1 (proj2 (proj2 (proj2 H)))). exists "EQUEUED". reflexivity.
Defined.

Lemma SlurmJobs_step_invariant partition acc line jobs' :
  (∀ jobs, acc = Returns jobs →
     Forall (λ j, Job.State j = JobRunning ∧ Job.Partition j = partition)
            jobs) →
  SlurmJobs.GetJobs_step partition acc line = Returns jobs' →
  Forall (λ j, Job.State j = JobRunning ∧ Job.Partition j = partition) jobs'.
Proof.
  intros Hacc. unfold SlurmJobs.GetJobs_step.
  destruct acc as [jobs| |]; [|discriminate|discriminate].
  specialize (Hacc jobs eq_refl).
  destruct (GoStrings.Contains line ".extern"); [by intros [= <-]|].
  destruct (length _ <? 12)%nat; [by intros [= <-]|].
  destruct (String.eqb_spec (nth 0 (GoStrings.Split line "|") "") partition)
    as [Hpart|_]; [|by intros [= <-]].
  destruct (Slurm.parseJobInfo _) as [[job [e|]]| |] eqn:Hparse;
    [by intros [= <-]| |discriminate|discriminate].
  destruct (String.eqb_spec (Job.State job) JobRunning) as [Hrun|_];
    [|by intros [= <-]].
  intros [= <-]. apply Forall_app. split; [exact Hacc|].
  apply Forall_cons_2; [|apply Forall_nil_2]. split; [exact Hrun|].
  apply Slurm_parseJobInfo_first_byte in Hparse as (_ & _ & _ & ->). exact Hpart.
Qed.

Lemma SlurmJobs_GetJobs_Panics partition ls :
  fold_left (SlurmJobs.GetJobs_step partition) ls Panics = Panics.
Proof. induction ls as [|l ls IH]; [reflexivity | exact IH]. Qed.

Lemma SlurmJobs_GetUserJobs_Panics ls :
  fold_left SlurmJobs.GetUserJobs_step ls Panics = Panics.
Proof. induction ls as [|l ls IH]; [reflexivity | exact IH]. Qed.

Lemma SlurmJobs_GetJobs_Unspecified partition ls :
  fold_left (SlurmJobs.GetJobs_step partition) ls Unspecified = Unspecified.
Proof. induction ls as [|l ls IH]; [reflexivity | exact IH]. Qed.

Lemma SlurmJobs_GetUserJobs_Unspecified ls :
  fold_left SlurmJobs.GetUserJobs_step ls Unspecified = Unspecified.
Proof. induction ls as [|l ls IH]; [reflexivity | exact IH]. Qed.

(** How one line moves the scan of [GetJobs] on. *)
Lemma SlurmJobs_GetJobs_step_cases partition jobs line :
  match SlurmJobs.GetJobs_step partition (Returns jobs) line with
  | Returns _ => True
  | Panics =>
      parsed_record line ∧ nth 0 (GoStrings.Split line "|") "" = partition ∧
      nth 5 (GoStrings.Split line "|") "" = ""
  | Unspecified =>
      parsed_record line ∧ nth 0 (GoStrings.Split line "|") "" = partition ∧
      mem_open (nth 8 (GoStrings.Split line "|") "") = true
  end.
Proof.
  unfold SlurmJobs.GetJobs_step, parsed_record.
  destruct (GoStrings.Contains line ".extern"); [done|].
  destruct (Nat.ltb_spec (length (GoStrings.Split line "|")) 12) as [|Hlen];
    [done|].
  destruct (String.eqb_spec (nth 0 (GoStrings.Split line "|") "") partition)
    as [Hpart|_]; [|done].
  pose proof (Slurm_parseJobInfo_cases _ Hlen) as H.
  destruct (Slurm.parseJobInfo _) as [[job [e|]]| |]; [done| | |].
  - by destruct (String.eqb _ _).
  - done.
  - by destruct H.
Qed.

Lemma SlurmJobs_GetUserJobs_step_cases jobs line :
  match SlurmJobs.GetUserJobs_step (Returns jobs) line with
  | Returns _ => True
  | Panics => parsed_record line ∧ nth 5 (GoStrings.Split line "|") "" = ""
  | Unspecified =>
      parsed_record line ∧
      mem_open (nth 8 (GoStrings.Split line "|") "") = true
  end.
Proof.
  unfold SlurmJobs.GetUserJobs_step, parsed_record.
  destruct (GoStrings.Contains line ".extern"); [done|].
  destruct (Nat.leb_spec 12 (length (GoStrings.Split line "|"))) as [Hlen|];
    [|done].
  pose proof (Slurm_parseJobInfo_cases _ Hlen) as H.
  destruct (Slurm.parseJobInfo _) as [[job [e|]]| |]; [done|done|done|].
  by destruct H.
Qed.

Lemma SlurmJobs_GetJobs_fold_cases partition ls jobs :
  match fold_left (SlurmJobs.GetJobs_step partition) ls (Returns jobs) with
  | Returns _ => True
  | Panics =>
      ∃ line, line ∈ ls ∧ parsed_record line ∧
              nth 0 (GoStrings.Split line "|") "" = partition ∧
              nth 5 (GoStrings.Split line "|") "" = ""
  | Unspecified =>
      ∃ line, line ∈ ls ∧ parsed_record line ∧
              nth 0 (GoStrings.Split line "|") "" = partition ∧
              mem_open (nth 8 (GoStrings.Split line "|") "") = true
  end.
Proof.
  revert jobs. induction ls as [|l ls IH]; intros jobs; [done|].
  cbn [fold_left].
  pose proof (SlurmJobs_GetJobs_step_cases partition jobs l) as Hl.
  destruct (SlurmJobs.GetJobs_step partition (Returns jobs) l) as [jobs'| |].
  - specialize (IH jobs').
    destruct (fold_left _ ls (Returns jobs')) as [?| |]; [done| |];
      destruct IH as (line & Hin & H); exists line;
      (split; [by apply list_elem_of_further | exact H]).
  - rewrite SlurmJobs_GetJobs_Panics. exists l.
    split; [apply list_elem_of_here | exact Hl].
  - rewrite SlurmJobs_GetJobs_Unspecified. exists l.
    split; [apply list_elem_of_here | exact Hl].
Qed.

(** X12: whatever [sacct] prints, [GetJobs] ends in one of three ways.
    When it returns, its jobs are all in state Running and all belong to
    the partition; the listing carries no error when the command ran,
    and no job when it failed.  It panics only on a record of the
    partition (after the header, not a step record, twelve columns or
    more) whose state column is empty.  And its result is left to the
    implementation only on such a record whose memory column Go converts
    with an implementation-dependent result. *)
Theorem Slurm_GetJobs_running_in_partition (sacct : CmdOutput)
    (partition : string) :
  match SlurmJobs.GetJobs sacct partition with
  | Returns (jobs, e) =>
      Forall (λ j, Job.State j = JobRunning ∧ Job.Partition j = partition)
             jobs ∧
      (snd sacct = None → e = None) ∧
      (snd sacct ≠ None → jobs = [] ∧ e ≠ None)
  | Panics =>
      snd sacct = None ∧
      ∃ line, line ∈ tail (fst sacct) ∧ parsed_record line ∧
              nth 0 (GoStrings.Split line "|") "" = partition ∧
              nth 5 (GoStrings.Split line "|") "" = ""
  | Unspecified =>
      snd sacct = None ∧
      ∃ line, line ∈ tail (fst sacct) ∧ parsed_record line ∧
              nth 0 (GoStrings.Split line "|") "" = partition ∧
              mem_open (nth 8 (GoStrings.Split line "|") "") = true
  end.
Proof.
  destruct sacct as [output [err|]]; cbn [snd fst].
  { cbn. split; [constructor|]. split; done. }
  unfold SlurmJobs.GetJobs.
  pose proof (SlurmJobs_GetJobs_fold_cases partition (tail output) []) as Hc.
  destruct (fold_left _ (tail output) _) as [js| |] eqn:Hfold;
    [|by split|by split].
  split; [|split; done].
  revert js Hfold. clear Hc.
  enough (∀ acc,
    (∀ jobs, acc = Returns jobs →
       Forall (λ j, Job.State j = JobRunning ∧ Job.Partition j = partition)
              jobs) →
    ∀ js, fold_left (SlurmJobs.GetJobs_step partition) (tail output) acc
          = Returns js →
    Forall (λ j, Job.State j = JobRunning ∧ Job.Partition j = partition) js)
    as H.
  { apply H. intros jobs [= <-]. constructor. }
  induction (tail output) as [|l ls IH]; intros acc Hacc js.
  - cbn. intros ->. by apply Hacc.
  - cbn [fold_left]. apply IH. intros jobs Hj.
    by eapply SlurmJobs_step_invariant.
Qed.

Lemma Slurm_parseJobInfo_empty_state fields :
  (12 <= length fields)%nat → nth 5 fields "" = "" →
  Slurm.parseJobInfo fields = Panics.
Proof.
  intros Hlen H5. unfold Slurm.parseJobInfo.
  destruct (Nat.ltb_spec (length fields) 12); [lia|]. by rewrite H5.
Qed.

(** The scan of the lines before a record: while no memory column is
    left to the implementation, the scan returns or has panicked. *)
Lemma SlurmJobs_GetUserJobs_fold_closed ls jobs :
  Forall (λ l, mem_open (nth 8 (GoStrings.Split l "|") "") = false) ls →
  fold_left SlurmJobs.GetUserJobs_step ls (Returns jobs) ≠ Unspecified.
Proof.
  revert jobs. induction ls as [|l ls IH]; intros jobs Hls; [done|].
  apply Forall_cons in Hls as [Hl Hls]. cbn [fold_left].
  pose proof (SlurmJobs_GetUserJobs_step_cases jobs l) as Hc.
  destruct (SlurmJobs.GetUserJobs_step (Returns jobs) l) as [jobs'| |].
  - by apply IH.
  - by rewrite SlurmJobs_GetUserJobs_Panics.
  - destruct Hc as [_ Hc]. congruence.
Qed.

Lemma SlurmJobs_GetJobs_fold_closed partition ls jobs :
  Forall (λ l, mem_open (nth 8 (GoStrings.Split l "|") "") = false) ls →
  fold_left (SlurmJobs.GetJobs_step partition) ls (Returns jobs)
  ≠ Unspecified.
Proof.
  revert jobs. induction ls as [|l ls IH]; intros jobs Hls; [done|].
  apply Forall_cons in Hls as [Hl Hls]. cbn [fold_left].
  pose proof (SlurmJobs_GetJobs_step_cases partition jobs l) as Hc.
  destruct (SlurmJobs.GetJobs_step partition (Returns jobs) l) as [jobs'| |].
  - by apply IH.
  - by rewrite SlurmJobs_GetJobs_Panics.
  - destruct Hc as (_ & _ & Hc). congruence.
Qed.

Lemma SlurmJobs_GetUserJobs_blocked line pre post :
  GoStrings.Contains line ".extern" = false →
  (12 <= length (GoStrings.Split line "|"))%nat →
  nth 5 (GoStrings.Split line "|") "" = "" →
  let r := fold_left SlurmJobs.GetUserJobs_step (pre ++ line :: post)
             (Returns []) in
  r = Panics ∨
  (r = Unspecified ∧
   ¬ Forall (λ l, mem_open (nth 8 (GoStrings.Split l "|") "") = false) pre).
Proof.
  intros Hext Hlen H5 r. subst r.
  pose proof (Slurm_parseJobInfo_empty_state _ Hlen H5) as H.
  rewrite fold_left_app.
  pose proof (SlurmJobs_GetUserJobs_fold_closed pre []) as Hclosed.
  destruct (fold_left SlurmJobs.GetUserJobs_step pre (Returns []))
    as [acc| |].
  - left. cbn [fold_left]. unfold SlurmJobs.GetUserJobs_step at 2.
    rewrite Hext.
    destruct (Nat.leb_spec 12 (length (GoStrings.Split line "|"))); [|lia].
    by rewrite H, SlurmJobs_GetUserJobs_Panics.
  - left. by rewrite SlurmJobs_GetUserJobs_Panics.
  - right. rewrite SlurmJobs_GetUserJobs_Unspecified. split; [done|].
    intros Hpre. by destruct (Hclosed Hpre).
Qed.

Lemma SlurmJobs_GetJobs_blocked partition line pre post :
  GoStrings.Contains line ".extern" = false →
  (12 <= length (GoStrings.Split line "|"))%nat →
  nth 5 (GoStrings.Split line "|") "" = "" →
  nth 0 (GoStrings.Split line "|") "" = partition →
  let r := fold_left (SlurmJobs.GetJobs_step partition) (pre ++ line :: post)
             (Returns []) in
  r = Panics ∨
  (r = Unspecified ∧
   ¬ Forall (λ l, mem_open (nth 8 (GoStrings.Split l "|") "") = false) pre).
Proof.
  intros Hext Hlen H5 Hpart r. subst r.
  pose proof (Slurm_parseJobInfo_empty_state _ Hlen H5) as H.
  rewrite fold_left_app.
  pose proof (SlurmJobs_GetJobs_fold_closed partition pre []) as Hclosed.
  destruct (fold_left (SlurmJobs.GetJobs_step partition) pre (Returns []))
    as [acc| |].
  - left. cbn [fold_left]. unfold SlurmJobs.GetJobs_step at 2.
    rewrite Hext.
    destruct (Nat.ltb_spec (length (GoStrings.Split line "|")) 12); [lia|].
    by rewrite Hpart, String.eqb_refl, H, SlurmJobs_GetJobs_Panics.
  - left. by rewrite SlurmJobs_GetJobs_Panics.
  - right. rewrite SlurmJobs_GetJobs_Unspecified. split; [done|].
    intros Hpre. by destruct (Hclosed Hpre).
Qed.

(** X13: a record after the header that is not a step record
    ([.extern]), has twelve columns or more and an empty state column
    keeps the job listings from returning ([fields[5][:1]] on an empty
    string panics): [GetUserJobs] for any such record, [GetJobs] for any
    such record of the requested partition.  The call panics, at this
    record or at an earlier one, whenever no earlier memory column is
    converted with a result that Go leaves to the implementation. *)
Theorem Slurm_empty_state_panics (header line : string)
    (pre post : list string) :
  GoStrings.Contains line ".extern" = false →
  (12 <= length (GoStrings.Split line "|"))%nat →
  nth 5 (GoStrings.Split line "|") "" = "" →
  (∀ sacct user,
     sacct user = (header :: pre ++ line :: post, None) →
     (∀ r, SlurmJobs.GetUserJobs sacct user ≠ Returns r) ∧
     (Forall (λ l, mem_open (nth 8 (GoStrings.Split l "|") "") = false) pre →
      SlurmJobs.GetUserJobs sacct user = Panics)) ∧
  (∀ partition,
     nth 0 (GoStrings.Split line "|") "" = partition →
     (∀ r, SlurmJobs.GetJobs (header :: pre ++ line :: post, None) partition
           ≠ Returns r) ∧
     (Forall (λ l, mem_open (nth 8 (GoStrings.Split l "|") "") = false) pre →
      SlurmJobs.GetJobs (header :: pre ++ line :: post, None) partition
      = Panics)).
Proof.
  intros Hext Hlen H5. split.
  - intros sacct user Hout. unfold SlurmJobs.GetUserJobs.
    rewrite Hout. cbn [tail].
    destruct (SlurmJobs_GetUserJobs_blocked line pre post Hext Hlen H5)
      as [-> | [-> Hpre]].
    + split; [discriminate | reflexivity].
    + split; [discriminate | by intros ?].
  - intros partition Hpart. unfold SlurmJobs.GetJobs. cbn [tail].
    destruct (SlurmJobs_GetJobs_blocked partition line pre post
                Hext Hlen H5 Hpart) as [-> | [-> Hpre]].
    + split; [discriminate | reflexivity].
    + split; [discriminate | by intros ?].
Qed.

Lemma Slurm_empty_state_panics_witness :
  SlurmJobs.GetJobs
    (fst sacct_report ++ [sacct_no_state; "batch|n2|106|"], None) "batch"
  = Panics.
Proof.
  assert ((12 <= length (GoStrings.Split sacct_no_state "|"))%nat) as Hlen
    by (vm_compute; lia).
  apply (proj2 (proj2 (Slurm_empty_state_panics
                  (hd "" (fst sacct_report)) sacct_no_state
                  (tail (fst sacct_report)) ["batch|n2|106|"]
                  eq_refl Hlen eq_refl) "batch" eq_refl)).
  repeat (apply Forall_cons_2; [vm_compute; reflexivity|]).
  apply Forall_nil_2.
Defined.

(** ** The Torque job listing *)

Lemma prefix_cons a sub c s :
  String.prefix (String a sub) (String c s) = true ↔
  a = c ∧ String.prefix sub s = true.
Proof.
  cbn. destruct (ascii_dec a c) as [->|Hne]; [tauto|].
  split; [discriminate | tauto].
Qed.

Lemma prefix_app_l sub a b :
  String.prefix sub a = true → String.prefix sub (a ++ b)%string = true.
Proof.
  revert a. induction sub as [|x sub IH]; intros a.
  - intros _. by destruct (a ++ b)%string.
  - destruct a as [|c a]; [discriminate|]. rewrite append_cons.
    rewrite !prefix_cons. intros [-> H]. split; [reflexivity | by apply IH].
Qed.

Lemma Contains_app_l a b sub :
  GoStrings.Contains a sub = true →
  GoStrings.Contains (a ++ b)%string sub = true.
Proof.
  induction a as [|c a IH].
  - cbn [GoStrings.Contains]. rewrite orb_false_r. intros H.
    apply (prefix_app_l _ _ b) in H.
    destruct (("" ++ b)%string); cbn [GoStrings.Contains]; by rewrite H.
  - rewrite append_cons. cbn [GoStrings.Contains].
    rewrite !orb_true_iff. intros [H|H].
    + left. apply (prefix_app_l _ _ b) in H. by rewrite append_cons in H.
    + right. by apply IH.
Qed.

Lemma spaceWidth_head s : headSpace (GoStrings.spaceWidth s) s.
Proof.
  assert (∀ c n, (nat_of_ascii c =? n)%nat = true → (128 <= n)%nat →
                 spaceByte c = true) as Hhigh.
  { intros c n Hc Hn. apply Nat.eqb_eq in Hc. unfold spaceByte.
    apply orb_true_iff. right. apply Nat.leb_le. lia. }
  destruct s as [|c0 [|c1 [|c2 s]]]; cbn [GoStrings.spaceWidth];
    try exact I.
  - destruct (GoStrings.isSpace c0) eqn:H0; [|exact I].
    cbn. unfold spaceByte. by rewrite H0.
  - destruct (GoStrings.isSpace c0) eqn:H0.
    { cbn. unfold spaceByte. by rewrite H0. }
    destruct ((nat_of_ascii c0 =? 194)%nat
              && ((nat_of_ascii c1 =? 133)%nat
                  || (nat_of_ascii c1 =? 160)%nat)) eqn:H2; [|exact I].
    apply andb_true_iff in H2 as [Ha Hb]. apply orb_true_iff in Hb.
    cbn. split; [by eapply Hhigh; [exact Ha | lia]|]. split; [|exact I].
    destruct Hb as [Hb|Hb]; eapply Hhigh; [exact Hb|lia|exact Hb|lia].
  - destruct (GoStrings.isSpace c0) eqn:H0.
    { cbn. unfold spaceByte. by rewrite H0. }
    destruct ((nat_of_ascii c0 =? 194)%nat
              && ((nat_of_ascii c1 =? 133)%nat
                  || (nat_of_ascii c1 =? 160)%nat)) eqn:H2.
    { apply andb_true_iff in H2 as [Ha Hb]. apply orb_true_iff in Hb.
      cbn. split; [by eapply Hhigh; [exact Ha | lia]|]. split; [|exact I].
      destruct Hb as [Hb|Hb]; eapply Hhigh; [exact Hb|lia|exact Hb|lia]. }
    assert (∀ n0 n1 (t : bool),
              (128 <= n0)%nat → (128 <= n1)%nat →
              ((nat_of_ascii c0 =? n0)%nat && (nat_of_ascii c1 =? n1)%nat
               && t = true) →
              (t = true → (128 <= nat_of_ascii c2)%nat) →
              headSpace 3 (String c0 (String c1 (String c2 s)))) as Hthree.
    { intros n0 n1 t Hn0 Hn1 Ht Hc2.
      apply andb_true_iff in Ht as [Ht Ht2].
      apply andb_true_iff in Ht as [Ha Hb].
      cbn. split; [by eapply Hhigh|]. split; [by eapply Hhigh|].
      split; [|exact I]. unfold spaceByte. apply orb_true_iff. right.
      apply Nat.leb_le. by apply Hc2. }
    repeat match goal with
    | |- headSpace (if ?b then _ else _) _ => destruct b eqn:?
    end; try exact I.
    + eapply (Hthree 225 154)%nat; [lia | lia | eassumption |].
      intros Hc%Nat.eqb_eq. lia.
    + eapply (Hthree 226 128)%nat; [lia | lia | eassumption |].
      rewrite !orb_true_iff, andb_true_iff, Nat.leb_le, !Nat.eqb_eq. lia.
    + eapply (Hthree 226 129)%nat; [lia | lia | eassumption |].
      intros Hc%Nat.eqb_eq. lia.
    + eapply (Hthree 227 128)%nat; [lia | lia | eassumption |].
      intros Hc%Nat.eqb_eq. lia.
Qed.

Lemma Contains_trimLeft_from s sub skip :
  starts_nonspace sub → headSpace skip s →
  GoStrings.Contains s sub = true →
  GoStrings.Contains (GoStrings2.trimLeft_from skip s) sub = true.
Proof.
  destruct sub as [|x sub]; [done|]. cbn [starts_nonspace]. intros Hx.
  revert skip. induction s as [|c s IH]; intros skip Hskip; [done|].
  assert (∀ k, headSpace (S k) (String c s) →
            GoStrings.Contains (String c s) (String x sub) = true →
            GoStrings.Contains (GoStrings2.trimLeft_from k s) (String x sub)
            = true) as Hstep.
  { intros k [Hc Hk]. cbn [GoStrings.Contains].
    rewrite orb_true_iff. intros [H|H]; [|by apply IH].
    apply prefix_cons in H as [-> _]. congruence. }
  cbn [GoStrings2.trimLeft_from]. destruct skip as [|k].
  - pose proof (spaceWidth_head (String c s)) as Hw.
    destruct (GoStrings.spaceWidth (String c s)) as [|w]; [done|].
    by apply Hstep.
  - by apply Hstep.
Qed.

Lemma Contains_trimLeft s sub :
  starts_nonspace sub →
  GoStrings.Contains s sub = true →
  GoStrings.Contains (GoStrings2.trimLeft s) sub = true.
Proof.
  intros Hs. unfold GoStrings2.trimLeft.
  by apply Contains_trimLeft_from.
Qed.

Lemma trimLeft_from_empty s skip :
  headSpace skip s → GoStrings2.trimLeft_from skip s = "" →
  GoFloat.forallb_string spaceByte s = true.
Proof.
  revert skip. induction s as [|c s IH]; intros skip Hskip; [done|].
  assert (∀ k, headSpace (S k) (String c s) →
            GoStrings2.trimLeft_from k s = "" →
            GoFloat.forallb_string spaceByte (String c s) = true) as Hstep.
  { intros k [Hc Hk] He. cbn [GoFloat.forallb_string].
    rewrite Hc. by apply (IH k). }
  cbn [GoStrings2.trimLeft_from]. destruct skip as [|k].
  - pose proof (spaceWidth_head (String c s)) as Hw.
    destruct (GoStrings.spaceWidth (String c s)) as [|w]; [done|].
    by apply Hstep.
  - by apply Hstep.
Qed.

Lemma allSpace_bytes s :
  GoStrings2.allSpace s = true → GoFloat.forallb_string spaceByte s = true.
Proof.
  unfold GoStrings2.allSpace, GoStrings2.trimLeft. intros H.
  apply String.eqb_eq in H. by apply (trimLeft_from_empty s 0).
Qed.

Lemma forallb_string_prefix p sub s :
  String.prefix sub s = true → GoFloat.forallb_string p s = true →
  GoFloat.forallb_string p sub = true.
Proof.
  revert s. induction sub as [|x sub IH]; intros s; [done|].
  destruct s as [|c s]; [discriminate|].
  rewrite prefix_cons. intros [-> Hp]. cbn [GoFloat.forallb_string].
  rewrite !andb_true_iff. intros [Hc Hs]. split; [done | by eapply IH].
Qed.

Lemma forallb_string_Contains p sub s :
  GoStrings.Contains s sub = true → GoFloat.forallb_string p s = true →
  GoFloat.forallb_string p sub = true.
Proof.
  induction s as [|c s IH]; cbn [GoStrings.Contains].
  - rewrite orb_false_r. by destruct sub.
  - rewrite orb_true_iff. intros [H|H] Hs.
    + by eapply forallb_string_prefix.
    + cbn [GoFloat.forallb_string] in Hs.
      apply andb_true_iff in Hs as [_ Hs]. by apply IH.
Qed.

Lemma ends_nonspace_bytes sub :
  ends_nonspace sub → GoFloat.forallb_string spaceByte sub = false.
Proof.
  induction sub as [|x sub IH]; [done|].
  destruct sub as [|y sub].
  - cbn. by intros ->.
  - intros H. cbn [GoFloat.forallb_string] in *.
    rewrite (IH H). apply andb_false_r.
Qed.

Lemma prefix_trimRight sub s :
  ends_nonspace sub → String.prefix sub s = true →
  String.prefix sub (GoStrings2.trimRight s) = true.
Proof.
  revert s. induction sub as [|x sub IH]; intros s; [done|].
  destruct s as [|c s]; [discriminate|].
  intros Hend Hp. cbn [GoStrings2.trimRight].
  destruct (GoStrings2.allSpace (String c s)) eqn:Hall.
  { apply allSpace_bytes in Hall.
    pose proof (ends_nonspace_bytes _ Hend) as Hb.
    rewrite (forallb_string_prefix _ _ _ Hp Hall) in Hb. discriminate. }
  apply prefix_cons in Hp as [-> Hp]. apply prefix_cons. split; [done|].
  destruct sub as [|y sub].
  - by destruct (GoStrings2.trimRight s).
  - by apply IH.
Qed.

Lemma Contains_trimRight s sub :
  ends_nonspace sub →
  GoStrings.Contains s sub = true →
  GoStrings.Contains (GoStrings2.trimRight s) sub = true.
Proof.
  intros Hend. induction s as [|c s IH].
  - cbn [GoStrings.Contains]. rewrite orb_false_r. intros H.
    by destruct sub.
  - intros Hc.
    assert (GoStrings2.allSpace (String c s) = false) as Hall.
    { destruct (GoStrings2.allSpace (String c s)) eqn:Hall; [|done].
      apply allSpace_bytes in Hall.
      pose proof (ends_nonspace_bytes _ Hend) as Hb.
      rewrite (forallb_string_Contains _ _ _ Hc Hall) in Hb. discriminate. }
    cbn [GoStrings2.trimRight]. rewrite Hall.
    cbn [GoStrings.Contains] in *. apply orb_true_iff in Hc as [H|H].
    + apply (prefix_trimRight _ _ Hend) in H.
      cbn [GoStrings2.trimRight] in H. rewrite Hall in H. by rewrite H.
    + rewrite (IH H). apply orb_true_r.
Qed.

Lemma Contains_TrimSpace s sub :
  starts_nonspace sub → ends_nonspace sub →
  GoStrings.Contains s sub = true →
  GoStrings.Contains (GoStrings2.TrimSpace s) sub = true.
Proof.
  intros Hs He H. unfold GoStrings2.TrimSpace.
  by apply Contains_trimRight, Contains_trimLeft.
Qed.

Lemma Torque_parseJobInfo_one_line jobInfo :
  lacks (ascii_of_nat 10) jobInfo →
  GoStrings.Contains jobInfo "Job Id:" = true →
  Job.State (fst (TorqueJobs.parseJobInfo jobInfo)) = "".
Proof.
  intros Hnl Hid. unfold TorqueJobs.parseJobInfo, TorqueJobs.newline.
  rewrite Split_char_none by done. cbn [fold_left fst].
  unfold TorqueJobs.parseJobInfo_step.
  rewrite Contains_TrimSpace; [reflexivity | reflexivity | reflexivity | done].
Qed.

Lemma TorqueJobs_GetJobs_marked (first : string) (rest : list string) :
  Forall (lacks (ascii_of_nat 10)) (first :: rest) →
  GoStrings.Contains first "Job Id:" = true →
  TorqueJobs.GetJobs (first :: rest, None) = ([], None).
Proof.
  intros Hnl Hfirst.
  unfold TorqueJobs.GetJobs.
  assert (∀ info, lacks (ascii_of_nat 10) info →
            GoStrings.Contains info "Job Id:" = true →
            TorqueJobs.GetJobs_flush [] info = []) as Hflush.
  { intros info H1 H2. unfold TorqueJobs.GetJobs_flush.
    destruct (negb (String.eqb info "")); [|reflexivity].
    pose proof (Torque_parseJobInfo_one_line info H1 H2) as Hst.
    destruct (TorqueJobs.parseJobInfo info) as [job [e|]]; [reflexivity|].
    cbn [fst] in Hst. by rewrite Hst. }
  apply Forall_cons in Hnl as [Hnl1 Hnl].
  cbn [fold_left]. unfold TorqueJobs.GetJobs_step at 2.
  rewrite Hfirst. change (TorqueJobs.GetJobs_flush [] "") with (@nil Job.Job).
  enough (∀ info, lacks (ascii_of_nat 10) info →
            GoStrings.Contains info "Job Id:" = true →
            ∃ info', fold_left TorqueJobs.GetJobs_step rest ([], info)
                     = ([], info') ∧
                     lacks (ascii_of_nat 10) info' ∧
                     GoStrings.Contains info' "Job Id:" = true) as H.
  { destruct (H first Hnl1 Hfirst) as (info' & -> & H1 & H2).
    by rewrite Hflush. }
  induction rest as [|l rest IH]; intros info H1 H2; [by eauto|].
  apply Forall_cons in Hnl as [Hl Hnl]. cbn [fold_left].
  unfold TorqueJobs.GetJobs_step at 2.
  destruct (GoStrings.Contains l "Job Id:") eqn:Hmark.
  - rewrite Hflush by done. by apply IH.
  - apply IH; [done| |by apply Contains_app_l].
    apply lacks_app. by split.
Qed.

(** X14: the Torque job listing returns no job.  The scanner hands over
    lines without line feed and [GetJobs] joins the lines of a job
    without a separator, so [parseJobInfo] sees one line that contains
    [Job Id:] and sets nothing but the identifier: the state stays empty
    and the job is dropped.  This holds for every report whose first
    line carries the [Job Id:] marker, as the reports of [qstat -f] do. *)
Theorem Torque_GetJobs_empty (first : string) (rest : list string) :
  Forall (lacks (ascii_of_nat 10)) (first :: rest) →
  GoStrings.Contains first "Job Id:" = true →
  TorqueJobs.GetJobs (first :: rest, None) = ([], None) ∧
  TorqueJobs.GetJobs ([], None) = ([], None).
Proof.
  intros Hnl Hfirst. split; [|reflexivity].
  by apply TorqueJobs_GetJobs_marked.
Qed.

Lemma Torque_GetJobs_empty_witness :
  TorqueJobs.GetJobs qstat_f_report = ([], None).
Proof.
  apply (Torque_GetJobs_empty "Job Id: 4711.server"
           (tail (fst qstat_f_report))).
  - repeat (apply Forall_cons_2; [reflexivity|]). apply Forall_nil_2.
  - reflexivity.
Defined.

(** ** The mock scheduler *)

Lemma wrap_small z : - 2 ^ 63 <= z <= 2 ^ 63 - 1 → GoInt.wrap z = z.
Proof. intros H. apply wrap_id. exact H. Qed.

Lemma quot_small a b :
  0 <= a <= 2 ^ 63 - 1 → 0 < b → GoInt.quot a b = a / b.
Proof.
  intros Ha Hb. unfold GoInt.quot. rewrite Z.quot_div_nonneg by lia.
  apply wrap_small. split.
  - pose proof (Z.div_pos a b ltac:(lia) Hb). lia.
  - pose proof (Z.div_le_upper_bound a b a Hb ltac:(nia)). lia.
Qed.

Lemma Mock_specs_bounds rnd partition k :
  partition ∈ partitions →
  ∃ c g k', Mock.specs rnd partition k = (c, g * 1000, k') ∧
            32 <= c <= 63 ∧ 128 <= g <= 1535.
Proof.
  unfold partitions. rewrite !elem_of_cons, elem_of_nil.
  intros [->|[->|[->|[]]]]; unfold Mock.specs, Mock.Intn;
    cbn [String.eqb Ascii.eqb Bool.eqb];
    match goal with
    | |- context [GoInt.add ?a (rnd k mod ?n)] =>
        pose proof (Z.mod_pos_bound (rnd k) n eq_refl)
    end;
    match goal with
    | |- context [GoInt.add ?a (rnd (S k) mod ?n)] =>
        pose proof (Z.mod_pos_bound (rnd (S k)) n eq_refl)
    end;
    unfold GoInt.add, GoInt.mul;
    rewrite !(wrap_small (_ + _)) by lia;
    rewrite (wrap_small (_ * 1000)) by lia;
    eexists _, _, _; (split; [reflexivity | lia]).
Qed.

Lemma avail_mem_positive tm um :
  0 <= um → 1000 <= tm - um → tm <= 2 ^ 63 - 1 →
  0 < GoInt.quot (GoInt.sub tm um) 1000.
Proof.
  intros H0 H1 H2. unfold GoInt.sub. rewrite wrap_small by lia.
  rewrite quot_small by lia.
  apply Z.div_str_pos. lia.
Qed.

Lemma Mock_node_ok rnd partition nodePrefix i k :
  partition ∈ partitions →
  mock_node_ok partition (fst (Mock.node rnd partition nodePrefix i k)).
Proof.
  intros Hp. unfold Mock.node.
  destruct (Mock_specs_bounds rnd partition k Hp)
    as (c & g & k1 & -> & Hc & Hg).
  unfold Mock.Intn at 1.
  pose proof (Z.mod_pos_bound (rnd k1) 5 eq_refl) as Hs.
  assert (rnd k1 mod 5 = 0 ∨ rnd k1 mod 5 = 1 ∨ rnd k1 mod 5 = 2 ∨
          rnd k1 mod 5 = 3 ∨ rnd k1 mod 5 = 4) as Hcase by lia.
  assert (GoInt.quot (g * 1000) 10 = g * 100) as Hq10.
  { rewrite quot_small by lia.
    replace (g * 1000) with (g * 100 * 10) by lia. apply Z.div_mul. lia. }
  assert (GoInt.quot (g * 1000) 4 = g * 250) as Hq4.
  { rewrite quot_small by lia.
    replace (g * 1000) with (g * 250 * 4) by lia. apply Z.div_mul. lia. }
  assert (∀ z, 0 <= z <= 2 ^ 62 → GoInt.in_range z) as Hin.
  { intros z Hz. unfold GoInt.in_range, GoInt.minInt, GoInt.maxInt. lia. }
  destruct Hcase as [E|[E|[E|[E|E]]]]; rewrite E;
    first [ progress change (Z.to_nat 0) with 0%nat
          | progress change (Z.to_nat 1) with 1%nat
          | progress change (Z.to_nat 2) with 2%nat
          | progress change (Z.to_nat 3) with 3%nat
          | progress change (Z.to_nat 4) with 4%nat ];
    unfold Mock.usage, Mock.Intn;
    cbn -[GoInt.quot GoInt.sub GoInt.add GoInt.wrap Z.modulo Z.mul Z.ltb
          Mock.jobIDs Mock.Sprintf_03d String.append].
  - (* Idle *)
    rewrite Hq10.
    pose proof (Z.mod_pos_bound (rnd (S k1)) (g * 100) ltac:(lia)) as Hu.
    cbn [fst]. unfold mock_node_ok, Node_wf, IsAvailable, GetAvailCores,
      GetAvailMemGB.
    cbn [Partitions TotalCores UsedCores TotalMemMB UsedMemMB State].
    assert (GoInt.sub c 0 = c) as ->
      by (unfold GoInt.sub; rewrite Z.sub_0_r; apply wrap_small; lia).
    pose proof (avail_mem_positive (g * 1000) (rnd (S k1) mod (g * 100))
                  ltac:(lia) ltac:(lia) ltac:(lia)) as Hmem.
    repeat split; try lia; try (apply Hin; lia).
    + rewrite !elem_of_cons. auto.
    + intros _. cbn [String.eqb Ascii.eqb Bool.eqb StateIdle orb andb].
      apply andb_true_iff. split; apply Z.ltb_lt; lia.
    + intros [H|H]; discriminate H.
  - (* Running *)
    pose proof (Z.mod_pos_bound (rnd (S k1)) c ltac:(lia)) as Huc.
    pose proof (Z.mod_pos_bound (rnd (S (S k1))) (g * 1000) ltac:(lia))
      as Hum.
    match goal with
    | |- context [if 0 <? ?u then ?x else ?y] =>
        destruct (if 0 <? u then x else y) as [jobs k2]
    end.
    cbn [fst]. unfold mock_node_ok, Node_wf.
    cbn [Partitions TotalCores UsedCores TotalMemMB UsedMemMB State].
    repeat split; try lia; try (apply Hin; lia).
    + rewrite !elem_of_cons. auto.
    + intros H; discriminate H.
    + intros [H|H]; discriminate H.
  - (* Running *)
    pose proof (Z.mod_pos_bound (rnd (S k1)) c ltac:(lia)) as Huc.
    pose proof (Z.mod_pos_bound (rnd (S (S k1))) (g * 1000) ltac:(lia))
      as Hum.
    match goal with
    | |- context [if 0 <? ?u then ?x else ?y] =>
        destruct (if 0 <? u then x else y) as [jobs k2]
    end.
    cbn [fst]. unfold mock_node_ok, Node_wf.
    cbn [Partitions TotalCores UsedCores TotalMemMB UsedMemMB State].
    repeat split; try lia; try (apply Hin; lia).
    + rewrite !elem_of_cons. auto.
    + intros H; discriminate H.
    + intros [H|H]; discriminate H.
  - (* Down *)
    cbn [fst]. unfold mock_node_ok, Node_wf, IsAvailable.
    cbn [Partitions TotalCores UsedCores TotalMemMB UsedMemMB State].
    repeat split; try lia; try (apply Hin; lia).
    + rewrite !elem_of_cons. auto 10.
    + intros H; discriminate H.
  - (* Busy *)
    rewrite Hq4.
    pose proof (Z.mod_pos_bound (rnd (S k1)) (g * 250) ltac:(lia)) as Hu.
    assert (GoInt.sub (g * 1000) (rnd (S k1) mod (g * 250))
            = g * 1000 - rnd (S k1) mod (g * 250)) as Hsub
      by (apply wrap_small; lia).
    cbn [fst]. unfold mock_node_ok, Node_wf, IsAvailable, GetAvailCores.
    cbn [Partitions TotalCores UsedCores TotalMemMB UsedMemMB State].
    rewrite Hsub.
    assert (GoInt.sub c c = 0) as ->
      by (unfold GoInt.sub; rewrite Z.sub_diag; reflexivity).
    repeat split; try lia; try (apply Hin; lia).
    + rewrite !elem_of_cons. auto 10.
    + intros H; discriminate H.
Qed.

Lemma Mock_node_ID rnd partition nodePrefix i k :
  ID (fst (Mock.node rnd partition nodePrefix i k))
  = String.append nodePrefix (Mock.Sprintf_03d (GoInt.add i 1)).
Proof.
  unfold Mock.node.
  destruct (Mock.specs rnd partition k) as [[c m] k1].
  destruct (Mock.Intn rnd 5 k1) as [s k2].
  destruct (Mock.usage rnd _ c m k2) as [[uc um] k3].
  match goal with
  | |- context [if ?b then ?x else ?y] =>
      by destruct (if b then x else y) as [jobs k4]
  end.
Qed.

Lemma Mock_nodes_from_spec rnd partition nodePrefix count a k :
  partition ∈ partitions → (a + count <= 1000)%nat →
  let l := Mock.nodes_from rnd partition nodePrefix count (Z.of_nat a) k in
  length l = count ∧ Forall (mock_node_ok partition) l ∧
  ID <$> l
  = (λ n, String.append nodePrefix (Mock.Sprintf_03d (Z.of_nat n + 1)))
      <$> seq a count.
Proof.
  intros Hp. cbv zeta. revert a k.
  induction count as [|count IH]; intros a k Ha; [by repeat split|].
  cbn [Mock.nodes_from].
  pose proof (Mock_node_ok rnd partition nodePrefix (Z.of_nat a) k Hp) as Hok.
  pose proof (Mock_node_ID rnd partition nodePrefix (Z.of_nat a) k) as Hid.
  destruct (Mock.node rnd partition nodePrefix (Z.of_nat a) k) as [n k'].
  cbn [fst] in Hok, Hid.
  assert (GoInt.add (Z.of_nat a) 1 = Z.of_nat (S a)) as Hadd.
  { unfold GoInt.add. rewrite wrap_small; lia. }
  rewrite Hadd in *.
  destruct (IH (S a) k' ltac:(lia)) as (Hlen & Hall & Hids).
  split; [cbn; by rewrite Hlen|]. split; [by constructor|].
  cbn [seq fmap list_fmap]. rewrite Hid. f_equal; [f_equal; f_equal; lia|].
  exact Hids.
Qed.

Lemma Mock_GetNodes_invariants (rnd : nat → Z) (partition : string) :
  (partition ∈ partitions →
   snd (Mock.GetNodes rnd partition) = None ∧
   length (fst (Mock.GetNodes rnd partition)) = mock_count partition ∧
   Forall (mock_node_ok partition) (fst (Mock.GetNodes rnd partition))) ∧
  ID <$> fst (Mock.GetNodes rnd "batch") = mock_ids "batch" 25 ∧
  ID <$> fst (Mock.GetNodes rnd "highmem_q") = mock_ids "highmem" 8 ∧
  ID <$> fst (Mock.GetNodes rnd "gpu_q") = mock_ids "gpu" 6 ∧
  (partition ∉ partitions →
   Mock.GetNodes rnd partition
   = ([], Some (String.append "unknown partition: " partition))).
Proof.
  assert (∀ p pre c, p ∈ partitions → (c <= 1000)%nat →
    length (Mock.nodes_from rnd p pre c 0 0) = c ∧
    Forall (mock_node_ok p) (Mock.nodes_from rnd p pre c 0 0) ∧
    ID <$> Mock.nodes_from rnd p pre c 0 0 = mock_ids pre c) as H.
  { intros p pre c Hp Hc.
    apply (Mock_nodes_from_spec rnd p pre c 0 0 Hp). lia. }
  assert ("batch" ∈ partitions ∧ "highmem_q" ∈ partitions ∧
          "gpu_q" ∈ partitions) as (Hb & Hh & Hg).
  { unfold partitions. rewrite !elem_of_cons. repeat split; auto. }
  split; [|split; [|split; [|split]]].
  - unfold partitions. rewrite !elem_of_cons, elem_of_nil.
    intros [->|[->|[->|[]]]]; unfold Mock.GetNodes, mock_count;
      cbn [String.eqb Ascii.eqb Bool.eqb fst snd];
      (split; [reflexivity|]).
    + destruct (H "batch" "batch" 25%nat Hb ltac:(lia)) as (? & ? & _).
      by split.
    + destruct (H "highmem_q" "highmem" 8%nat Hh ltac:(lia)) as (? & ? & _).
      by split.
    + destruct (H "gpu_q" "gpu" 6%nat Hg ltac:(lia)) as (? & ? & _).
      by split.
  - apply (H "batch" "batch" 25%nat Hb). lia.
  - apply (H "highmem_q" "highmem" 8%nat Hh). lia.
  - apply (H "gpu_q" "gpu" 6%nat Hg). lia.
  - unfold partitions. rewrite !not_elem_of_cons. intros (H1 & H2 & H3 & _).
    unfold Mock.GetNodes. apply String.eqb_neq in H1, H2, H3.
    by rewrite H1, H2, H3.
Qed.

(** X15: whatever the random draws, the mock scheduler lists 25 nodes
    for [batch], 8 for [highmem_q] and 6 for [gpu_q], named after the
    partition and numbered from 001, and refuses any other partition.
    Every node belongs to the partition only, has 32 to 63 cores and used
    counts between zero and the totals, and is Idle, Running, Down or
    Busy; an Idle node is always available, a Busy or Down node never. *)
Theorem Mock_GetNodes_spec (rnd : nat → Z) (partition : string) :
  (partition ∈ partitions →
   snd (Mock.GetNodes rnd partition) = None ∧
   length (fst (Mock.GetNodes rnd partition)) = mock_count partition ∧
   Forall (mock_node_ok partition) (fst (Mock.GetNodes rnd partition))) ∧
  ID <$> fst (Mock.GetNodes rnd "batch") = mock_ids "batch" 25 ∧
  ID <$> fst (Mock.GetNodes rnd "highmem_q") = mock_ids "highmem" 8 ∧
  ID <$> fst (Mock.GetNodes rnd "gpu_q") = mock_ids "gpu" 6 ∧
  (partition ∉ partitions →
   Mock.GetNodes rnd partition
   = ([], Some (String.append "unknown partition: " partition))).
Proof. apply Mock_GetNodes_invariants. Qed.

Lemma Mock_GetNodes_spec_witness :
  length (fst (Mock.GetNodes sample_rnd "gpu_q")) = 6%nat ∧
  Mock.GetNodes sample_rnd "debug_q"
  = ([], Some "unknown partition: debug_q").
Proof.
  split.
  - apply (proj1 (Mock_GetNodes_spec sample_rnd "gpu_q")).
    unfold partitions. rewrite !elem_of_cons. auto.
  - apply (proj2 (proj2 (proj2 (proj2
             (Mock_GetNodes_spec sample_rnd "debug_q"))))).
    unfold partitions. rewrite !not_elem_of_cons.
    repeat split; try discriminate. apply not_elem_of_nil.
Defined.

Lemma Mock_userJob_spec rnd user i k :
  let j := fst (Mock.userJob rnd user i k) in
  Job.State j = JobRunning ∧ Job.User j = user ∧ Job.Partition j = "batch" ∧
  ∃ id, Job.NodeList j = [id] ∧ id ∈ mock_ids "batch" 25.
Proof.
  cbv zeta. unfold Mock.userJob, Mock.Intn. cbn [fst Job.State Job.User
    Job.Partition Job.NodeList].
  split; [reflexivity|]. split; [reflexivity|]. split; [reflexivity|].
  eexists. split; [reflexivity|].
  set (v := rnd (S (S (S (S k)))) mod 10).
  pose proof (Z.mod_pos_bound (rnd (S (S (S (S k))))) 10 eq_refl) as Hv.
  fold v in Hv. unfold GoInt.add. rewrite wrap_small by lia.
  unfold mock_ids. apply list_elem_of_fmap. exists (Z.to_nat v).
  split; [f_equal; f_equal; lia|]. apply elem_of_seq. lia.
Qed.

Lemma Mock_userJobs_from_spec rnd user count i k :
  let l := Mock.userJobs_from rnd user count i k in
  length l = count ∧
  Forall (λ j, Job.State j = JobRunning ∧ Job.User j = user ∧
               Job.Partition j = "batch" ∧
               ∃ id, Job.NodeList j = [id] ∧ id ∈ mock_ids "batch" 25) l.
Proof.
  cbv zeta. revert i k. induction count as [|count IH]; intros i k.
  { split; [reflexivity | constructor]. }
  cbn [Mock.userJobs_from].
  pose proof (Mock_userJob_spec rnd user i k) as Hj.
  destruct (Mock.userJob rnd user i k) as [j k']. cbn [fst] in Hj.
  destruct (IH (GoInt.add i 1) k') as [Hlen Hall].
  split; [cbn; by rewrite Hlen | by constructor].
Qed.

(** X16: whatever the random draws, the mock scheduler gives a user at
    most three jobs, all Running, owned by that user, in partition
    [batch] and each on a single node whose identifier is one that the
    mock scheduler lists for [batch]. *)
Theorem Mock_GetUserJobs_spec (rnd rnd' : nat → Z) (user : string) :
  snd (Mock.GetUserJobs rnd user) = None ∧
  (length (fst (Mock.GetUserJobs rnd user)) <= 3)%nat ∧
  Forall (λ j, Job.State j = JobRunning ∧ Job.User j = user ∧
               Job.Partition j = "batch" ∧
               ∃ id, Job.NodeList j = [id] ∧
                     id ∈ ID <$> fst (Mock.GetNodes rnd' "batch"))
         (fst (Mock.GetUserJobs rnd user)).
Proof.
  destruct (Mock_GetNodes_invariants rnd' "batch") as (_ & -> & _).
  unfold Mock.GetUserJobs, Mock.Intn. cbn [fst snd].
  destruct (Mock_userJobs_from_spec rnd user (Z.to_nat (rnd 0%nat mod 4)) 0 1)
    as [Hlen Hall].
  split; [reflexivity|]. split; [|exact Hall].
  rewrite Hlen. pose proof (Z.mod_pos_bound (rnd 0%nat) 4 eq_refl). lia.
Qed.

Lemma Mock_job_spec rnd partition i k :
  let j := fst (Mock.job rnd partition i k) in
  Job.State j = JobRunning ∧ Job.Partition j = partition ∧
  Job.User j ∈ Mock.users ∧ 1 <= Job.ReqNodes j <= 4 ∧
  16000 <= Job.ReqMemMB j <= 143000.
Proof.
  cbv zeta. unfold Mock.job, Mock.Intn. cbn [fst Job.State Job.User
    Job.Partition Job.ReqNodes Job.ReqMemMB].
  split; [reflexivity|]. split; [reflexivity|].
  pose proof (Z.mod_pos_bound (rnd (S k)) 8 eq_refl) as Hu.
  pose proof (Z.mod_pos_bound (rnd (S (S k))) 4 eq_refl) as Hn.
  pose proof (Z.mod_pos_bound (rnd (S (S (S (S k))))) 128 eq_refl) as Hm.
  unfold GoInt.add, GoInt.mul. rewrite !(wrap_small (_ + _)) by lia.
  rewrite wrap_small by lia.
  split; [|lia].
  apply list_elem_of_In, nth_In. unfold Mock.users. cbn [length]. lia.
Qed.

Lemma Mock_jobs_from_spec rnd partition count i k :
  let l := Mock.jobs_from rnd partition count i k in
  length l = count ∧
  Forall (λ j, Job.State j = JobRunning ∧ Job.Partition j = partition ∧
               Job.User j ∈ Mock.users ∧ 1 <= Job.ReqNodes j <= 4 ∧
               16000 <= Job.ReqMemMB j <= 143000) l.
Proof.
  cbv zeta. revert i k. induction count as [|count IH]; intros i k.
  { split; [reflexivity | constructor]. }
  cbn [Mock.jobs_from].
  pose proof (Mock_job_spec rnd partition i k) as Hj.
  destruct (Mock.job rnd partition i k) as [j k']. cbn [fst] in Hj.
  destruct (IH (GoInt.add i 1) k') as [Hlen Hall].
  split; [cbn; by rewrite Hlen | by constructor].
Qed.

Lemma Mock_GetJobs_invariants (rnd : nat → Z) (partition : string) :
  snd (Mock.GetJobs rnd partition) = None ∧
  (10 <= length (fst (Mock.GetJobs rnd partition)) <= 29)%nat ∧
  Forall (λ j, Job.State j = JobRunning ∧ Job.Partition j = partition ∧
               Job.User j ∈ Mock.users ∧ 1 <= Job.ReqNodes j <= 4 ∧
               16000 <= Job.ReqMemMB j <= 143000)
         (fst (Mock.GetJobs rnd partition)).
Proof.
  unfold Mock.GetJobs, Mock.Intn. cbn [fst snd].
  pose proof (Z.mod_pos_bound (rnd 0%nat) 20 eq_refl) as Hc.
  destruct (Mock_jobs_from_spec rnd partition
              (Z.to_nat (GoInt.add 10 (rnd 0%nat mod 20))) 0 1)
    as [Hlen Hall].
  split; [reflexivity|]. split; [|exact Hall].
  rewrite Hlen. unfold GoInt.add. rewrite wrap_small by lia. lia.
Qed.

(** X17: whatever the random draws and whatever the partition, the mock
    scheduler lists between 10 and 29 jobs without error, all Running
    and in the partition asked for, owned by one of its eight users and
    asking for 1 to 4 nodes and 16 to 143 GB. *)
Theorem Mock_GetJobs_spec (rnd : nat → Z) (partition : string) :
  snd (Mock.GetJobs rnd partition) = None ∧
  (10 <= length (fst (Mock.GetJobs rnd partition)) <= 29)%nat ∧
  Forall (λ j, Job.State j = JobRunning ∧ Job.Partition j = partition ∧
               Job.User j ∈ Mock.users ∧ 1 <= Job.ReqNodes j <= 4 ∧
               16000 <= Job.ReqMemMB j <= 143000)
         (fst (Mock.GetJobs rnd partition)).
Proof. apply Mock_GetJobs_invariants. Qed.

(** X18: with the mock scheduler and a start-up partition among
    [batch], [highmem_q] and [gpu_q], no state of the event loop carries
    an error, and every node on display satisfies the invariants of the
    mock nodes of one of these partitions. *)
Theorem Mock_reachable_no_error (partition userEnv : string) (a : App) :
  partition ∈ partitions →
  reachable mock_backend (NewApp partition userEnv) a →
  err a = None ∧
  Forall (λ n, ∃ p, p ∈ partitions ∧ mock_node_ok p n) (nodes a).
Proof.
  intros Hp Hr.
  assert (∀ b, reachable mock_backend (NewApp partition userEnv) b →
            currentPartition b ∈ partitions) as Hpart.
  { intros b Hb. apply reachable_partition_stats in Hb as (_ & _ & [->|H]); done. }
  induction Hr as [|a now m Hr IH Hnd Hne|a a0 s now m Hr IH Hr0 _ Hs Hm].
  - split; [reflexivity | constructor].
  - destruct m as [w h|k| |ns js us st|e];
      [| |  |by destruct (Hnd ns js us st)|by destruct (Hne e)];
      try exact IH.
    destruct k; exact IH.
  - specialize (Hpart a0 Hr0). destruct Hs as (rn & rj & ru & ->).
    destruct m as [w h|k| |ns js us st|e]; try exact IH.
    + destruct k; exact IH.
    + cbn. split; [reflexivity|].
      apply fetchData_result in Hm as (Hperm & _).
      cbn [GetNodes MockScheduler] in Hperm. rewrite <- Hperm.
      destruct (Mock_GetNodes_invariants rn (currentPartition a0))
        as (Hok & _). destruct (Hok Hpart) as (_ & _ & Hall).
      eapply Forall_impl; [exact Hall|]. intros n Hn. eauto.
    + exfalso. unfold fetchData in Hm. cbn [GetNodes GetJobs MockScheduler]
        in Hm.
      destruct (Mock_GetNodes_invariants rn (currentPartition a0)) as (Hok & _).
      destruct (Hok Hpart) as (Hnone & _).
      destruct (Mock.GetNodes rn (currentPartition a0)) as [ns en].
      cbn [snd] in Hnone. subst en.
      pose proof (proj1 (Mock_GetJobs_invariants rj (currentPartition a0)))
        as Hj.
      destruct (Mock.GetJobs rj (currentPartition a0)) as [js ej].
      cbn [snd] in Hj. subst ej.
      destruct (GetUserJobs _ _) as [us eu].
      destruct Hm as (? & _ & Hm). discriminate Hm.
Qed.

Lemma Mock_reachable_no_error_witness :
  length (nodes (fst (Update 5 (NewApp "batch" "") mock_fetched_msg)))
  = 25%nat ∧
  err (fst (Update 5 (NewApp "batch" "") mock_fetched_msg)) = None ∧
  Forall (λ n, ∃ p, p ∈ partitions ∧ mock_node_ok p n)
         (nodes (fst (Update 5 (NewApp "batch" "") mock_fetched_msg))).
Proof.
  split; [vm_compute; reflexivity|].
  apply (Mock_reachable_no_error "batch" "").
  - unfold partitions. apply elem_of_cons. left. reflexivity.
  - apply (reach_fetched _ _ (NewApp "batch" "") (NewApp "batch" "")
             mock_example 5 mock_fetched_msg);
      [apply reach_init | apply reach_init | |].
    + exists sample_rnd, sample_rnd, sample_rnd. reflexivity.
    + unfold fetchData, mock_fetched_msg, mock_example.
      cbn [GetNodes GetJobs GetUserJobs MockScheduler currentPartition
           currentUser NewApp String.eqb].
      assert (snd (Mock.GetNodes sample_rnd "batch") = None) as Hn
        by (vm_compute; reflexivity).
      assert (snd (Mock.GetJobs sample_rnd "batch") = None) as Hj
        by (vm_compute; reflexivity).
      assert (snd (Mock.GetUserJobs sample_rnd "unknown") = None) as Hu
        by (vm_compute; reflexivity).
      destruct (Mock.GetNodes sample_rnd "batch") as [ns en].
      destruct (Mock.GetJobs sample_rnd "batch") as [js ej].
      destruct (Mock.GetUserJobs sample_rnd "unknown") as [us eu].
      cbn [fst snd] in *. subst en ej eu.
      exists (insertion_sort less ns).
      split; [apply RankNodes_total | reflexivity].
Defined.

(** ** Requested memory in whole numbers *)

Lemma ParseFloat_digits s v :
  s ≠ "" → GoStrings.digits_from 0 s = Some v → v < 2 ^ 53 →
  ∃ f, GoFloat.ParseFloat s = GoFloat.PF_ok f ∧ GoFloat.to_int f = Some v.
Proof.
  intros Hne Hv Hsmall.
  pose proof (digits_from_all_digits _ _ _ Hv) as Hds.
  pose proof (digits_from_nonneg 0 _ _ (Z.le_refl 0) Hv) as Hv0.
  unfold GoFloat.ParseFloat.
  assert (GoFloat.forallb_string GoFloat.plainByte s = true) as ->.
  { clear -Hds. induction s as [|c s IH]; [reflexivity|].
    cbn [GoFloat.forallb_string] in *.
    apply andb_true_iff in Hds as [Hc Hds].
    by rewrite (isDigit_plainByte c Hc), IH. }
  assert (GoStrings.split_sign s = (false, s)) as ->.
  { destruct s as [|c s]; [done|].
    cbn [GoFloat.forallb_string] in Hds.
    apply andb_true_iff in Hds as [Hc _].
    destruct (isDigit_not_sign c Hc) as [Hplus Hminus].
    cbn [GoStrings.split_sign]. by rewrite Hplus, Hminus. }
  rewrite (decimal_from_digits _ _ _ _ Hv).
  destruct (Nat.eqb_spec (0 + String.length s) 0) as [Hlen|_].
  { exfalso. destruct s; [done|]. cbn [String.length] in Hlen. lia. }
  change (10 ^ Z.of_nat 0) with 1.
  destruct (round_nearest_even_whole v ltac:(lia)) as (r & p & -> & Hint).
  eauto.
Qed.

Lemma cleanMemStr_whole_M ds tail :
  GoFloat.forallb_string GoStrings.isDigit ds = true →
  tail ∈ [""; "Mc"; "Mn"; "n"; "c"] →
  Slurm.cleanMemStr (ds ++ tail)%string = ds.
Proof.
  intros Hds Htail.
  destruct starts_with_letter_patterns as (H1 & H2 & H3 & H4 & H5).
  assert ((ds ++ "")%string = ds) as Hnil.
  { clear. induction ds as [|c ds IH]; [reflexivity|].
    by rewrite append_cons, IH. }
  unfold Slurm.cleanMemStr.
  repeat (apply elem_of_cons in Htail as [->|Htail]);
    [| | | | |by apply elem_of_nil in Htail].
  - rewrite (ReplaceAll_digits ds _ "Mc" "" "") by done.
    rewrite (ReplaceAll_digits ds _ "Mn" "" "") by done.
    rewrite (ReplaceAll_digits ds _ "n" "" "") by done.
    rewrite (ReplaceAll_digits ds _ "c" "" "") by done.
    by rewrite (ReplaceAll_digits ds _ "G" "000" "") by done.
  - rewrite (ReplaceAll_digits ds _ "Mc" "" "") by done.
    rewrite (ReplaceAll_digits ds _ "Mn" "" "") by done.
    rewrite (ReplaceAll_digits ds _ "n" "" "") by done.
    rewrite (ReplaceAll_digits ds _ "c" "" "") by done.
    by rewrite (ReplaceAll_digits ds _ "G" "000" "") by done.
  - rewrite (ReplaceAll_digits ds _ "Mc" "" "Mn") by done.
    rewrite (ReplaceAll_digits ds _ "Mn" "" "") by done.
    rewrite (ReplaceAll_digits ds _ "n" "" "") by done.
    rewrite (ReplaceAll_digits ds _ "c" "" "") by done.
    by rewrite (ReplaceAll_digits ds _ "G" "000" "") by done.
  - rewrite (ReplaceAll_digits ds _ "Mc" "" "n") by done.
    rewrite (ReplaceAll_digits ds _ "Mn" "" "n") by done.
    rewrite (ReplaceAll_digits ds _ "n" "" "") by done.
    rewrite (ReplaceAll_digits ds _ "c" "" "") by done.
    by rewrite (ReplaceAll_digits ds _ "G" "000" "") by done.
  - rewrite (ReplaceAll_digits ds _ "Mc" "" "c") by done.
    rewrite (ReplaceAll_digits ds _ "Mn" "" "c") by done.
    rewrite (ReplaceAll_digits ds _ "n" "" "c") by done.
    rewrite (ReplaceAll_digits ds _ "c" "" "") by done.
    by rewrite (ReplaceAll_digits ds _ "G" "000" "") by done.
Qed.

(** X19: a requested memory written as a whole number [v] in decimal
    digits is read exactly as long as the resulting number of megabytes
    is below [2^53]: with the suffix [G], [Gn] or [Gc] it gives
    [v * 1000] megabytes when [v * 1000 < 2^53], with [Mc], [Mn], [n],
    [c] or no suffix it gives [v] megabytes when [v < 2^53]. *)
Theorem parseReqMem_whole (ds tail : string) (old v : Z) :
  ds ≠ "" → GoStrings.digits_from 0 ds = Some v →
  (tail ∈ ["G"; "Gn"; "Gc"] → v * 1000 < 2 ^ 53 →
   Slurm.parseReqMem old (ds ++ tail)%string = Returns (v * 1000)) ∧
  (tail ∈ [""; "Mc"; "Mn"; "n"; "c"] → v < 2 ^ 53 →
   Slurm.parseReqMem old (ds ++ tail)%string = Returns v).
Proof.
  intros Hne Hv. split.
  - intros Htail Hsmall. apply parseReqMem_whole_G; try done.
    rewrite !elem_of_cons, elem_of_nil in Htail. tauto.
  - intros Htail Hsmall.
    pose proof (digits_from_all_digits _ _ _ Hv) as Hds.
    unfold Slurm.parseReqMem. rewrite cleanMemStr_whole_M by done.
    destruct (ParseFloat_digits ds v Hne Hv Hsmall) as (f & -> & ->).
    reflexivity.
Qed.

Lemma parseReqMem_whole_witness :
  Slurm.parseReqMem 0 "16Gc" = Returns (16 * 1000) ∧
  Slurm.parseReqMem 0 "4000Mn" = Returns 4000.
Proof.
  split.
  - apply (proj1 (parseReqMem_whole "16" "Gc" 0 16 ltac:(discriminate)
                    eq_refl)); [|reflexivity].
    apply elem_of_cons. right. apply elem_of_cons. right.
    apply elem_of_cons. left. reflexivity.
  - apply (proj2 (parseReqMem_whole "4000" "Mn" 0 4000 ltac:(discriminate)
                    eq_refl)); [|reflexivity].
    apply elem_of_cons. right. apply elem_of_cons. right.
    apply elem_of_cons. left. reflexivity.
Defined.

(** ** Memory units that are not read *)

Lemma cleanMemStr_digits ds tail :
  GoFloat.forallb_string GoStrings.isDigit ds = true →
  Slurm.cleanMemStr (ds ++ tail)%string
  = (ds ++ Slurm.cleanMemStr tail)%string.
Proof.
  intros Hds.
  destruct starts_with_letter_patterns as (H1 & H2 & H3 & H4 & H5).
  unfold Slurm.cleanMemStr.
  rewrite (ReplaceAll_digits ds tail "Mc" "" _ Hds H1 eq_refl).
  rewrite (ReplaceAll_digits ds _ "Mn" "" _ Hds H2 eq_refl).
  rewrite (ReplaceAll_digits ds _ "n" "" _ Hds H3 eq_refl).
  rewrite (ReplaceAll_digits ds _ "c" "" _ Hds H4 eq_refl).
  by rewrite (ReplaceAll_digits ds _ "G" "000" _ Hds H5 eq_refl).
Qed.

Lemma isDigit_facts c :
  GoStrings.isDigit c = true →
  Ascii.eqb c "_"%char = false ∧ Ascii.eqb c "."%char = false ∧
  GoFloat.is_x c = false ∧ GoStrings.toLower c = c ∧
  Ascii.eqb c "i"%char = false ∧ Ascii.eqb c "n"%char = false.
Proof.
  destruct c as [[] [] [] [] [] [] [] []]; vm_compute; intros H;
    first [discriminate H | repeat split; reflexivity].
Qed.

Lemma unitByte_facts u :
  unitByte u = true →
  GoFloat.plainByte u = false ∧ Ascii.eqb u "_"%char = false ∧
  Ascii.eqb u "."%char = false ∧ GoStrings.isDigit u = false ∧
  GoFloat.is_e u = false ∧ GoFloat.is_x u = false.
Proof.
  unfold unitByte. rewrite !andb_true_iff, !negb_true_iff.
  intros [[[Hp Hu] He] Hx]. repeat split; try done.
  - unfold GoFloat.plainByte in Hp. rewrite !orb_false_iff in Hp. tauto.
  - unfold GoFloat.plainByte in Hp. rewrite !orb_false_iff in Hp. tauto.
Qed.

Lemma readDigits_digits ds tail sawdigits acc frac v :
  GoStrings.digits_from acc ds = Some v →
  GoFloat.readDigits false false sawdigits acc frac (ds ++ tail)%string
  = GoFloat.readDigits false false
      (sawdigits || negb (String.eqb ds "")) v frac tail.
Proof.
  revert sawdigits acc. induction ds as [|c ds IH]; intros sawdigits acc.
  - intros [= ->]. cbn [String.eqb negb]. by rewrite orb_false_r.
  - cbn [GoStrings.digits_from]. destruct (GoStrings.isDigit c) eqn:Hc;
      [|discriminate].
    intros Hv. rewrite append_cons. cbn [GoFloat.readDigits].
    destruct (isDigit_facts c Hc) as (-> & -> & _).
    rewrite Hc, (IH _ _ Hv). cbn [String.eqb negb orb].
    by rewrite orb_true_r.
Qed.

(** Digits followed by a unit byte are no number for [ParseFloat]. *)
Lemma ParseFloat_digits_unit ds u rest :
  ds ≠ "" → GoFloat.forallb_string GoStrings.isDigit ds = true →
  unitByte u = true →
  GoFloat.ParseFloat (ds ++ String u rest)%string = GoFloat.PF_err.
Proof.
  intros Hne Hds Hu.
  destruct (unitByte_facts u Hu) as (Hplain & Hus & Hdot & Hdig & He & Hx).
  unfold GoFloat.ParseFloat.
  rewrite forallb_string_app. cbn [GoFloat.forallb_string].
  rewrite Hplain, andb_false_r.
  destruct ds as [|d ds]; [done|]. clear Hne.
  cbn [GoFloat.forallb_string] in Hds. apply andb_true_iff in Hds as [Hd Hds].
  destruct (isDigit_not_sign d Hd) as [Hplus Hminus].
  destruct (isDigit_facts d Hd) as (Hd1 & Hd2 & Hdx & Hlow & Hi & Hn).
  assert (GoStrings.split_sign (String d ds ++ String u rest)%string
          = (false, (String d ds ++ String u rest)%string)) as Hsign.
  { rewrite append_cons. cbn [GoStrings.split_sign].
    by rewrite Hplus, Hminus. }
  assert (GoFloat.special (String d ds ++ String u rest)%string = false)
    as ->.
  { unfold GoFloat.special. rewrite Hsign, append_cons.
    cbn [GoFloat.foldCase]. rewrite Hlow.
    cbn [String.eqb]. by rewrite Hi, Hn. }
  unfold GoFloat.readFloat. rewrite Hsign.
  assert (∃ v, GoStrings.digits_from 0 (String d ds) = Some v) as [v Hv].
  { assert (∀ s acc, GoFloat.forallb_string GoStrings.isDigit s = true →
              ∃ v, GoStrings.digits_from acc s = Some v) as Hex.
    { clear. induction s as [|c s IH]; intros acc Hs; [by eauto|].
      cbn [GoFloat.forallb_string] in Hs.
      apply andb_true_iff in Hs as [Hc Hs].
      cbn [GoStrings.digits_from]. rewrite Hc. by apply IH. }
    apply Hex. cbn [GoFloat.forallb_string]. by rewrite Hd, Hds. }
  assert (GoFloat.readDigits false false false 0 0
            (String d ds ++ String u rest)%string
          = (v, 0%nat, true, String u rest)) as Hread.
  { rewrite (readDigits_digits _ _ _ _ _ _ Hv).
    cbn [String.eqb negb orb GoFloat.readDigits]. by rewrite Hus, Hdot, Hdig. }
  assert (GoFloat.hexPrefix (String d ds ++ String u rest)%string
          = (false, (String d ds ++ String u rest)%string)) as ->.
  { unfold GoFloat.hexPrefix. rewrite append_cons. destruct ds as [|x ds].
    - change ("" ++ String u rest)%string with (String u rest).
      destruct rest; [reflexivity|]. by rewrite Hx, andb_false_r.
    - rewrite append_cons.
      cbn [GoFloat.forallb_string] in Hds.
      apply andb_true_iff in Hds as [Hxd _].
      destruct (isDigit_facts x Hxd) as (_ & _ & Hxx & _).
      rewrite Hxx, andb_false_r.
      by destruct (ds ++ String u rest)%string. }
  rewrite Hread. cbn [negb]. by rewrite He.
Qed.

(** X25: a memory column that is a whole number followed by a unit the
    code does not name is not read at all.  When, after the
    replacements, the digits are followed by a byte that ends the number
    and starts no exponent (as in [4000M], [512K], [2T], [1P], also with
    a trailing [n] or [c]), [ParseFloat] reports an error, the value is
    dropped and the requested memory stays at 0 where the record asks
    for 4000 MB. *)
Theorem parseReqMem_unit_dropped (ds tail rest : string) (u : ascii)
    (old : Z) :
  ds ≠ "" → GoFloat.forallb_string GoStrings.isDigit ds = true →
  Slurm.cleanMemStr tail = String u rest → unitByte u = true →
  Slurm.parseReqMem old (ds ++ tail)%string = Returns old ∧
  mem_open (ds ++ tail)%string = false ∧
  ∀ fields,
    (12 <= length fields)%nat → nth 5 fields "" ≠ "" →
    nth 8 fields "" = (ds ++ tail)%string →
    ReqMemMB_of (Slurm.parseJobInfo fields) = Some 0.
Proof.
  intros Hne Hds Htail Hu.
  assert (GoFloat.ParseFloat (Slurm.cleanMemStr (ds ++ tail)%string)
          = GoFloat.PF_err) as Hpf.
  { rewrite cleanMemStr_digits, Htail by done.
    by apply ParseFloat_digits_unit. }
  assert (∀ o, Slurm.parseReqMem o (ds ++ tail)%string = Returns o) as Hmem.
  { intros o. unfold Slurm.parseReqMem. by rewrite Hpf. }
  split; [apply Hmem|]. split; [unfold mem_open; by rewrite Hpf|].
  intros fields Hlen H5 H8. unfold Slurm.parseJobInfo.
  destruct (Nat.ltb_spec (length fields) 12); [lia|].
  destruct (nth 5 fields "") as [|c r]; [done|].
  cbn [Slurm.firstByte]. rewrite H8, Hmem. reflexivity.
Qed.

Lemma parseReqMem_unit_dropped_witness :
  Slurm.parseReqMem 0 "4000M" = Returns 0 ∧
  Slurm.parseReqMem 0 "2Tn" = Returns 0 ∧
  ReqMemMB_of (Slurm.parseJobInfo (sacct_fields "4000M")) = Some 0.
Proof.
  split; [|split].
  - apply (proj1 (parseReqMem_unit_dropped "4000" "M" "" "M" 0
                    ltac:(discriminate) eq_refl eq_refl eq_refl)).
  - apply (proj1 (parseReqMem_unit_dropped "2" "Tn" "" "T" 0
                    ltac:(discriminate) eq_refl eq_refl eq_refl)).
  - apply (proj2 (proj2 (parseReqMem_unit_dropped "4000" "M" "" "M" 0
                           ltac:(discriminate) eq_refl eq_refl eq_refl))).
    + vm_compute. lia.
    + discriminate.
    + reflexivity.
Defined.

(** ** Tokens of a SLURM node record *)

(** X20: in a SLURM node record a token is skipped, leaving the node as
    it is, when it has no [=], when it has more than one [=], when its
    key is not one of the seven keys read, or when a count is not a
    number that [Atoi] accepts. *)
Theorem Slurm_parseNodeInfo_step_ignores (node : Node) (key value more : string) :
  lacks "=" key → lacks "=" value →
  Slurm.parseNodeInfo_step node key = node ∧
  Slurm.parseNodeInfo_step node (key ++ "=" ++ value ++ "=" ++ more)%string
  = node ∧
  (key ∉ slurm_keys →
   Slurm.parseNodeInfo_step node (key ++ "=" ++ value)%string = node) ∧
  (key ∈ ["CPUAlloc"; "CPUTot"; "AllocMem"; "RealMemory"] →
   snd (GoStrings.Atoi value) = true →
   Slurm.parseNodeInfo_step node (key ++ "=" ++ value)%string = node).
Proof.
  intros Hk Hv. unfold Slurm.parseNodeInfo_step.
  split; [by rewrite Split_char_none|]. split.
  { change ("=" ++ value ++ "=" ++ more)%string
      with (String "=" (value ++ String "=" more)).
    rewrite Split_char_app by done. rewrite Split_char_app by done.
    unfold GoStrings.Split. by destruct (GoStrings.Split_from _ _ _). }
  change ("=" ++ value)%string with (String "=" value).
  rewrite Split_char_app, Split_char_none by done.
  split.
  - unfold slurm_keys. rewrite !not_elem_of_cons.
    intros (H1 & H2 & H3 & H4 & H5 & H6 & H7 & _).
    apply String.eqb_neq in H1, H2, H3, H4, H5, H6, H7.
    by rewrite H1, H2, H3, H4, H5, H6, H7.
  - intros Hin Herr. destruct (GoStrings.Atoi value) as [val b].
    cbn [snd] in Herr. subst b.
    repeat (apply elem_of_cons in Hin as [->|Hin]; [reflexivity|]).
    by apply elem_of_nil in Hin.
Qed.

Lemma Slurm_parseNodeInfo_step_ignores_witness :
  Slurm.parseNodeInfo_step free_node "Reason=low=disk" = free_node ∧
  Slurm.parseNodeInfo_step free_node "CPUTot=many" = free_node.
Proof.
  split.
  - apply (proj1 (proj2 (Slurm_parseNodeInfo_step_ignores free_node
                           "Reason" "low" "disk" eq_refl eq_refl))).
  - apply (proj2 (proj2 (proj2 (Slurm_parseNodeInfo_step_ignores free_node
                                  "CPUTot" "many" "" eq_refl eq_refl)))).
    + apply elem_of_cons. right. apply elem_of_cons. left. reflexivity.
    + reflexivity.
Defined.

(** ** Hot keys *)

(** X21: a partition hot key sets the current partition and asks for
    one fetch, leaving every other field of the application as it is;
    the fetch that follows queries the adapter for that partition. *)
Theorem Update_partition_key (s : Scheduler) (now : Z) (a : App) (k : Key)
    (p : string) :
  key_partition k = Some p →
  let a' := fst (Update now a (KeyMsg k)) in
  snd (Update now a (KeyMsg k)) = [CmdFetchData] ∧
  currentPartition a' = p ∧ currentUser a' = currentUser a ∧
  nodes a' = nodes a ∧ stats a' = stats a ∧ err a' = err a ∧
  jobs a' = jobs a ∧ userJobs a' = userJobs a ∧
  lastUpdate a' = lastUpdate a ∧ width a' = width a ∧
  height a' = height a ∧
  (∀ ns js us st, fetchData s a' (dataMsg ns js us st) →
     fst (GetNodes s p) ≡ₚ ns ∧ js = fst (GetJobs s p)) ∧
  (∀ e, fetchData s a' (errorMsg e) →
     snd (GetNodes s p) = Some e ∨ snd (GetJobs s p) = Some e).
Proof.
  intros Hk. cbv zeta.
  assert (currentPartition (fst (Update now a (KeyMsg k))) = p ∧
          currentUser (fst (Update now a (KeyMsg k))) = currentUser a)
    as [Hp Hu].
  { destruct k; try discriminate Hk; injection Hk as <-; by split. }
  split; [by destruct k|]. split; [exact Hp|]. split; [exact Hu|].
  split; [by destruct k|]. split; [by destruct k|]. split; [by destruct k|].
  split; [by destruct k|]. split; [by destruct k|]. split; [by destruct k|].
  split; [by destruct k|]. split; [by destruct k|].
  split.
  - intros ns js us st Hm. apply fetchData_result in Hm.
    rewrite Hp in Hm. tauto.
  - intros e. unfold fetchData. rewrite Hp.
    destruct (GetNodes s p) as [ns [en|]]; [intros [= ->]; by left|].
    destruct (GetJobs s p) as [js [ej|]]; [intros [= ->]; by right|].
    destruct (GetUserJobs s _) as [us eu]. intros (? & _ & H). discriminate H.
Qed.

Lemma Update_partition_key_witness :
  currentPartition (fst (Update 7 old_app (KeyMsg KeyGPU))) = "gpu_q".
Proof.
  apply (Update_partition_key sched_user_fails 7 old_app KeyGPU "gpu_q").
  reflexivity.
Defined.

(** ** Records of a SLURM node report *)

Lemma record_text_nonempty r : record_text r ≠ "".
Proof.
  unfold record_text.
  assert (∀ cs t, t ≠ "" →
            fold_left (λ acc l, String.append acc (String.append l " ")) cs t
            ≠ "") as H.
  { induction cs as [|c cs IH]; intros t Ht; [exact Ht|].
    cbn [fold_left]. apply IH. by destruct t. }
  apply H. destruct (fst r); discriminate.
Qed.

Lemma Slurm_GetNodes_continuation partition cs ns t :
  Forall (λ l, GoStrings.Contains l "NodeName=" = false) cs →
  fold_left (Slurm.GetNodes_step partition) cs (ns, t)
  = (ns, fold_left (λ acc l, String.append acc (String.append l " ")) cs t).
Proof.
  revert t. induction cs as [|c cs IH]; intros t Hcs; [reflexivity|].
  apply Forall_cons in Hcs as [Hc Hcs]. cbn [fold_left].
  unfold Slurm.GetNodes_step at 2. rewrite Hc. by apply IH.
Qed.

Lemma Slurm_GetNodes_record partition r ns info :
  record_ok r →
  fold_left (Slurm.GetNodes_step partition) (record_lines r) (ns, info)
  = (if negb (String.eqb info "")
     then Slurm.GetNodes_flush partition ns info else ns,
     record_text r).
Proof.
  intros [Hh Hcs]. unfold record_lines, record_text. cbn [fold_left].
  unfold Slurm.GetNodes_step at 2. rewrite Hh.
  destruct (negb (String.eqb info "")) eqn:Hinfo.
  - by rewrite Slurm_GetNodes_continuation.
  - apply negb_false_iff, String.eqb_eq in Hinfo. subst info.
    by rewrite Slurm_GetNodes_continuation.
Qed.

(** X22: the SLURM adapter reads a report record by record: a record
    is a line with [NodeName=] together with the lines up to the next
    such line, joined with spaces, and the nodes returned are those
    parsed from each record that list the partition, in the order of the
    report. *)
Theorem Slurm_GetNodes_records (partition : string) (records : list record) :
  Forall record_ok records →
  fst (Slurm.GetNodes (concat (record_lines <$> records), None) partition)
  = fold_left (Slurm.GetNodes_flush partition) (record_text <$> records) [].
Proof.
  intros Hok. unfold Slurm.GetNodes.
  assert (∀ ns info,
    let '(ns', info') :=
      fold_left (Slurm.GetNodes_step partition)
                (concat (record_lines <$> records)) (ns, info) in
    (if negb (String.eqb info' "")
     then Slurm.GetNodes_flush partition ns' info' else ns')
    = fold_left (Slurm.GetNodes_flush partition) (record_text <$> records)
        (if negb (String.eqb info "")
         then Slurm.GetNodes_flush partition ns info else ns)) as H.
  { induction Hok as [|r rs Hr _ IH]; intros ns info; [reflexivity|].
    cbn [fmap list_fmap concat]. rewrite fold_left_app.
    rewrite Slurm_GetNodes_record by done.
    specialize (IH (if negb (String.eqb info "")
                    then Slurm.GetNodes_flush partition ns info else ns)
                   (record_text r)).
    destruct (fold_left _ (concat _) _) as [ns' info'].
    rewrite IH. cbn [fold_left].
    pose proof (record_text_nonempty r) as Hne.
    apply String.eqb_neq in Hne. by rewrite Hne. }
  specialize (H [] ""). cbn [String.eqb negb] in H.
  destruct (fold_left _ (concat _) _) as [ns' info']. rewrite H.
  by destruct (fold_left _ (record_text <$> records) []).
Qed.

Lemma Slurm_GetNodes_records_witness :
  fst (Slurm.GetNodes (concat (record_lines <$> two_records), None) "gpu_q")
  = [mkNode "n2" StateRunning 8 8 64000 32000 ["batch"; "gpu_q"] []].
Proof.
  rewrite (Slurm_GetNodes_records "gpu_q" two_records).
  - vm_compute. reflexivity.
  - repeat (apply Forall_cons_2;
            [split; [reflexivity|];
             repeat (apply Forall_cons_2; [reflexivity|]);
             apply Forall_nil_2|]).
    apply Forall_nil_2.
Defined.

(** ** Runs of spaces in a Torque node line *)

Lemma Repeat_S n : GoStrings.Repeat " " (S n) = String " " (GoStrings.Repeat " " n).
Proof. reflexivity. Qed.

Lemma Repeat_length n : String.length (GoStrings.Repeat " " n) = n.
Proof. induction n as [|n IH]; [reflexivity|]. rewrite Repeat_S. cbn. by rewrite IH. Qed.

(** [rest] is empty or begins with a byte that is not a space. *)
Definition no_leading_space (rest : string) : Prop :=
  match rest with
  | EmptyString => True
  | String c _ => Ascii.eqb c " " = false
  end.

Lemma prefix_run_short i m rest :
  (m < i)%nat → no_leading_space rest →
  String.prefix (GoStrings.Repeat " " i)
                (GoStrings.Repeat " " m ++ rest)%string = false.
Proof.
  revert i. induction m as [|m IH]; intros i Hi Hrest.
  - destruct i as [|i]; [lia|]. rewrite Repeat_S.
    change (GoStrings.Repeat " " 0 ++ rest)%string with rest.
    destruct rest as [|c rest]; [reflexivity|]. cbn [no_leading_space] in Hrest.
    apply not_true_is_false. rewrite prefix_cons. intros [<- _].
    discriminate Hrest.
  - destruct i as [|i]; [lia|]. rewrite !Repeat_S, append_cons.
    apply not_true_is_false. rewrite prefix_cons. intros [_ H].
    rewrite IH in H; [discriminate | lia | done].
Qed.

Lemma prefix_run_full i rest :
  String.prefix (GoStrings.Repeat " " i)
                (GoStrings.Repeat " " i ++ rest)%string = true.
Proof.
  induction i as [|i IH]; [by destruct rest|].
  rewrite Repeat_S, append_cons. by apply prefix_cons.
Qed.

Lemma ReplaceAll_skip_run k rest old new :
  GoStrings.ReplaceAll_from k (GoStrings.Repeat " " k ++ rest)%string old new
  = GoStrings.ReplaceAll_from 0 rest old new.
Proof.
  induction k as [|k IH]; [reflexivity|].
  rewrite Repeat_S, append_cons. cbn [GoStrings.ReplaceAll_from]. exact IH.
Qed.

Lemma ReplaceAll_run_full i rest :
  (1 <= i)%nat →
  GoStrings.ReplaceAll_from 0 (GoStrings.Repeat " " i ++ rest)%string
    (GoStrings.Repeat " " i) " "
  = String " " (GoStrings.ReplaceAll_from 0 rest (GoStrings.Repeat " " i) " ").
Proof.
  intros Hi. destruct i as [|i]; [lia|].
  pose proof (prefix_run_full (S i) rest) as Hp.
  rewrite Repeat_S, append_cons in *.
  cbn [GoStrings.ReplaceAll_from]. rewrite Hp.
  change (String.length (String " " (GoStrings.Repeat " " i)))
    with (S (String.length (GoStrings.Repeat " " i))).
  cbn [Nat.pred]. rewrite Repeat_length, ReplaceAll_skip_run. reflexivity.
Qed.

Lemma ReplaceAll_run_short i n rest :
  (n < i)%nat → no_leading_space rest →
  GoStrings.ReplaceAll_from 0 (GoStrings.Repeat " " n ++ rest)%string
    (GoStrings.Repeat " " i) " "
  = (GoStrings.Repeat " " n
     ++ GoStrings.ReplaceAll_from 0 rest (GoStrings.Repeat " " i) " ")%string.
Proof.
  intros Hn Hrest. induction n as [|n IH]; [reflexivity|].
  pose proof (prefix_run_short i (S n) rest Hn Hrest) as Hp.
  rewrite Repeat_S, !append_cons in *.
  cbn [GoStrings.ReplaceAll_from]. rewrite Hp, IH by lia. reflexivity.
Qed.

Lemma ReplaceAll_word w rest i new :
  lacks " " w → (1 <= i)%nat →
  GoStrings.ReplaceAll_from 0 (w ++ rest)%string (GoStrings.Repeat " " i) new
  = (w ++ GoStrings.ReplaceAll_from 0 rest (GoStrings.Repeat " " i) new)%string.
Proof.
  intros Hw Hi. destruct i as [|i]; [lia|].
  induction w as [|c w IH]; [reflexivity|].
  apply lacks_cons in Hw as [Hc Hw]. rewrite !append_cons.
  cbn [GoStrings.ReplaceAll_from].
  assert (String.prefix (GoStrings.Repeat " " (S i))
            (String c (w ++ rest)) = false) as ->.
  { rewrite Repeat_S. apply not_true_is_false. rewrite prefix_cons.
    intros [<- _]. discriminate Hc. }
  by rewrite IH.
Qed.

Lemma spaced_no_leading_space w rest :
  lacks " " w → w ≠ "" → no_leading_space (spaced w rest).
Proof.
  intros Hw Hne. destruct w as [|c w]; [done|].
  apply lacks_cons in Hw as [Hc _].
  destruct rest as [|[n w'] rest]; cbn [spaced]; [exact Hc|].
  rewrite append_cons. exact Hc.
Qed.

(** One pass of the loop: runs of exactly [i] spaces become one space,
    shorter runs stay. *)
Lemma ReplaceAll_spaced i w rest :
  (1 <= i)%nat → lacks " " w → runs_ok i rest →
  GoStrings.ReplaceAll (spaced w rest) (GoStrings.Repeat " " i) " "
  = spaced w ((λ r, (if (fst r =? i)%nat then 1%nat else fst r, snd r))
                <$> rest).
Proof.
  intros Hi. unfold GoStrings.ReplaceAll. revert w.
  induction rest as [|[n w'] rest IH]; intros w Hw Hok.
  - cbn [spaced fmap list_fmap].
    assert (∀ s, (s ++ "")%string = s) as Hnil.
    { induction s as [|c s IHs]; [reflexivity|]. by rewrite append_cons, IHs. }
    rewrite <- (Hnil w) at 1. rewrite ReplaceAll_word by done.
    cbn [GoStrings.ReplaceAll_from]. apply Hnil.
  - apply Forall_cons in Hok as [(Hn & Hw' & Hne) Hok]. cbn [fst snd] in *.
    cbn [spaced fmap list_fmap fst snd].
    rewrite ReplaceAll_word by done. f_equal.
    pose proof (spaced_no_leading_space w' rest Hw' Hne) as Hlead.
    destruct (Nat.eqb_spec n i) as [->|Hni].
    + rewrite ReplaceAll_run_full by done.
      rewrite IH by done. reflexivity.
    + rewrite ReplaceAll_run_short by (done || lia).
      rewrite IH by done.
      reflexivity.
Qed.

Lemma runs_ok_pass i rest :
  (1 <= i)%nat → runs_ok (S i) rest →
  runs_ok i ((λ r, (if (fst r =? S i)%nat then 1%nat else fst r, snd r))
               <$> rest).
Proof.
  intros Hi Hok. unfold runs_ok in *. rewrite Forall_fmap.
  eapply Forall_impl; [exact Hok|]. intros [n w] (Hn & Hw & Hne).
  unfold compose. cbn [fst snd] in *. split; [|done].
  destruct (Nat.eqb_spec n (S i)); lia.
Qed.

Lemma collapse_passes k w rest :
  lacks " " w → runs_ok (S k) rest →
  fold_left
    (λ line i, GoStrings.ReplaceAll line (GoStrings.Repeat " " i) " ")
    (rev (seq 2 k)) (spaced w rest)
  = spaced w (single_spaced rest).
Proof.
  intros Hw. revert rest. induction k as [|k IH]; intros rest Hok.
  - cbn [seq rev fold_left]. f_equal. unfold single_spaced.
    induction Hok as [|[n w'] rest (Hn & _) _ IHr]; [reflexivity|].
    cbn [fmap list_fmap fst snd] in *. f_equal; [f_equal; lia | exact IHr].
  - rewrite seq_S, rev_app_distr. cbn [rev app fold_left].
    rewrite ReplaceAll_spaced by (done || lia).
    rewrite IH by (apply runs_ok_pass; [lia | exact Hok]).
    f_equal. unfold single_spaced. rewrite <- list_fmap_compose.
    reflexivity.
Qed.

Lemma Split_single_spaced w rest :
  lacks " " w → runs_ok 30 rest →
  GoStrings.Split (spaced w (single_spaced rest)) " " = w :: (snd <$> rest).
Proof.
  revert w. induction rest as [|[n w'] rest IH]; intros w Hw Hok.
  - cbn [single_spaced fmap list_fmap spaced]. by apply Split_char_none.
  - apply Forall_cons in Hok as [(_ & Hw' & _) Hok]. cbn [snd] in Hw'.
    unfold single_spaced in *. cbn [fmap list_fmap spaced snd].
    change (GoStrings.Repeat " " 1 ++ ?s)%string with (String " " s).
    rewrite Split_char_app by done. f_equal. by apply IH.
Qed.

Lemma runs_ok_single_spaced rest :
  runs_ok 30 rest → runs_ok 30 (single_spaced rest).
Proof.
  intros Hok. unfold runs_ok, single_spaced in *. rewrite Forall_fmap.
  eapply Forall_impl; [exact Hok|]. intros [n w] (Hn & Hw & Hne).
  unfold compose. cbn [fst snd] in *. split; [lia | done].
Qed.

(** X23. A Torque node line whose words are separated by runs of one to
    thirty spaces is collapsed to the same words separated by single
    spaces, so its fields are exactly the words, and the parsed node does
    not depend on how wide the runs are. *)
Theorem Torque_collapseSpaces_runs (w : string) (rest : list (nat * string)) :
  lacks " " w → runs_ok 30 rest →
  Torque.collapseSpaces (spaced w rest) = spaced w (single_spaced rest)
  ∧ GoStrings.Split (Torque.collapseSpaces (spaced w rest)) " "
    = w :: (snd <$> rest)
  ∧ Torque.parseNodeInfo (spaced w rest)
    = Torque.parseNodeInfo (spaced w (single_spaced rest)).
Proof.
  intros Hw Hok.
  assert (∀ r, runs_ok 30 r →
            Torque.collapseSpaces (spaced w r) = spaced w (single_spaced r))
    as Hcollapse.
  { intros r Hr. unfold Torque.collapseSpaces. by apply (collapse_passes 29). }
  split; [by apply Hcollapse|]. split.
  - rewrite Hcollapse by done. by apply Split_single_spaced.
  - unfold Torque.parseNodeInfo.
    rewrite (Hcollapse rest) by done.
    rewrite (Hcollapse (single_spaced rest))
      by (by apply runs_ok_single_spaced).
    assert (single_spaced (single_spaced rest) = single_spaced rest) as ->.
    { unfold single_spaced. rewrite <- list_fmap_compose. reflexivity. }
    reflexivity.
Qed.

Lemma Torque_collapseSpaces_runs_witness :
  Torque.collapseSpaces
    (spaced "node07" [(3%nat, "free"); (12%nat, "4:16"); (30%nat, "2048:8192")])
  = "node07 free 4:16 2048:8192".
Proof.
  refine (proj1 (Torque_collapseSpaces_runs "node07"
            [(3%nat, "free"); (12%nat, "4:16"); (30%nat, "2048:8192")] _ _)).
  - reflexivity.
  - apply Forall_cons_2;
      [split; [cbn [fst]; lia | split; [reflexivity | discriminate]]|].
    apply Forall_cons_2;
      [split; [cbn [fst]; lia | split; [reflexivity | discriminate]]|].
    apply Forall_cons_2;
      [split; [cbn [fst]; lia | split; [reflexivity | discriminate]]|].
    apply Forall_nil_2.
Defined.

(** ** The dashboard on a Torque cluster *)

Lemma TorqueJobs_GetJobs_no_job out :
  qstat_f_ok out → fst (TorqueJobs.GetJobs out) = [].
Proof.
  destruct out as [[|first rest] [e|]]; cbn [qstat_f_ok fst]; intros Hok;
    try reflexivity.
  destruct Hok as [Hnl Hfirst].
  by rewrite TorqueJobs_GetJobs_marked.
Qed.

Lemma Torque_GetUserJobs_no_job qstat_u user :
  fst (Torque.GetUserJobs qstat_u user) = [].
Proof.
  unfold Torque.GetUserJobs. destruct (qstat_u user) as [output [e|]];
    [reflexivity|].
  cbn [fst]. apply scan_keeps_jobs.
Qed.

Lemma Torque_fetchData_no_job s a ns js us st :
  torque_backend s → fetchData s a (dataMsg ns js us st) →
  js = [] ∧ us = [].
Proof.
  intros (mdiag & qf & qu & Hok & ->). unfold fetchData.
  cbn [GetNodes GetJobs GetUserJobs TorqueScheduler].
  destruct (Torque.GetNodes mdiag (currentPartition a)) as [nodes [e|]];
    [discriminate|].
  pose proof (TorqueJobs_GetJobs_no_job _ (Hok (currentPartition a))) as Hj.
  destruct (TorqueJobs.GetJobs (qf (currentPartition a))) as [jobs [e|]];
    [discriminate|].
  pose proof (Torque_GetUserJobs_no_job qu (currentUser a)) as Hu.
  destruct (Torque.GetUserJobs qu (currentUser a)) as [ujobs eu].
  cbn [fst] in Hj, Hu. subst jobs ujobs.
  intros (sorted & _ & Hm). injection Hm as -> -> -> ->.
  by destruct eu.
Qed.

(** X24. On a Torque cluster the dashboard never holds a job: in every
    state the event loop reaches, the job list and the user's job list
    are empty, so no node is marked as running a job of the user.  The
    job listing drops every job (its lines are joined into one) and the
    user listing discards every line. *)
Theorem Torque_reachable_no_jobs (partition userEnv : string) (a : App) :
  reachable torque_backend (NewApp partition userEnv) a →
  jobs a = [] ∧ userJobs a = [] ∧
  ∀ nodeID, userHasJobsOnNode a nodeID = false.
Proof.
  intros Hr.
  enough (jobs a = [] ∧ userJobs a = []) as [Hj Hu].
  { split; [done|]. split; [done|]. intros nodeID.
    unfold userHasJobsOnNode. by rewrite Hu. }
  induction Hr as [|a now m Hr IH Hnd Hne|a a0 s now m Hr IH Hr0 _ Hs Hm].
  - split; reflexivity.
  - destruct m as [w h|k| |ns js us st|e];
      [| |  |by destruct (Hnd ns js us st)|by destruct (Hne e)];
      try exact IH.
    destruct k; exact IH.
  - destruct m as [w h|k| |ns js us st|e]; try exact IH.
    + destruct k; exact IH.
    + cbn [Update fst jobs userJobs].
      by apply (Torque_fetchData_no_job s a0 ns js us st).
Qed.

Lemma Torque_reachable_no_jobs_witness :
  userHasJobsOnNode
    (fst (Update 9 (NewApp "batch" "ann")
            (dataMsg [torque_node] [] [] (calculateStats [torque_node]))))
    "n1"
  = false.
Proof.
  assert (fetchData torque_example (NewApp "batch" "ann")
            (dataMsg [torque_node] [] [] (calculateStats [torque_node])))
    as Hm.
  { unfold fetchData.
    replace (GetNodes torque_example (currentPartition (NewApp "batch" "ann")))
      with ([torque_node], @None error) by (vm_compute; reflexivity).
    replace (GetJobs torque_example (currentPartition (NewApp "batch" "ann")))
      with (@nil Job.Job, @None error) by (vm_compute; reflexivity).
    replace (GetUserJobs torque_example (currentUser (NewApp "batch" "ann")))
      with (@nil Job.Job, @None error) by (vm_compute; reflexivity).
    exists [torque_node].
    split; [split; [reflexivity | reflexivity] | reflexivity]. }
  assert (reachable torque_backend (NewApp "batch" "ann")
            (fst (Update 9 (NewApp "batch" "ann")
                    (dataMsg [torque_node] [] []
                       (calculateStats [torque_node]))))) as Hr.
  { apply (reach_fetched _ _ (NewApp "batch" "ann") (NewApp "batch" "ann")
             torque_example 9 _);
      [apply reach_init | apply reach_init | | exact Hm].
    exists ([mdiag_line1], None), (λ _, qstat_f_report), qstat_two_jobs.
    split; [|reflexivity]. intros p. unfold qstat_f_ok, qstat_f_report.
    cbn [fst]. split; [|reflexivity].
    repeat (apply Forall_cons_2; [reflexivity|]). apply Forall_nil_2. }
  exact (proj2 (proj2 (Torque_reachable_no_jobs "batch" "ann" _ Hr)) "n1").
Defined.
